(** * multi-brand-scraper: a shallow embedding of the scraping engine

    The development embeds, function by function, the parts of the
    repository that the specification talks about:

    - [src/utils/request_utils.py]: the pools, [RequestManager.rotate_identity]
      and [RequestManager.make_request];
    - [brands/sapphire/scraper/scraper.py]: [scrape], [_scrape_sequential],
      [_scrape_category] and the per-tile part of [_extract_products];
    - [brands/khaadi/scraper/scraper.py]: the constructor with
      [_update_request_manager_referrers], the name rule of
      [_extract_products], [enhance_products_with_details] with
      [get_product_details] and [_get_product_details_batch], [scrape],
      [_convert_to_array] and the helpers [_format_size_value],
      [_process_launch_date], [_combine_season_info] and
      [_create_launch_time].

    Python values are modelled as the code has them: [int] as [Z], [str] as
    [string], [float] as the binary64 numbers of [PrimFloat], [list] as
    [list], [dict] as an insertion-ordered association list or a [gmap].
    Exceptions are explicit results; the module-level list [REFERRERS], the
    random source, the clock and the wire are fields of one [world] that is
    threaded through the calls. *)

From Stdlib Require Import ZArith String Ascii List Floats Lia Bool Permutation.
From stdpp Require Import gmap strings list.

Local Open Scope Z_scope.

(** ** Python built-ins used by the scrapers *)

Module Py.

(** Exceptions that the modelled code can meet. *)
Inductive exn : Type :=
| ValueError
| TypeError
| IndexError
| KeyError
| OverflowError.

(** The outcome of a call that may raise. *)
Inductive result (A : Type) : Type :=
| Returned (a : A)
| Raised (e : exn).

Arguments Returned {A} a.
Arguments Raised {A} e.

Definition chars (s : string) : list ascii := list_ascii_of_string s.
Definition str (l : list ascii) : string := string_of_list_ascii l.

(** [str.isspace] on the ASCII range: TAB..CR, FS..US and the blank. *)
Definition is_space (c : ascii) : bool :=
  let n := nat_of_ascii c in
  ((9 <=? n)%nat && (n <=? 13)%nat) || ((28 <=? n)%nat && (n <=? 32)%nat).

Definition is_digit (c : ascii) : bool :=
  let n := nat_of_ascii c in (48 <=? n)%nat && (n <=? 57)%nat.

Definition is_upper (c : ascii) : bool :=
  let n := nat_of_ascii c in (65 <=? n)%nat && (n <=? 90)%nat.

Definition is_lower (c : ascii) : bool :=
  let n := nat_of_ascii c in (97 <=? n)%nat && (n <=? 122)%nat.

Definition lower_char (c : ascii) : ascii :=
  if is_upper c then ascii_of_nat (nat_of_ascii c + 32) else c.

Definition upper_char (c : ascii) : ascii :=
  if is_lower c then ascii_of_nat (nat_of_ascii c - 32) else c.

(** [s.lower()] and [s.upper()]. *)
Definition lower (s : string) : string := str (map lower_char (chars s)).
Definition upper (s : string) : string := str (map upper_char (chars s)).

Fixpoint lstrip_chars (l : list ascii) : list ascii :=
  match l with
  | c :: l' => if is_space c then lstrip_chars l' else l
  | [] => []
  end.

(** [s.strip()]. *)
Definition strip (s : string) : string :=
  str (rev (lstrip_chars (rev (lstrip_chars (chars s))))).

Fixpoint is_prefix (p l : list ascii) : bool :=
  match p, l with
  | [], _ => true
  | a :: p', b :: l' => if Ascii.eqb a b then is_prefix p' l' else false
  | _ :: _, [] => false
  end.

(** [s.startswith(p)]. *)
Definition startswith (s p : string) : bool := is_prefix (chars p) (chars s).

Fixpoint contains_chars (p l : list ascii) : bool :=
  is_prefix p l ||
  match l with
  | [] => false
  | _ :: l' => contains_chars p l'
  end.

(** [p in s] for two strings. *)
Definition contains (p s : string) : bool := contains_chars (chars p) (chars s).

(** [s.split()]: maximal runs of non-blank characters. *)
Fixpoint split_ws_aux (cur : list ascii) (l : list ascii) : list string :=
  match l with
  | [] => match cur with [] => [] | _ => [str (rev cur)] end
  | c :: l' =>
      if is_space c
      then match cur with
           | [] => split_ws_aux [] l'
           | _ => str (rev cur) :: split_ws_aux [] l'
           end
      else split_ws_aux (c :: cur) l'
  end.

Definition split_ws (s : string) : list string := split_ws_aux [] (chars s).

(** [s.split(sep)] for a non-empty separator; [skip] counts the characters
    of a separator occurrence that are still to be passed over. *)
Fixpoint split_sep_aux (sep : list ascii) (skip : nat) (cur l : list ascii)
  : list string :=
  match l with
  | [] => [str (rev cur)]
  | c :: l' =>
      match skip with
      | S k => split_sep_aux sep k cur l'
      | O =>
          if is_prefix sep l
          then str (rev cur) :: split_sep_aux sep (length sep - 1) [] l'
          else split_sep_aux sep 0 (c :: cur) l'
      end
  end.

Definition split_sep (s sep : string) : list string :=
  split_sep_aux (chars sep) 0 [] (chars s).

(** [s.replace(old, new)]. *)
Fixpoint replace_aux (old new : list ascii) (skip : nat) (l : list ascii)
  : list ascii :=
  match l with
  | [] => []
  | c :: l' =>
      match skip with
      | S k => replace_aux old new k l'
      | O =>
          if is_prefix old l
          then new ++ replace_aux old new (length old - 1) l'
          else c :: replace_aux old new 0 l'
      end
  end.

Definition replace (s old new : string) : string :=
  match chars old with
  | [] => str (chars new ++ flat_map (fun c => c :: chars new) (chars s))
  | o => str (replace_aux o (chars new) 0 (chars s))
  end.

(** [sep.join(words)]. *)
Fixpoint join (sep : string) (ws : list string) : string :=
  match ws with
  | [] => EmptyString
  | [w] => w
  | w :: ws' => String.append w (String.append sep (join sep ws'))
  end.

(** A slice bound [i] of a sequence of length [n], as Python clamps it. *)
Definition clamp_index (n : nat) (i : Z) : nat :=
  if i <? 0 then Z.to_nat (Z.max 0 (Z.of_nat n + i))
  else Nat.min n (Z.to_nat i).

(** [l[a:b]], [l[:b]] and [l[a:]]. *)
Definition slice {A} (a b : Z) (l : list A) : list A :=
  let i := clamp_index (length l) a in
  let j := clamp_index (length l) b in
  firstn (j - i) (skipn i l).

Definition slice_to {A} (b : Z) (l : list A) : list A := slice 0 b l.

(** [l[i]] with Python's negative indices; [None] stands for [IndexError]. *)
Definition index {A} (i : Z) (l : list A) : option A :=
  if i <? 0
  then (if Z.of_nat (length l) + i <? 0 then None
        else nth_error l (Z.to_nat (Z.of_nat (length l) + i)))
  else nth_error l (Z.to_nat i).

(** Truth value of a string: non-empty. *)
Definition truthy (s : string) : bool :=
  match s with EmptyString => false | _ => true end.

(** The decimal digits of an [int] literal, underscores between digits
    allowed as [int(str)] accepts them. *)
Fixpoint digits_value (acc : Z) (after_digit : bool) (l : list ascii)
  : option Z :=
  match l with
  | [] => if after_digit then Some acc else None
  | c :: l' =>
      if is_digit c
      then digits_value (10 * acc + Z.of_nat (nat_of_ascii c - 48)) true l'
      else if Ascii.eqb c "_"%char && after_digit
           then match l' with
                | d :: _ => if is_digit d then digits_value acc false l' else None
                | [] => None
                end
           else None
  end.

(** The number of digits that [int(str)] and [str(int)] take, the default
    of [sys.get_int_max_str_digits()]. *)
Definition MAX_STR_DIGITS : Z := 4300.

Fixpoint count_digits (l : list ascii) : Z :=
  match l with
  | [] => 0
  | c :: l' => (if is_digit c then 1 else 0) + count_digits l'
  end.

(** The digits of [int(s)] after the sign: more than [MAX_STR_DIGITS] of
    them, zeros in front counted, are refused. *)
Definition int_digits (l : list ascii) : option Z :=
  if MAX_STR_DIGITS <? count_digits l then None else digits_value 0 false l.

(** [int(s)] for a string, base ten: blanks around, an optional sign, then
    digits. [None] stands for [ValueError]. *)
Definition int_of_str (s : string) : option Z :=
  match chars (strip s) with
  | "-"%char :: l => option_map Z.opp (int_digits l)
  | "+"%char :: l => int_digits l
  | l => int_digits l
  end.

End Py.

(** ** [src/utils/request_utils.py] *)

Module RequestUtils.
Import Py.

Local Open Scope string_scope.
Local Open Scope list_scope.
Local Open Scope Z_scope.

(** The pool of user agents (a module-level list that nothing mutates). *)
Definition USER_AGENTS : list string :=
  [ "Mozilla/5.0 (Windows NT 10.0; Win64; x64) AppleWebKit/537.36 (KHTML, like Gecko) Chrome/91.0.4472.124 Safari/537.36";
    "Mozilla/5.0 (Windows NT 10.0; Win64; x64) AppleWebKit/537.36 (KHTML, like Gecko) Chrome/92.0.4515.107 Safari/537.36";
    "Mozilla/5.0 (Macintosh; Intel Mac OS X 10_15_7) AppleWebKit/605.1.15 (KHTML, like Gecko) Version/14.1.2 Safari/605.1.15";
    "Mozilla/5.0 (Windows NT 10.0; Win64; x64; rv:90.0) Gecko/20100101 Firefox/90.0";
    "Mozilla/5.0 (Macintosh; Intel Mac OS X 10_15_7) AppleWebKit/537.36 (KHTML, like Gecko) Chrome/91.0.4472.114 Safari/537.36";
    "Mozilla/5.0 (X11; Linux x86_64) AppleWebKit/537.36 (KHTML, like Gecko) Chrome/92.0.4515.107 Safari/537.36";
    "Mozilla/5.0 (Windows NT 10.0; Win64; x64) AppleWebKit/537.36 (KHTML, like Gecko) Chrome/91.0.4472.124 Safari/537.36 Edg/91.0.864.59";
    "Mozilla/5.0 (iPhone; CPU iPhone OS 14_6 like Mac OS X) AppleWebKit/605.1.15 (KHTML, like Gecko) Version/14.1.1 Mobile/15E148 Safari/604.1";
    "Mozilla/5.0 (iPad; CPU OS 14_6 like Mac OS X) AppleWebKit/605.1.15 (KHTML, like Gecko) Version/14.0 Mobile/15E148 Safari/604.1";
    "Mozilla/5.0 (Windows NT 10.0; Win64; x64) AppleWebKit/537.36 (KHTML, like Gecko) Chrome/92.0.4515.159 Safari/537.36 OPR/78.0.4093.184" ].

(** The value of the module-level list [REFERRERS] when the module is
    imported. The list is mutable: the current value lives in the [world]. *)
Definition REFERRERS_initial : list string :=
  [ "https://www.google.com/";
    "https://www.bing.com/";
    "https://www.facebook.com/";
    "https://www.instagram.com/";
    "https://www.pinterest.com/";
    "https://twitter.com/";
    "https://pk.sapphireonline.pk/";
    "https://pk.sapphireonline.pk/sale/";
    "https://pk.sapphireonline.pk/collections/";
    "https://pk.sapphireonline.pk/new-arrivals/" ].

(** *** Headers *)

(** [httpx.Headers]: header lines in order, keys compared without case. *)
Abbreviation headers := (list (string * string)).

(** A Python [dict] from [str] to [str], in insertion order. *)
Abbreviation pydict := (list (string * string)).

Definition key_eqb (a b : string) : bool := String.eqb (lower a) (lower b).

(** [key in h]. *)
Definition headers_has (k : string) (h : headers) : bool :=
  existsb (fun kv => key_eqb k (fst kv)) h.

(** [h.get(key)]: the values of the lines with that key, joined. *)
Definition headers_get (k : string) (h : headers) : option string :=
  match filter (fun kv => key_eqb k (fst kv) = true) h with
  | [] => None
  | l => Some (join ", " (map snd l))
  end.

(** [h.update(other)]: the lines of [h] whose key [other] also has are
    dropped, then the lines of [other] are appended. *)
Definition headers_update (h other : headers) : headers :=
  (filter (fun kv => headers_has (fst kv) other = false) h ++ other)%list.

(** [d[k] = v] on a Python [dict]. *)
Fixpoint dict_set (k v : string) (d : pydict) : pydict :=
  match d with
  | [] => [(k, v)]
  | (k', v') :: d' =>
      if String.eqb k k' then (k, v) :: d' else (k', v') :: dict_set k v d'
  end.

(** [d.update(other)]. *)
Definition dict_update (d other : pydict) : pydict :=
  fold_left (fun acc kv => dict_set (fst kv) (snd kv) acc) other d.

(** [dict(h)] for [h : httpx.Headers]: one entry per lower-cased key, in
    order of first occurrence, holding the joined values. *)
Fixpoint dict_of_headers_aux (h : headers) (all : headers) (seen : list string)
  : pydict :=
  match h with
  | [] => []
  | (k, _) :: h' =>
      let lk := lower k in
      if existsb (String.eqb lk) seen
      then dict_of_headers_aux h' all seen
      else (lk, default "" (headers_get lk all))
             :: dict_of_headers_aux h' all (lk :: seen)
  end.

Definition dict_of_headers (h : headers) : pydict := dict_of_headers_aux h h [].

(** The default headers of a fresh [httpx.Client()]. *)
Definition httpx_default_headers : headers :=
  [ ("Accept", "*/*");
    ("Accept-Encoding", "gzip, deflate");
    ("Connection", "keep-alive");
    ("User-Agent", "python-httpx") ].

(** The headers that [Client.get(url, headers=h)] puts on the wire: the
    client's headers updated with the request's, the request's winning. *)
Definition httpx_merge_headers (client_headers : headers) (h : pydict)
  : headers :=
  headers_update client_headers h.

(** *** The world around a request manager *)

Record request : Type := {
  req_url : string;
  req_params : pydict;
  req_headers : headers;
  req_timeout : Z
}.

Record response : Type := {
  status_code : Z;
  resp_headers : headers;
  content : string
}.

(** What the transport does with one [session.get]. *)
Inductive outcome : Type :=
| Answered (r : response)
| ConnectError
| TimeoutException
| RequestError.

Record world : Type := {
  REFERRERS : list string;     (* the module-level list, as it is now *)
  entropy : nat -> nat;        (* the random source, draw by draw *)
  drawn : nat;                 (* how many draws were consumed *)
  slept : list Z;              (* arguments of [time.sleep], oldest first *)
  wire : list request          (* requests handed to the transport, oldest first *)
}.

(** Computations that read and change the world and may raise. *)
Definition M (A : Type) : Type := world -> result A * world.

Definition ret {A} (a : A) : M A := fun w => (Returned a, w).
Definition raise {A} (e : exn) : M A := fun w => (Raised e, w).
Definition bind {A B} (m : M A) (k : A -> M B) : M B :=
  fun w => match m w with
           | (Returned a, w') => k a w'
           | (Raised e, w') => (Raised e, w')
           end.

Declare Scope py_scope.
Delimit Scope py_scope with py.
Notation "x <- m ;; k" := (bind m (fun x => k))
  (at level 100, m at next level, right associativity) : py_scope.
Notation "m ;;; k" := (bind m (fun _ => k))
  (at level 100, right associativity) : py_scope.

(** [random.choice(seq)]. *)
Definition random_choice (l : list string) : M string :=
  fun w =>
    match l with
    | [] => (Raised IndexError, w)
    | x :: _ =>
        (Returned (nth (entropy w (drawn w) mod length l)%nat l x),
         {| REFERRERS := REFERRERS w; entropy := entropy w;
            drawn := S (drawn w); slept := slept w; wire := wire w |})
    end.

(** The longest sleep, in seconds, that [time.sleep] takes: the number of
    nanoseconds has to fit a signed 64-bit integer. *)
Definition SLEEP_MAX : Z := 9223372036.

(** [time.sleep(secs)] for an [int]: the argument is converted to
    nanoseconds first, an [OverflowError] when they do not fit 64 bits;
    then a negative argument is a [ValueError]. *)
Definition time_sleep (secs : Z) : M unit :=
  fun w =>
    if (secs <? - SLEEP_MAX) || (SLEEP_MAX <? secs) then (Raised OverflowError, w)
    else if secs <? 0 then (Raised ValueError, w)
    else (Returned tt,
          {| REFERRERS := REFERRERS w; entropy := entropy w;
             drawn := drawn w; slept := (slept w ++ [secs])%list; wire := wire w |}).

(** Handing a request to the transport. *)
Definition send (r : request) : M unit :=
  fun w =>
    (Returned tt,
     {| REFERRERS := REFERRERS w; entropy := entropy w;
        drawn := drawn w; slept := slept w; wire := (wire w ++ [r])%list |}).

(** Reading the module-level list. *)
Definition get_REFERRERS : M (list string) := fun w => (Returned (REFERRERS w), w).

(** [REFERRERS.extend(more)]. *)
Definition extend_REFERRERS (more : list string) : M unit :=
  fun w =>
    (Returned tt,
     {| REFERRERS := (REFERRERS w ++ more)%list; entropy := entropy w;
        drawn := drawn w; slept := slept w; wire := wire w |}).

(** *** [RequestManager] *)

Record RequestManager : Type := {
  base_url : string;
  retry_count : Z;
  retry_delay : Z;
  session_headers : headers    (* [self.session.headers] *)
}.

Definition set_session_headers (rm : RequestManager) (h : headers)
  : RequestManager :=
  {| base_url := base_url rm; retry_count := retry_count rm;
     retry_delay := retry_delay rm; session_headers := h |}.

Local Open Scope py_scope.

(** [RequestManager.rotate_identity]. *)
Definition rotate_identity (rm : RequestManager) : M RequestManager :=
  user_agent <- random_choice USER_AGENTS ;;
  pool <- get_REFERRERS ;;
  referrer <- random_choice pool ;;
  ret (set_session_headers rm
         (headers_update (session_headers rm)
            [("User-Agent", user_agent); ("Referer", referrer)])).

(** The headers of a session after [rotate_identity]: the defaults of the
    client, with the identity that was drawn. *)
Definition identity_headers (user_agent referrer : string) : headers :=
  [ ("Accept", "*/*");
    ("Accept-Encoding", "gzip, deflate");
    ("Connection", "keep-alive");
    ("User-Agent", user_agent);
    ("Referer", referrer) ].

(** A manager whose session presents an identity: what the constructor
    leaves, and what every later rotation keeps. *)
Definition has_identity (rm : RequestManager) : Prop :=
  exists user_agent referrer,
    session_headers rm = identity_headers user_agent referrer.

(** [RequestManager.__init__]. *)
Definition RequestManager_init (base : string) (count delay : Z)
  : M RequestManager :=
  rotate_identity
    {| base_url := base; retry_count := count; retry_delay := delay;
       session_headers := httpx_default_headers |}.

(** [range(n)]. *)
Definition range (n : Z) : list Z := map Z.of_nat (seq 0 (Z.to_nat n)).

(** [response.raise_for_status()] passes on the 2xx codes only. *)
Definition is_success (r : response) : bool :=
  (200 <=? status_code r) && (status_code r <=? 299).

(** The local variables of [make_request] that the loop changes. *)
Record locals : Type := {
  l_rm : RequestManager;
  l_success : bool;
  l_current_delay : Z;
  l_response : option response
}.

(** The [except httpx.HTTPStatusError] handler. *)
Definition on_status_error (r : response) (current_delay : Z) : M unit :=
  if status_code r =? 429
  then match headers_get "Retry-After" (resp_headers r) with
       | Some v =>
           match int_of_str v with
           | Some wait_time => time_sleep wait_time
           | None => raise ValueError
           end
       | None => time_sleep current_delay
       end
  else time_sleep current_delay.

(** The [Retry-After] value that the [429] branch of the handler reads from
    the answer to an attempt, if that branch runs and the header is there. *)
Definition retry_after (o : outcome) : option string :=
  match o with
  | Answered r =>
      if status_code r =? 429 then headers_get "Retry-After" (resp_headers r)
      else None
  | _ => None
  end.

(** The body of [for attempt in range(self.retry_count + 1)], over the
    attempts still to make. [net attempt] is what the transport does with
    the request of that attempt. *)
Fixpoint attempts (net : Z -> outcome) (url : string) (params : pydict)
  (merged_headers : pydict) (timeout : Z) (todo : list Z) (st : locals)
  : M locals :=
  match todo with
  | [] => ret st
  | attempt :: rest =>
      rm <- (if 0 <? attempt then rotate_identity (l_rm st) else ret (l_rm st)) ;;
      send {| req_url := url; req_params := params;
              req_headers := httpx_merge_headers (session_headers rm) merged_headers;
              req_timeout := timeout |} ;;;
      match net attempt with
      | Answered r =>
          if is_success r
          then ret {| l_rm := rm; l_success := true;
                      l_current_delay := l_current_delay st;
                      l_response := Some r |}
          else
            on_status_error r (l_current_delay st) ;;;
            attempts net url params merged_headers timeout rest
              {| l_rm := rm; l_success := l_success st;
                 l_current_delay := l_current_delay st * 2;
                 l_response := Some r |}
      | ConnectError | TimeoutException | RequestError =>
          time_sleep (l_current_delay st) ;;;
          attempts net url params merged_headers timeout rest
            {| l_rm := rm; l_success := l_success st;
               l_current_delay := l_current_delay st * 2;
               l_response := l_response st |}
      end
  end.

(** The response made up when no attempt was answered. *)
Definition fake_response : response :=
  {| status_code := 0; resp_headers := []; content := "" |}.

(** Lines 89-91: [merged_headers], computed once, before the loop. *)
Definition merged_headers_of (rm : RequestManager) (extra : option pydict)
  : pydict :=
  let merged_headers := dict_of_headers (session_headers rm) in
  match extra with
  | Some ((_ :: _) as h) => dict_update merged_headers h
  | _ => merged_headers
  end.

(** [RequestManager.make_request]: the pair it returns, and the manager as
    the call leaves it. *)
Definition make_request (net : Z -> outcome) (rm : RequestManager)
  (url : string) (params : pydict) (extra : option pydict) (timeout : Z)
  : M (response * bool * RequestManager) :=
  let merged_headers := merged_headers_of rm extra in
  st <- attempts net url params merged_headers timeout
          (range (retry_count rm + 1))
          {| l_rm := rm; l_success := false;
             l_current_delay := retry_delay rm; l_response := None |} ;;
  match l_response st with
  | Some r => ret (r, l_success st, l_rm st)
  | None => ret (fake_response, l_success st, l_rm st)
  end.

End RequestUtils.

(** ** The category loop and [SapphireScraper.scrape]

    [SapphireScraper._scrape_category] and [KhaadiScraper._scrape_category]
    are the same loop; Khaadi's calls [rotate_identity] before each
    [make_request]. What one turn of the loop learns from [make_request],
    [BeautifulSoup], [select_one('.no-results')] and [_extract_products] is
    a [fetched] value, given by the task's [site]. The courtesy sleep
    between two pages does not bear on what the loop returns and is left
    out of the state. *)

Module Paginator.
Import Py.

Local Open Scope list_scope.
Local Open Scope Z_scope.

(** The query of one listing request: [{'cgid', 'start', 'sz'}]. *)
Record page_request : Type := {
  cgid : string;
  start : Z;
  sz : Z
}.

Section Category.

Variable product : Type.

(** What the [try] block of one turn meets. *)
Inductive fetched : Type :=
| RequestFailed                       (* [success] is false *)
| Unexpected                          (* something raised: [except Exception] *)
| Page (no_results : bool) (products : list product).

(** A site answers the n-th request of a task. *)
Definition site : Type := nat -> page_request -> fetched.

(** The variables of the loop, with the requests issued so far and the
    page number each was issued for. *)
Record cstate : Type := {
  category_products : list product;
  c_start : Z;
  c_page : Z;
  issued : list (page_request * Z)
}.

Inductive turn : Type :=
| Done (products : list product) (log : list (page_request * Z))
| Next (st : cstate).

Definition len (l : list product) : Z := Z.of_nat (length l).

(** One turn of [while has_more_products]. *)
Definition iteration (page_size product_limit : Z) (category_id : string)
  (s : site) (st : cstate) : turn :=
  let acc := category_products st in
  if (0 <? product_limit) && (product_limit <=? len acc)
  then Done (slice_to product_limit acc) (issued st)
  else
    let rq := {| cgid := category_id; start := c_start st; sz := page_size |} in
    let log := issued st ++ [(rq, c_page st)] in
    match s (length (issued st)) rq with
    | RequestFailed => Done acc log
    | Unexpected => Done acc log
    | Page true _ => Done acc log
    | Page false [] => Done acc log
    | Page false products =>
        let remaining := product_limit - len acc in
        if (0 <? product_limit) && (remaining <? len products)
        then Done (acc ++ slice_to remaining products) log
        else
          let acc' := acc ++ products in
          if len products <? page_size
          then Done acc' log
          else Next {| category_products := acc';
                       c_start := c_start st + page_size;
                       c_page := c_page st + 1;
                       issued := log |}
    end.

(** The request that a turn issues when the limit check lets it through,
    with its page number. *)
Definition request_at (page_size : Z) (category_id : string) (st : cstate)
  : page_request * Z :=
  ({| cgid := category_id; start := c_start st; sz := page_size |}, c_page st).

(** The limit check at the top of the loop (lines 129-132). *)
Definition limit_reached (product_limit : Z) (st : cstate) : Prop :=
  0 < product_limit /\ product_limit <= len (category_products st).

(** The loop, for at most [fuel] turns: the list it returns, if it returned
    by then, and the requests issued. *)
Fixpoint run (fuel : nat) (page_size product_limit : Z) (category_id : string)
  (s : site) (st : cstate) : option (list product) * list (page_request * Z) :=
  match fuel with
  | O => (None, issued st)
  | S fuel' =>
      match iteration page_size product_limit category_id s st with
      | Done products log => (Some products, log)
      | Next st' => run fuel' page_size product_limit category_id s st'
      end
  end.

Definition initial : cstate :=
  {| category_products := []; c_start := 0; c_page := 1; issued := [] |}.

(** [_scrape_category(category_name, category_id, request_manager,
    product_limit)]. *)
Definition _scrape_category (fuel : nat) (page_size : Z) (category_id : string)
  (s : site) (product_limit : Z) : option (list product) :=
  fst (run fuel page_size product_limit category_id s initial).

(** The scraper's configuration, as [__init__] reads it. *)
Record config : Type := {
  categories : list (string * string);   (* name and id, in dict order *)
  page_size : Z;
  product_limit : Z;                     (* 0 means no limit *)
  max_workers : Z
}.

(** [_scrape_sequential]: the categories one after the other, from the
    position [i] on. *)
Fixpoint sequential (fuel : nat) (cfg : config) (sites : nat -> site)
  (i : nat) (cats : list (string * string)) (all_products : list product)
  : option (list product) :=
  match cats with
  | [] => Some all_products
  | (_, category_id) :: rest =>
      match _scrape_category fuel (page_size cfg) category_id (sites i)
              (product_limit cfg) with
      | None => None
      | Some category_products =>
          let all_products := all_products ++ category_products in
          if (0 <? product_limit cfg) && (product_limit cfg <=? len all_products)
          then Some (slice_to (product_limit cfg) all_products)
          else sequential fuel cfg sites (S i) rest all_products
      end
  end.

Definition _scrape_sequential (fuel : nat) (cfg : config) (sites : nat -> site)
  : option (list product) :=
  sequential fuel cfg sites 0 (categories cfg) [].

(** The tasks submitted to the pool: task [i] scrapes the [i]-th category
    with its share of the limit. *)
Fixpoint submit (fuel : nat) (cfg : config) (sites : nat -> site) (share : Z)
  (i : nat) (cats : list (string * string)) : list (option (list product)) :=
  match cats with
  | [] => []
  | (_, category_id) :: rest =>
      _scrape_category fuel (page_size cfg) category_id (sites i) share
        :: submit fuel cfg sites share (S i) rest
  end.

(** [for future in as_completed(futures)]: the results are appended in the
    order in which the tasks complete. *)
Fixpoint collect (futures : list (option (list product)))
  (completion : list nat) (all_products : list product)
  : option (list product) :=
  match completion with
  | [] => Some all_products
  | i :: rest =>
      match nth_error futures i with
      | Some (Some category_products) =>
          collect futures rest (all_products ++ category_products)
      | Some None => None
      | None => collect futures rest all_products
      end
  end.

(** [SapphireScraper.scrape] (lines 37-84). [None]: some task was still
    running when the fuel ran out. [ThreadPoolExecutor] refuses a pool
    without workers. *)
Definition scrape (fuel : nat) (cfg : config) (sites : nat -> site)
  (completion : list nat) : option (result (list product)) :=
  let n := Z.of_nat (length (categories cfg)) in
  if n <=? 1
  then option_map Returned (_scrape_sequential fuel cfg sites)
  else
    if Z.min (max_workers cfg) n <=? 0 then Some (Raised ValueError)
    else
      let share := if 0 <? product_limit cfg then product_limit cfg / n else 0 in
      let futures := submit fuel cfg sites share 0 (categories cfg) in
      match collect futures completion [] with
      | None => None
      | Some all_products =>
          if (0 <? product_limit cfg) && (product_limit cfg <? len all_products)
          then Some (Returned (slice_to (product_limit cfg) all_products))
          else Some (Returned all_products)
      end.

(** A site that serves a fixed catalogue honestly: the request for
    [start], [sz] gets the items [start .. start + sz - 1]. *)
Definition catalogue (items : list product) : site :=
  fun _ rq => Page false (slice (start rq) (start rq + sz rq) items).

End Category.

Arguments RequestFailed {product}.
Arguments Unexpected {product}.
Arguments Page {product} no_results products.
Arguments Done {product} products log.
Arguments Next {product} st.
Arguments category_products {product} c.
Arguments c_start {product} c.
Arguments c_page {product} c.
Arguments issued {product} c.
Arguments len {product} l.
Arguments iteration {product} page_size product_limit category_id s st.
Arguments request_at {product} page_size category_id st.
Arguments limit_reached {product} product_limit st.
Arguments run {product} fuel page_size product_limit category_id s st.
Arguments initial {product}.
Arguments _scrape_category {product} fuel page_size category_id s product_limit.
Arguments sequential {product} fuel cfg sites i cats all_products.
Arguments _scrape_sequential {product} fuel cfg sites.
Arguments submit {product} fuel cfg sites share i cats.
Arguments collect {product} futures completion all_products.
Arguments scrape {product} fuel cfg sites completion.
Arguments catalogue {product} items.

End Paginator.

(** ** [brands/sapphire/scraper/scraper.py]: [_extract_products] *)

Module Sapphire.
Import Py.

Local Open Scope string_scope.
Local Open Scope list_scope.
Local Open Scope Z_scope.

(** The two last words of a name, joined by a blank:
    [words[-2] + " " + words[-1]]. *)
Definition suffix2 (a b : string) : string :=
  String.append a (String.append " " b).

(** [x in [a, b, ...]] for strings. *)
Definition mem (x : string) (l : list string) : bool := existsb (String.eqb x) l.

Definition STYLES : list string :=
  ["Printed"; "Embroidered"; "Dyed"; "Digital"; "Embellished"].

Definition PIECES : list string := ["3 Piece"; "2 Piece"].

(** [words[i]] where the code has checked the length before. *)
Definition word (i : Z) (words : list string) : string := default "" (index i words).

Definition count (words : list string) : Z := Z.of_nat (length words).

(** The name rules of lines 244-310: [(product_type, fabric_type,
    fabric_style)] of a product name. *)
Definition parse_name (name : string) : string * string * string :=
  let words := split_ws name in
  let '(product_type, fabric_type, fabric_style) :=
    if contains "-" name
    then
      let parts := map strip (split_sep name "-") in
      let product_type := if mem (word 0 parts) PIECES then word 0 parts else "" in
      if 1 <? count parts
      then
        let second_part_words := split_ws (word 1 parts) in
        if (0 <? count second_part_words) && mem (word 0 second_part_words) STYLES
        then
          let fabric_style := word 0 second_part_words in
          if 2 <? count second_part_words
          then
            let fabric_type := join " " (slice 1 (-1) second_part_words) in
            if truthy product_type
            then (product_type, fabric_type, fabric_style)
            else (word (-1) second_part_words, fabric_type, fabric_style)
          else if count second_part_words =? 2
               then (product_type, word 1 second_part_words, fabric_style)
               else (product_type, "", fabric_style)
        else (product_type, "", "")
      else (product_type, "", "")
    else
      let fabric_style :=
        if (0 <? count words) && mem (word 0 words) STYLES then word 0 words else "" in
      let start_idx := if truthy fabric_style then 1 else 0 in
      if (2 <=? count words)
         && mem (String.append (word (-2) words) (String.append " " (word (-1) words))) PIECES
      then
        let product_type :=
          String.append (word (-2) words) (String.append " " (word (-1) words)) in
        if 4 <=? count words
        then (product_type, join " " (slice start_idx (-2) words), fabric_style)
        else (product_type, "", fabric_style)
      else
        if 0 <? count words
        then
          if 3 <=? count words
          then (word (-1) words, join " " (slice start_idx (-1) words), fabric_style)
          else (word (-1) words, "", fabric_style)
        else ("", "", fabric_style) in
  let fabric_type :=
    if (3 <=? count words) && String.eqb (word (-2) words) "Silk"
       && mem (word (-3) words) ["Raw"; "Pure"]
    then String.append (word (-3) words) (String.append " " (word (-2) words))
    else if (3 <=? count words) && String.eqb (word (-2) words) "Cotton"
            && mem (word (-3) words) ["Egyptian"; "Pima"; "Organic"]
         then String.append (word (-3) words) (String.append " " (word (-2) words))
         else fabric_type in
  (product_type, fabric_type, fabric_style).

(** [round(x)] of a [float]: to the nearest integer, ties to the even one;
    not a number and the infinities raise. *)
Inductive rounded : Type :=
| RoundInt (z : Z)
| RoundValueError
| RoundOverflowError.

Definition half_even (m e : Z) : Z :=
  if 0 <=? e then m * 2 ^ e
  else
    let d := 2 ^ (- e) in
    let q := m / d in
    let r := m mod d in
    if 2 * r <? d then q
    else if d <? 2 * r then q + 1
         else if Z.even q then q else q + 1.

Definition py_round (x : float) : rounded :=
  match Prim2SF x with
  | SpecFloat.S754_zero _ => RoundInt 0
  | SpecFloat.S754_infinity _ => RoundOverflowError
  | SpecFloat.S754_nan => RoundValueError
  | SpecFloat.S754_finite s m e =>
      let v := half_even (Z.pos m) e in
      RoundInt (if s then - v else v)
  end.

(** What the selectors of [_extract_products] find in one product tile:
    attribute values and element texts, [None] where nothing matches. *)
Record tile : Type := {
  data_pid : option string;                        (* attribute [data-pid] *)
  name_link : option (string * option string);     (* [.pdp-link a.link]: text, [href] *)
  subtitle_text : option string;                   (* [.subtitle] *)
  sales_value : option string;                     (* [.price .sales .value] *)
  del_value : option string;                       (* [.price del .value] *)
  primary_image : option (option string * option string);  (* [data-src], [src] *)
  hover_image : option (option string * option string);
  sold_out : bool                                  (* a sold-out badge is there *)
}.

(** The product dictionary that [_extract_products] builds. *)
Record product : Type := {
  brand : string;
  brand_id : string;
  sku : string;
  name : string;
  slug : string;
  fabric_style : string;
  fabric_type : string;
  product_type : string;
  category : string;
  collection : string;
  piece_info : string;
  url : string;
  img_url : list string;
  price : string;
  original_price : string;
  discount_percentage : option Z;                  (* [None] is Python's [None] *)
  on_sale : bool;
  in_stock : bool
}.

(** What happens to one tile. *)
Inductive extraction : Type :=
| Extracted (p : product)
| Skipped                       (* no name element: [continue] *)
| Failed (e : exn).             (* the tile's [try] caught [e] *)

(** [s.title()] on ASCII letters. *)
Fixpoint title_chars (prev_cased : bool) (l : list ascii) : list ascii :=
  match l with
  | [] => []
  | c :: l' =>
      if is_upper c || is_lower c
      then (if prev_cased then lower_char c else upper_char c) :: title_chars true l'
      else c :: title_chars false l'
  end.

Definition title (s : string) : string := str (title_chars false (chars s)).

(** Position of the first occurrence: [l.index(x)]. *)
Fixpoint index_of (x : string) (l : list string) : option Z :=
  match l with
  | [] => None
  | y :: l' => if String.eqb y x then Some 0 else option_map Z.succ (index_of x l')
  end.

(** The season named in a subtitle (lines 353-360 and 383-390). *)
Definition season_of (subtitle : string) : string :=
  if contains "Summer" subtitle then "Summer"
  else if contains "Winter" subtitle then "Winter"
  else if contains "Spring" subtitle then "Spring"
  else if contains "Fall" subtitle then "Fall"
  else "".

(** Lines 326-362: [(category, collection, piece_info)] from the URL. *)
Definition category_of_url (product_url subtitle : string)
  : string * string * string :=
  if truthy product_url && contains "collections/" product_url
  then
    let url_parts := split_sep product_url "/" in
    match index_of "collections" url_parts with
    | None => ("", "", "")                       (* [ValueError], caught *)
    | Some collections_index =>
        if collections_index + 1 <? Z.of_nat (length url_parts)
        then
          let category_slug := word (collections_index + 1) url_parts in
          let '(piece_info, category_slug) :=
            if contains "one-piece" category_slug
            then ("One Piece", replace category_slug "one-piece-" "")
            else if contains "two-piece" category_slug
                 then ("Two Piece", replace category_slug "two-piece-" "")
                 else if contains "three-piece" category_slug
                      then ("Three Piece", replace category_slug "three-piece-" "")
                      else ("", category_slug) in
          if truthy category_slug
          then (title (replace category_slug "-" " "), season_of subtitle, piece_info)
          else ("", "", piece_info)
        else ("", "", "")
    end
  else ("", "", "").

(** Lines 369-379: the SKU read from the URL when the attribute is empty. *)
Definition sku_of (sku product_url : string) : string :=
  if negb (truthy sku) && truthy product_url
  then
    let url_parts := split_sep product_url "/" in
    match index_of "products" url_parts with
    | Some products_index =>
        if products_index + 1 <? Z.of_nat (length url_parts)
        then word 0 (split_sep (word (products_index + 1) url_parts) ".")
        else sku
    | None => sku
    end
  else sku.

(** Lines 396-409: the original price; [None] is the [IndexError] of
    [original_price.split()[0]]. *)
Definition original_price_of (del_text : option string) (price : string)
  : option string :=
  match del_text with
  | Some text =>
      let raw_price := strip text in
      if contains "Rs." raw_price
      then
        let original_price := strip (word 1 (split_sep raw_price "Rs.")) in
        match split_ws original_price with
        | w :: _ => Some (String.append "Rs." w)
        | [] => None
        end
      else if truthy raw_price then Some (word 0 (split_ws raw_price)) else Some ""
  | None => Some price
  end.

(** Lines 411-434: the URL of an image, without its query string. *)
Definition image_url_of (img : option (option string * option string)) : string :=
  match img with
  | Some (data_src, src) =>
      let u := default "" data_src in
      let u := if truthy u then u else default "" src in
      if truthy u && contains "?" u then word 0 (split_sep u "?") else u
  | None => ""
  end.

Section Extract.

(** Python's [float(str)]; [None] is its [ValueError]. *)
Variable py_float : string -> option float.

(** Lines 441-442: the text handed to [float]. *)
Definition clean (p : string) : string :=
  strip (replace (replace p "Rs." "") "," "").

(** Lines 436-447: the discount. *)
Definition discount_of (price original_price : string) : result (option Z) :=
  if negb (String.eqb original_price price)
     && negb (String.eqb original_price "N/A")
     && negb (String.eqb price "N/A")
  then
    match py_float (clean original_price) with
    | None => Returned None
    | Some original_price_clean =>
        match py_float (clean price) with
        | None => Returned None
        | Some price_clean =>
            if PrimFloat.ltb 0 original_price_clean
            then
              match py_round
                      (PrimFloat.mul
                         (PrimFloat.div
                            (PrimFloat.sub original_price_clean price_clean)
                            original_price_clean)
                         100) with
              | RoundInt z => Returned (Some z)
              | RoundValueError => Returned None
              | RoundOverflowError => Raised OverflowError
              end
            else Returned None
        end
    end
  else Returned None.

(** The body of [for element in product_elements]. *)
Definition extract_tile (base_url brand_id : string) (t : tile) : extraction :=
  let sku := default "" (data_pid t) in
  match name_link t with
  | None => Skipped
  | Some (text, href) =>
      let name := strip text in
      let '(product_type, fabric_type, fabric_style) := parse_name name in
      let product_url := default "" href in
      let product_url :=
        if truthy product_url && negb (startswith product_url "http")
        then String.append base_url product_url else product_url in
      let subtitle := match subtitle_text t with Some s => strip s | None => "" end in
      let '(category, collection, piece_info) := category_of_url product_url subtitle in
      let category := if truthy category then category else subtitle in
      let sku := sku_of sku product_url in
      let collection := if truthy collection then collection else season_of subtitle in
      let price := match sales_value t with Some s => strip s | None => "N/A" end in
      match original_price_of (del_value t) price with
      | None => Failed IndexError
      | Some original_price =>
          let primary_image_url := image_url_of (primary_image t) in
          let hover_image_url := image_url_of (hover_image t) in
          match discount_of price original_price with
          | Raised e => Failed e
          | Returned discount =>
              Extracted
                {| brand := "Sapphire";
                   brand_id := brand_id;
                   sku := sku;
                   name := name;
                   slug := replace (replace (lower name) " " "-") "--" "-";
                   fabric_style := fabric_style;
                   fabric_type := fabric_type;
                   product_type := product_type;
                   category := category;
                   collection := collection;
                   piece_info := piece_info;
                   url := product_url;
                   img_url :=
                     (if truthy primary_image_url then [primary_image_url] else [])
                     ++ (if truthy hover_image_url then [hover_image_url] else []);
                   price := price;
                   original_price := original_price;
                   discount_percentage := discount;
                   on_sale := match discount with Some d => 0 <? d | None => false end;
                   in_stock := negb (sold_out t) |}
          end
      end
  end.

(** [_extract_products]: the tiles that yield a product, in page order. *)
Definition _extract_products (base_url brand_id : string) (tiles : list tile)
  : list product :=
  omap (fun t => match extract_tile base_url brand_id t with
                 | Extracted p => Some p
                 | _ => None
                 end) tiles.

End Extract.

(** The request manager that [SapphireScraper.__init__] creates. *)
Definition SapphireScraper_init (base : string) (count delay : Z)
  : RequestUtils.M RequestUtils.RequestManager :=
  RequestUtils.RequestManager_init base count delay.

End Sapphire.

(** ** [brands/khaadi/scraper/scraper.py] *)

Module Khaadi.
Import Py.

Local Open Scope string_scope.
Local Open Scope list_scope.
Local Open Scope Z_scope.

(** *** The constructor and the shared referrers *)

Definition khaadi_specific_referrers : list string :=
  [ "https://pk.khaadi.com/";
    "https://pk.khaadi.com/new-in/";
    "https://pk.khaadi.com/sale/";
    "https://pk.khaadi.com/fabrics/";
    "https://pk.khaadi.com/ready-to-wear/";
    "https://pk.khaadi.com/collections/";
    "https://www.google.com/search?q=khaadi+pakistan";
    "https://www.facebook.com/khaadi/";
    "https://www.instagram.com/khaadi/" ].

(** [_update_request_manager_referrers]: a [RequestManager] object has no
    attribute [REFERRERS], so the [else] branch runs and the list of the
    module [request_utils] itself is extended. *)
Definition _update_request_manager_referrers (rm : RequestUtils.RequestManager)
  (additional_referrers : list string) : RequestUtils.M unit :=
  RequestUtils.extend_REFERRERS additional_referrers.

(** [KhaadiScraper.__init__], as far as the request manager goes. *)
Definition KhaadiScraper_init (base : string) (count delay : Z)
  : RequestUtils.M RequestUtils.RequestManager :=
  RequestUtils.bind (RequestUtils.RequestManager_init base count delay)
    (fun rm =>
       RequestUtils.bind
         (_update_request_manager_referrers rm khaadi_specific_referrers)
         (fun _ => RequestUtils.rotate_identity rm)).

(** *** The name rule of [_extract_products] (lines 328-350) *)

(** [(product_type, item_category)] as read from the product name. *)
Definition name_rule (name : string) : string * string :=
  let words := split_ws name in
  let item_category :=
    if contains "Fabrics" name then "Unstitched"
    else if contains "Ready" name || contains "RTW" name then "Ready to Wear"
         else "" in
  if (2 <=? Sapphire.count words)
     && Sapphire.mem
          (String.append (Sapphire.word (-2) words)
             (String.append " " (Sapphire.word (-1) words)))
          ["3 Piece"; "2 Piece"]
  then
    (String.append (Sapphire.word (-2) words)
       (String.append " " (Sapphire.word (-1) words)),
     if (3 <=? Sapphire.count words) && String.eqb (Sapphire.word (-3) words) "Fabrics"
     then "Unstitched" else item_category)
  else
    if 0 <? Sapphire.count words
    then (Sapphire.word (-1) words, item_category)
    else ("", item_category).

(** *** [enhance_products_with_details] *)

#[local] Set Warnings "-register-all".

(** The Python values found in a listing or in a detail record. *)
Inductive pyval : Type :=
| PNone
| PBool (b : bool)
| PInt (z : Z)
| PFloat (f : float)
| PStr (s : string)
| PList (l : list pyval)
| PDict (d : list (string * pyval)).

(** A product dictionary; the detail record of one product. [∅] is the
    empty dictionary that a failed fetch returns. *)
Abbreviation listing := (gmap string pyval).
Abbreviation details := (gmap string pyval).

(** Truth value of a Python value. *)
Definition py_truthy (v : pyval) : bool :=
  match v with
  | PNone => false
  | PBool b => b
  | PInt z => negb (z =? 0)
  | PFloat f => negb (PrimFloat.eqb f 0)
  | PStr s => truthy s
  | PList l => match l with [] => false | _ => true end
  | PDict d => match d with [] => false | _ => true end
  end.

(** [product.get('sku', '')], [product.get('product_type', '')]: the
    extractor writes strings there; anything else is read as empty. *)
Definition get_str (k : string) (p : listing) : string :=
  match p !! k with
  | Some (PStr s) => s
  | _ => ""
  end.

(** [product.get('colors', [])[0] if product.get('colors') else '']: the
    extractor writes a list of strings there. *)
Definition first_color (p : listing) : string :=
  match p !! "colors" with
  | Some (PList (PStr c :: _)) => c
  | _ => ""
  end.

(** A listing as [_extract_products] types it. *)
Definition well_typed (p : listing) : Prop :=
  (forall v, p !! "sku" = Some v -> exists s, v = PStr s) /\
  (forall v, p !! "product_type" = Some v -> exists s, v = PStr s) /\
  (forall v, p !! "colors" = Some v ->
     exists l, v = PList (map PStr l)).

(** One entry of [product_requests]: [{'id', 'color', 'size'}]. *)
Record detail_request : Type := {
  dr_id : string;
  dr_color : string;
  dr_size : option string
}.

(** Lines 819-847: the request of a listing, if it gets one. *)
Definition request_of (p : listing) : option detail_request :=
  let sku := get_str "sku" p in
  let color := first_color p in
  if negb (truthy sku) || negb (truthy color) then None
  else
    let product_type := get_str "product_type" p in
    let size :=
      if contains "3 Piece" product_type then Some "3PC"
      else if contains "2 Piece" product_type then Some "2PC"
           else None in
    Some {| dr_id := sku; dr_color := color; dr_size := size |}.

Definition product_requests (products : list listing) : list detail_request :=
  omap request_of products.

(** The place, among the detail requests, of the request of the [i]-th
    listing: one request per earlier listing that has an SKU and a colour. *)
Definition request_place (products : list listing) (i : nat) : nat :=
  length (product_requests (take i products)).

(** [for future in as_completed(futures)] of [_get_product_details_batch]:
    [results[product_id]] is written as each fetch completes; [fetch i] is
    what [_get_product_details_single] returns for the [i]-th request. *)
Fixpoint gather (requests : list detail_request) (fetch : nat -> details)
  (completion : list nat) (results : gmap string details)
  : gmap string details :=
  match completion with
  | [] => results
  | i :: rest =>
      match nth_error requests i with
      | Some r => gather requests fetch rest (<[dr_id r := fetch i]> results)
      | None => gather requests fetch rest results
      end
  end.

(** [_get_product_details_batch(product_ids, max_workers)] (lines 732-803).
    A pool without workers is refused with a [ValueError]. *)
Definition _get_product_details_batch (requests : list detail_request)
  (max_workers : Z) (fetch : nat -> details) (completion : list nat)
  : result (gmap string details) :=
  if Z.min max_workers (Z.of_nat (length requests)) <=? 0
  then Raised ValueError
  else Returned (gather requests fetch completion ∅).

(** [get_product_details(product_id_or_ids, color, size, max_workers)]
    (lines 436-457) when the first argument is a list: the batch, which is
    handed [max_workers]; [color] and [size] play no part. *)
Definition get_product_details (requests : list detail_request)
  (color size : pyval) (max_workers : Z) (fetch : nat -> details)
  (completion : list nat) : result (gmap string details) :=
  _get_product_details_batch requests max_workers fetch completion.

(** [x in product_name] as Python evaluates it for the value under
    ['name']; [None] is the [TypeError] of a value that is no container. *)
Definition name_has (x : string) (product_name : pyval) : option bool :=
  match product_name with
  | PStr s => Some (contains x s)
  | PList l =>
      Some (existsb (fun v => match v with PStr s => String.eqb s x | _ => false end) l)
  | PDict d => Some (existsb (fun kv => String.eqb (fst kv) x) d)
  | _ => None
  end.

Definition is_str (x : string) (v : option pyval) : bool :=
  match v with
  | Some (PStr s) => String.eqb s x
  | _ => false
  end.

(** Lines 951-961: the category fix-ups after the update; an exception
    leaves the listing as it is at that point. *)
Definition fix_category (p : listing) : listing :=
  let product_name := default (PStr "") (p !! "name") in
  let after_name : option listing :=
    if py_truthy product_name
    then
      match name_has "Fabrics" product_name with
      | None => None
      | Some true => Some (<["category" := PStr "Unstitched"]> p)
      | Some false =>
          match name_has "Ready" product_name, name_has "RTW" product_name with
          | Some a, Some b =>
              if a || b then Some (<["category" := PStr "Ready to Wear"]> p)
              else Some p
          | _, _ => None
          end
      end
    else Some p in
  match after_name with
  | None => p
  | Some q =>
      if is_str "Fabrics" (q !! "category") || is_str "fabrics" (q !! "category")
      then <["category" := PStr "Unstitched"]> q
      else q
  end.

Section Enhance.

(** The entries of the dictionary literal of lines 902-943 other than the
    flag, computed from the detail record and the listing; [Raised] when
    their evaluation raises. *)
Variable detail_fields : details -> listing -> result (gmap string pyval).

(** The body of the second loop (lines 857-973) for one listing. *)
Definition enhance_one (details_map : gmap string details) (product : listing)
  : listing :=
  let sku := get_str "sku" product in
  match details_map !! sku with
  | Some d =>
      if bool_decide (d = ∅) then product
      else
        match detail_fields d product with
        | Raised _ => product
        | Returned fields =>
            let product :=
              <["has_detailed_info" := PBool true]> (fields ∪ product) in
            let product :=
              <["img_url" := default (PList []) (d !! "images")]> product in
            fix_category product
        end
  | None => product
  end.

(** [enhance_products_with_details(products, max_workers)]. Line 851 calls
    [self.get_product_details(product_requests, max_workers)]: the second
    positional parameter of [get_product_details] is [color], so
    [max_workers] lands there, [size] keeps its default [None] and the
    batch runs with the default [max_workers=5] of [get_product_details]. *)
Definition enhance_products_with_details (products : list listing)
  (max_workers : Z) (fetch : nat -> details) (completion : list nat)
  : result (list listing) :=
  match get_product_details (product_requests products) (PInt max_workers) PNone 5
          fetch completion with
  | Raised e => Raised e
  | Returned details_map => Returned (map (enhance_one details_map) products)
  end.

End Enhance.

End Khaadi.

(** ** Worlds and inputs for the examples *)

Module Scenario.
Import Py RequestUtils.

Local Open Scope string_scope.
Local Open Scope list_scope.
Local Open Scope Z_scope.

(** The same world with another random source. *)
Definition with_entropy (e : nat -> nat) (w : world) : world :=
  {| REFERRERS := REFERRERS w; entropy := e; drawn := drawn w;
     slept := slept w; wire := wire w |}.

(** The world in which the module [request_utils] has just been imported. *)
Definition fresh_world (e : nat -> nat) : world :=
  {| REFERRERS := REFERRERS_initial; entropy := e; drawn := 0;
     slept := []; wire := [] |}.

(** A manager as the constructor leaves it, with the first entry of each
    pool as its identity. *)
Definition manager (count delay : Z) : RequestManager :=
  {| base_url := "https://pk.sapphireonline.pk";
     retry_count := count;
     retry_delay := delay;
     session_headers :=
       identity_headers
         "Mozilla/5.0 (Windows NT 10.0; Win64; x64) AppleWebKit/537.36 (KHTML, like Gecko) Chrome/91.0.4472.124 Safari/537.36"
         "https://www.google.com/" |}.

(** An answer with the given status and, possibly, a [Retry-After] header. *)
Definition answer (status : Z) (retry_after_value : option string) : outcome :=
  Answered
    {| status_code := status;
       resp_headers :=
         match retry_after_value with
         | Some v => [("Retry-After", v)]
         | None => []
         end;
       content := "" |}.

(** A server that keeps answering [429] with [Retry-After: 7]. *)
Definition rate_limiting : Z -> outcome := fun _ => answer 429 (Some "7").

(** A server whose [429] carries the date form of [Retry-After]. *)
Definition rate_limiting_until_date : Z -> outcome :=
  fun _ => answer 429 (Some "Wed, 21 Oct 2015 07:28:00 GMT").

(** A transport that fails to connect once and then gets a [200]. *)
Definition flaky : Z -> outcome :=
  fun attempt => if attempt =? 0 then ConnectError else answer 200 None.

(** Python's [float] on the plain decimals of at most fifteen digits, such
    as ["2000"] or ["1499.50"]: the integer that the digits spell and the
    power of ten are both binary64 numbers, and their quotient, rounded
    once, is the binary64 number nearest to the decimal. Every other string
    is refused here, although [float] reads more than these. *)
Definition float_of_plain_decimal (s : string) : option float :=
  let parts := split_sep s "." in
  let digits := chars (default "" (nth_error parts 0)) ++ chars (default "" (nth_error parts 1)) in
  let places := length (chars (default "" (nth_error parts 1))) in
  if (length parts <=? 2)%nat && forallb is_digit digits
     && (1 <=? length digits)%nat && (length digits <=? 15)%nat
  then
    match digits_value 0 false digits with
    | Some m =>
        Some (PrimFloat.div (PrimFloat.of_uint63 (Uint63.of_Z m))
                (PrimFloat.of_uint63 (Uint63.of_Z (10 ^ Z.of_nat places))))
    | None => None
    end
  else None.

(** A tile on sale: Rs.1,500 instead of Rs.2,000. *)
Definition tile_on_sale : Sapphire.tile :=
  {| Sapphire.data_pid := Some "0U3PDY24V46";
     Sapphire.name_link := Some ("Printed Lawn 3 Piece", Some "/products/0U3PDY24V46.html");
     Sapphire.subtitle_text := Some "Summer Unstitched";
     Sapphire.sales_value := Some "Rs.1,500";
     Sapphire.del_value := Some "Rs.2,000";
     Sapphire.primary_image := None;
     Sapphire.hover_image := None;
     Sapphire.sold_out := false |}.

(** The same tile at its full price: no [del] element. *)
Definition tile_full_price : Sapphire.tile :=
  {| Sapphire.data_pid := Some "0U3PDY24V46";
     Sapphire.name_link := Some ("Printed Lawn 3 Piece", Some "/products/0U3PDY24V46.html");
     Sapphire.subtitle_text := Some "Summer Unstitched";
     Sapphire.sales_value := Some "Rs.2,000";
     Sapphire.del_value := None;
     Sapphire.primary_image := None;
     Sapphire.hover_image := None;
     Sapphire.sold_out := false |}.

(** A Khaadi listing as [_extract_products] builds it. *)
Definition khaadi_listing (sku name color : string) : gmap string Khaadi.pyval :=
  list_to_map
    [ ("brand", Khaadi.PStr "Khaadi");
      ("sku", Khaadi.PStr sku);
      ("name", Khaadi.PStr name);
      ("product_type", Khaadi.PStr "3 Piece");
      ("category", Khaadi.PStr "Fabrics");
      ("colors", Khaadi.PList [Khaadi.PStr color]) ].

(** A detail record that a successful fetch returns, cut down to a name and
    a stock flag. *)
Definition some_details (name : string) : gmap string Khaadi.pyval :=
  list_to_map
    [ ("name", Khaadi.PStr name);
      ("in_stock", Khaadi.PBool true) ].

(** An instance of the fields that the enrichment copies: the name and the
    stock flag of the detail record. *)
Definition copied_fields (d p : gmap string Khaadi.pyval)
  : result (gmap string Khaadi.pyval) :=
  Returned
    (list_to_map
       [ ("name", default (Khaadi.PStr "") (d !! "name"));
         ("in_stock", default (Khaadi.PBool true) (d !! "in_stock")) ]).

(** Two listings of one product, as two categories show it. *)
Definition twin_listings : list (gmap string Khaadi.pyval) :=
  [ khaadi_listing "MT11-VG_NAVY" "Fabrics 3 Piece" "Navy";
    khaadi_listing "MT11-VG_NAVY" "Fabrics 3 Piece" "Navy" ].

(** Two listings of two products. *)
Definition two_listings : list (gmap string Khaadi.pyval) :=
  [ khaadi_listing "MT11-VG_NAVY" "Fabrics 3 Piece" "Navy";
    khaadi_listing "SS160B-VG_MULTI" "Fabrics 3 Piece" "Multi" ].

(** The first fetch fails, the second succeeds. *)
Definition first_fetch_fails (i : nat) : gmap string Khaadi.pyval :=
  match i with
  | O => ∅
  | _ => some_details "Fabrics 3 Piece"
  end.


(** The five products of the [i]-th category, as numbers. *)
Definition shelf (i : nat) : list nat :=
  map (fun k => (100 * i + k)%nat) (seq 0 5).

End Scenario.

(** ** Further inputs *)

Module Cases.
Import Py RequestUtils.

Local Open Scope string_scope.
Local Open Scope list_scope.
Local Open Scope Z_scope.

(** Two categories, two workers, no limit. *)
Definition two_categories_unlimited : Paginator.config :=
  {| Paginator.categories := [("Women", "women"); ("Men", "men")];
     Paginator.page_size := 12;
     Paginator.product_limit := 0;
     Paginator.max_workers := 2 |}.

(** Three categories, two workers, a global limit of two. *)
Definition three_categories_limit_two : Paginator.config :=
  {| Paginator.categories :=
       [("Women", "women"); ("Men", "men"); ("Kids", "kids")];
     Paginator.page_size := 12;
     Paginator.product_limit := 2;
     Paginator.max_workers := 2 |}.

End Cases.

(** ** More Python built-ins *)

Module PyMore.
Import Py.

Local Open Scope string_scope.
Local Open Scope list_scope.
Local Open Scope Z_scope.

(** [s.isdigit()] on the ASCII range: non-empty, decimal digits only. *)
Definition isdigit (s : string) : bool :=
  match chars s with
  | [] => false
  | l => forallb is_digit l
  end.

Definition digit_char (d : Z) : ascii := ascii_of_nat (48 + Z.to_nat d).

(** The decimal digits of a non-negative number, the most significant
    first; [fuel] bounds the number of digits. *)
Fixpoint digits_of (fuel : nat) (n : Z) : list ascii :=
  match fuel with
  | O => []
  | S fuel' =>
      if n <? 10 then [digit_char n]
      else digits_of fuel' (n / 10) ++ [digit_char (n mod 10)]
  end.

(** The decimal writing of an [int]: a number has no more decimal digits
    than binary ones. *)
Definition str_of_int (n : Z) : string :=
  if n <? 0
  then str ("-"%char :: digits_of (S (Z.to_nat (Z.log2 (- n)))) (- n))
  else str (digits_of (S (Z.to_nat (Z.log2 n))) n).

(** [str(n)] and [f"{n}"] for an [int]: its decimal writing; an [int] of
    more than [MAX_STR_DIGITS] digits is refused with a [ValueError],
    [None] here. *)
Definition py_str (n : Z) : option string :=
  if 10 ^ MAX_STR_DIGITS <=? Z.abs n then None else Some (str_of_int n).

(** The width two of [:02d]: a zero is put in front of a writing of one
    character. *)
Definition pad2 (s : string) : string :=
  if (String.length s <? 2)%nat then String.append "0" s else s.

(** [f"{n:02d}"]: zeros are put in front up to the width two, the sign
    counted in; [None] is the [ValueError] of [py_str]. *)
Definition format_02d (n : Z) : option string := option_map pad2 (py_str n).

End PyMore.

(** ** [brands/khaadi/scraper/scraper.py]: the helpers of the detail record *)

Module KhaadiDetails.
Import Py PyMore.

Local Open Scope string_scope.
Local Open Scope list_scope.
Local Open Scope Z_scope.

(** [_convert_to_array(field_value)] (lines 80-94). *)
Definition _convert_to_array (field_value : Khaadi.pyval) : Khaadi.pyval :=
  match field_value with
  | Khaadi.PStr s =>
      if truthy s
      then
        let cleaned_value := replace s "|" "" in
        Khaadi.PList
          (map (fun word => Khaadi.PStr (strip word))
             (filter (fun word => truthy (strip word) = true)
                (split_ws cleaned_value)))
      else field_value
  | _ => field_value
  end.

(** [_format_size_value(size_value)] for a string (lines 981-999); a
    [ValueError] of [int] or of [str] is caught and gives the value back. *)
Definition _format_size_value (size_value : string) : string :=
  if isdigit size_value
  then match int_of_str size_value with
       | Some n => match py_str n with
                   | Some formatted => formatted
                   | None => size_value
                   end
       | None => size_value
       end
  else size_value.

(** [_process_launch_date(launch_date_str)] for a string (lines 1001-1037):
    [None] is returned for the empty string and when [int] raises. *)
Definition _process_launch_date (launch_date_str : string) : option Z :=
  if negb (truthy launch_date_str) then None
  else if contains "." launch_date_str
          && (1 <? Z.of_nat (length (split_sep launch_date_str ".")))
  then
    let month_num := strip (Sapphire.word 0 (split_sep launch_date_str ".")) in
    int_of_str month_num
  else if contains "-" launch_date_str
          && (1 <? Z.of_nat (length (split_sep launch_date_str "-")))
  then
    let month_part := strip (Sapphire.word 1 (split_sep launch_date_str "-")) in
    int_of_str month_part
  else int_of_str launch_date_str.

(** The dict [month_to_season] with [.get(month, "")]. *)
Definition month_to_season (month : Z) : string :=
  if (month =? 12) || (month =? 1) || (month =? 2) then "Winter"
  else if (month =? 3) || (month =? 4) || (month =? 5) then "Spring"
  else if (month =? 6) || (month =? 7) || (month =? 8) then "Summer"
  else if (month =? 9) || (month =? 10) || (month =? 11) then "Fall"
  else "".

(** Truth value of [month]: [None] and [0] are false. *)
Definition month_truthy (month : option Z) : bool :=
  match month with
  | Some m => negb (m =? 0)
  | None => false
  end.

(** [_combine_season_info(month, season)] (lines 1039-1088);
    [current_year] is [datetime.datetime.now().year], a number between 1
    and 9999, which [f"{current_year}"] always writes. *)
Definition _combine_season_info (current_year : Z) (month : option Z)
  (season : string) : string :=
  let natural_season :=
    match month with
    | Some m => if month_truthy month then month_to_season m else ""
    | None => ""
    end in
  let formatted_season :=
    if truthy season then Sapphire.title (strip season) else "" in
  let display_season : option string :=
    if truthy formatted_season && truthy natural_season
    then
      if Sapphire.mem (lower formatted_season)
           ["summer"; "winter"; "spring"; "fall"; "autumn"]
      then Some formatted_season
      else Some natural_season
    else if truthy formatted_season then Some formatted_season
    else if truthy natural_season then Some natural_season
    else None in
  match display_season with
  | None => "Collection"
  | Some display_season =>
      let display_season :=
        if String.eqb (lower display_season) "autumn" then "Fall"
        else display_season in
      String.append display_season
        (String.append " " (str_of_int current_year))
  end.

(** [_create_launch_time(launch_date_str, month, season)] (lines
    1090-1133); [current_year] and [current_month] are those of
    [datetime.datetime.now()], between 1 and 9999 and between 1 and 12,
    which the f-strings always write. [season] is not used. When the
    month cannot be written, the [ValueError] is caught and the current
    year and month are returned. *)
Definition _create_launch_time (current_year current_month : Z)
  (launch_date_str : string) (month : option Z) : string :=
  let month :=
    if negb (month_truthy month) && truthy launch_date_str
    then _process_launch_date launch_date_str
    else month in
  let month_to_use :=
    match month with
    | Some m => if month_truthy month then m else current_month
    | None => current_month
    end in
  let year_to_use :=
    if month_to_use <? current_month then current_year
    else if (current_month <=? 3) && (10 <=? month_to_use)
         then current_year - 1
         else current_year in
  match format_02d month_to_use with
  | Some mm => String.append (str_of_int year_to_use) (String.append "-" mm)
  | None =>
      String.append (str_of_int current_year)
        (String.append "-" (pad2 (str_of_int current_month)))
  end.

End KhaadiDetails.

(** ** [brands/khaadi/scraper/scraper.py]: [scrape] *)

Module KhaadiScrape.
Import Py Paginator Khaadi.

Local Open Scope string_scope.
Local Open Scope list_scope.
Local Open Scope Z_scope.

Section Scrape.

(** The fields that the enrichment copies, as in [Khaadi.enhance_one]. *)
Variable detail_fields : details -> listing -> result (gmap string pyval).

(** [KhaadiScraper.scrape] (lines 96-151): the categories, one after the
    other or in a pool, as in Sapphire's [scrape]; the cut to the limit,
    here after either path; then, when the configuration has
    [enhance_with_details] set and something was scraped, the enrichment
    pass, called with [max_workers=detail_workers], whose result is
    returned.
    [fetch] and [detail_completion] are what the detail requests return
    and the order in which they complete. *)
Definition scrape (fuel : nat) (cfg : config) (sites : nat -> site listing)
  (completion : list nat) (enhance_with_details : bool) (detail_workers : Z)
  (fetch : nat -> details) (detail_completion : list nat)
  : option (result (list listing)) :=
  let n := Z.of_nat (length (categories cfg)) in
  let scraped : option (result (list listing)) :=
    if n <=? 1
    then option_map Returned (_scrape_sequential fuel cfg sites)
    else
      if Z.min (max_workers cfg) n <=? 0 then Some (Raised ValueError)
      else
        let share := if 0 <? product_limit cfg then product_limit cfg / n else 0 in
        option_map Returned
          (collect (submit fuel cfg sites share 0 (categories cfg)) completion [])
  in
  match scraped with
  | Some (Returned all_products) =>
      let all_products :=
        if (0 <? product_limit cfg) && (product_limit cfg <? len all_products)
        then slice_to (product_limit cfg) all_products
        else all_products in
      if enhance_with_details
         && match all_products with [] => false | _ => true end
      then Some (enhance_products_with_details detail_fields all_products
                   detail_workers fetch detail_completion)
      else Some (Returned all_products)
  | Some (Raised e) => Some (Raised e)
  | None => None
  end.

End Scrape.

End KhaadiScrape.

Module CasesKhaadi.
Import Py Khaadi.

Local Open Scope string_scope.
Local Open Scope list_scope.
Local Open Scope Z_scope.

(** One category, no limit. *)
Definition one_category : Paginator.config :=
  {| Paginator.categories := [("Fabrics", "fabrics")];
     Paginator.page_size := 32;
     Paginator.product_limit := 0;
     Paginator.max_workers := 3 |}.

(** A listing whose tile showed no colour. *)
Definition colourless_listings : list (gmap string pyval) :=
  [ Scenario.khaadi_listing "MT11-VG_NAVY" "Fabrics 3 Piece" "" ].

End CasesKhaadi.

(** * Properties *)

(** * Properties *)

(** ** The shared referrer list *)

Section Referrers.
Import Py RequestUtils Scenario.

Local Open Scope string_scope.
Local Open Scope list_scope.
Local Open Scope Z_scope.

Lemma random_choice_returns l w :
  l <> [] ->
  exists x, fst (random_choice l w) = Returned x /\ In x l /\
            REFERRERS (snd (random_choice l w)) = REFERRERS w /\
            slept (snd (random_choice l w)) = slept w /\
            wire (snd (random_choice l w)) = wire w.
Proof.
  intros Hl. destruct l as [|x l]; [congruence|].
  unfold random_choice. eexists. split; [reflexivity|].
  split; [|auto].
  cbn [fst]. apply nth_In. apply Nat.mod_upper_bound. simpl. lia.
Qed.

Lemma rotate_identity_returns rm w :
  REFERRERS w <> [] ->
  exists user_agent referrer w',
    rotate_identity rm w =
      (Returned (set_session_headers rm
                   (headers_update (session_headers rm)
                      [("User-Agent", user_agent); ("Referer", referrer)])), w') /\
    In user_agent USER_AGENTS /\ In referrer (REFERRERS w) /\
    REFERRERS w' = REFERRERS w /\ slept w' = slept w /\ wire w' = wire w.
Proof.
  intros Hw. unfold rotate_identity, bind, get_REFERRERS, ret.
  destruct (random_choice_returns USER_AGENTS w) as (ua & Hua & Hin & HR & HS & HW);
    [discriminate|].
  destruct (random_choice USER_AGENTS w) as [r1 w1] eqn:E1. simpl in *. subst r1.
  destruct (random_choice_returns (REFERRERS w1) w1) as (rf & Hrf & Hin2 & HR2 & HS2 & HW2);
    [congruence|].
  destruct (random_choice (REFERRERS w1) w1) as [r2 w2] eqn:E2. simpl in *. subst r2.
  exists ua, rf, w2. repeat split; try congruence.
Qed.

(** A draw that makes [random.choice] pick the element at a given place. *)
Lemma random_choice_at (l : list string) (i : nat) (x : string) w :
  nth_error l i = Some x ->
  entropy w (drawn w) = i ->
  fst (random_choice l w) = Returned x.
Proof.
  intros Hn He. unfold random_choice.
  destruct l as [|y l]; [destruct i; discriminate|].
  cbn [fst]. f_equal. rewrite He.
  assert (Hlt : (i < length (y :: l))%nat) by (apply nth_error_Some; congruence).
  rewrite Nat.mod_small by exact Hlt.
  apply nth_error_nth with (d := y) in Hn. exact Hn.
Qed.

Lemma key_eqb_sym a b : key_eqb a b = key_eqb b a.
Proof. unfold key_eqb. apply String.eqb_sym. Qed.

(** After [rotate_identity] the session presents exactly the referrer that
    was drawn. *)
Lemma referer_after_update (h : headers) (ua rf : string) :
  headers_get "Referer" (headers_update h [("User-Agent", ua); ("Referer", rf)])
  = Some rf.
Proof.
  unfold headers_update, headers_get.
  rewrite filter_app.
  assert (Hnil :
    filter (fun kv : string * string => key_eqb "Referer" (fst kv) = true)
      (filter (fun kv : string * string =>
                 headers_has (fst kv) [("User-Agent", ua); ("Referer", rf)] = false) h)
    = []).
  { induction h as [|[k v] h IH]; [reflexivity|].
    rewrite (filter_cons _ (k, v)). case_decide as Hd.
    - rewrite filter_cons. case_decide as Hk; [|exact IH].
      exfalso. simpl in Hd, Hk. unfold headers_has in Hd. simpl in Hd.
      rewrite (key_eqb_sym k "Referer") in Hd. rewrite Hk in Hd.
      rewrite orb_true_r in Hd. simpl in Hd. discriminate.
    - exact IH. }
  rewrite Hnil. reflexivity.
Qed.

Lemma rotate_identity_at rm w (i : nat) (k : string) :
  nth_error (REFERRERS w) i = Some k ->
  (forall n, entropy w n = i) ->
  exists user_agent w',
    rotate_identity rm w =
      (Returned (set_session_headers rm
                   (headers_update (session_headers rm)
                      [("User-Agent", user_agent); ("Referer", k)])), w').
Proof.
  intros Hn He.
  unfold rotate_identity, bind, get_REFERRERS, ret.
  destruct (random_choice USER_AGENTS w) as [[ua|e] w1] eqn:E1;
    [|unfold random_choice, USER_AGENTS in E1; discriminate].
  assert (HR : REFERRERS w1 = REFERRERS w /\ entropy w1 = entropy w).
  { unfold random_choice, USER_AGENTS in E1. inversion E1. split; reflexivity. }
  destruct HR as [HR HE].
  destruct (random_choice (REFERRERS w1) w1) as [r2 w2] eqn:E2.
  pose proof (random_choice_at (REFERRERS w1) i k w1) as Hc.
  rewrite E2 in Hc. cbn [fst] in Hc.
  rewrite Hc; [eauto| rewrite HR; exact Hn | rewrite HE; apply He].
Qed.

(** C10. Constructing a [KhaadiScraper] appends its nine referrers to the
    module-level list [REFERRERS], which every request manager of the
    process draws from: afterwards [rotate_identity] of any manager, also one
    owned by a Sapphire scraper, can install each of them, and a further
    construction appends the nine entries once more. *)
Theorem khaadi_referrers_are_shared (base : string) (count delay : Z) (w : world) :
  REFERRERS w <> [] ->
  exists rm w',
    Khaadi.KhaadiScraper_init base count delay w = (Returned rm, w') /\
    REFERRERS w' = REFERRERS w ++ Khaadi.khaadi_specific_referrers /\
    length Khaadi.khaadi_specific_referrers = 9%nat /\
    (forall k (other : RequestManager),
        In k Khaadi.khaadi_specific_referrers ->
        exists e other' w'',
          rotate_identity other (with_entropy e w') = (Returned other', w'') /\
          headers_get "Referer" (session_headers other') = Some k) /\
    (forall base2 count2 delay2,
        exists rm2 w2,
          Khaadi.KhaadiScraper_init base2 count2 delay2 w' = (Returned rm2, w2) /\
          REFERRERS w2 =
            REFERRERS w ++ Khaadi.khaadi_specific_referrers
                        ++ Khaadi.khaadi_specific_referrers).
Proof.
  intros Hw.
  assert (Hinit : forall b c d w0, REFERRERS w0 <> [] ->
            exists rm0 w0',
              Khaadi.KhaadiScraper_init b c d w0 = (Returned rm0, w0') /\
              REFERRERS w0' = REFERRERS w0 ++ Khaadi.khaadi_specific_referrers).
  { intros b c d w0 H0.
    unfold Khaadi.KhaadiScraper_init, RequestManager_init, bind.
    destruct (rotate_identity_returns
                {| base_url := b; retry_count := c; retry_delay := d;
                   session_headers := httpx_default_headers |} w0 H0)
      as (ua & rf & w1 & E1 & _ & _ & HR1 & _ & _).
    rewrite E1.
    unfold Khaadi._update_request_manager_referrers, extend_REFERRERS.
    match goal with
    | |- context [rotate_identity ?r ?x] =>
        destruct (rotate_identity_returns r x) as (ua2 & rf2 & w3 & E3 & _ & _ & HR3 & _ & _)
    end.
    { cbn [REFERRERS]. rewrite HR1. destruct (REFERRERS w0); [congruence|discriminate]. }
    rewrite E3. eexists _, _. split; [reflexivity|].
    rewrite HR3. cbn [REFERRERS]. rewrite HR1. reflexivity. }
  destruct (Hinit base count delay w Hw) as (rm & w' & E & HR).
  exists rm, w'. split; [exact E|]. split; [exact HR|]. split; [reflexivity|].
  split.
  - intros k other Hk.
    assert (Hin : In k (REFERRERS w')) by (rewrite HR; apply in_or_app; auto).
    apply In_nth_error in Hin. destruct Hin as [i Hi].
    destruct (rotate_identity_at other (with_entropy (fun _ => i) w') i k)
      as (ua & w'' & E2); [exact Hi | reflexivity |].
    eexists (fun _ => i), _, w''. split; [exact E2|].
    apply referer_after_update.
  - intros b2 c2 d2.
    destruct (Hinit b2 c2 d2 w') as (rm2 & w2 & E2 & HR2).
    { rewrite HR. destruct (REFERRERS w); [congruence|discriminate]. }
    exists rm2, w2. split; [exact E2|]. rewrite HR2, HR, <- app_assoc. reflexivity.
Qed.

Lemma khaadi_referrers_are_shared_witness :
  exists rm w',
    Khaadi.KhaadiScraper_init "https://pk.khaadi.com" 3 5 (fresh_world (fun n => n))
      = (Returned rm, w') /\
    length (REFERRERS w') = 19%nat.
Proof.
  destruct (khaadi_referrers_are_shared "https://pk.khaadi.com" 3 5
              (fresh_world (fun n => n))) as (rm & w' & E & HR & _).
  - discriminate.
  - exists rm, w'. split; [exact E|]. rewrite HR. reflexivity.
Defined.

End Referrers.

(** ** [make_request]: retries, backoff and the headers on the wire *)

Section Requests.
Import Py RequestUtils Scenario.

Local Open Scope string_scope.
Local Open Scope list_scope.
Local Open Scope Z_scope.

Lemma bind_inv {A B} (m : M A) (k : A -> M B) w res w' :
  bind m k w = (res, w') ->
  (exists a w1, m w = (Returned a, w1) /\ k a w1 = (res, w')) \/
  (exists e, m w = (Raised e, w') /\ res = Raised e).
Proof.
  unfold bind. destruct (m w) as [[a|e] w1]; intros H.
  - left. eauto.
  - right. inversion H. eauto.
Qed.

Lemma random_choice_frame l w :
  slept (snd (random_choice l w)) = slept w /\
  wire (snd (random_choice l w)) = wire w /\
  REFERRERS (snd (random_choice l w)) = REFERRERS w.
Proof. unfold random_choice. destruct l; auto. Qed.

Lemma rotate_identity_frame rm w res w' :
  rotate_identity rm w = (res, w') ->
  slept w' = slept w /\ wire w' = wire w /\ REFERRERS w' = REFERRERS w.
Proof.
  unfold rotate_identity, bind, get_REFERRERS, ret.
  pose proof (random_choice_frame USER_AGENTS w) as (S1 & W1 & R1).
  destruct (random_choice USER_AGENTS w) as [[ua|e] w1]; cbn [snd] in *.
  - pose proof (random_choice_frame (REFERRERS w1) w1) as (S2 & W2 & R2).
    destruct (random_choice (REFERRERS w1) w1) as [[rf|e] w2]; cbn [snd] in *;
      intros H; inversion H; subst; repeat split; congruence.
  - intros H; inversion H; subst; auto.
Qed.

Lemma time_sleep_inv d w res w' :
  time_sleep d w = (res, w') ->
  (res = Returned tt /\ 0 <= d <= SLEEP_MAX /\ slept w' = slept w ++ [d] /\
   wire w' = wire w /\ REFERRERS w' = REFERRERS w) \/
  (exists e, res = Raised e /\ ~ (0 <= d <= SLEEP_MAX) /\ w' = w).
Proof.
  unfold time_sleep.
  destruct ((d <? - SLEEP_MAX) || (SLEEP_MAX <? d)) eqn:E1.
  - intros H; inversion H; subst. right. exists OverflowError.
    apply orb_true_iff in E1. unfold SLEEP_MAX in *.
    destruct E1 as [E1|E1]; apply Z.ltb_lt in E1; repeat split; lia.
  - apply orb_false_iff in E1. destruct E1 as [_ E1]. apply Z.ltb_ge in E1.
    destruct (d <? 0) eqn:E; intros H; inversion H; subst.
    + right. exists ValueError. apply Z.ltb_lt in E. repeat split; lia.
    + left. apply Z.ltb_ge in E. cbn. auto.
Qed.

(** A sleep within the bounds of [time.sleep] returns, and is recorded. *)
Lemma time_sleep_returns d w :
  0 <= d <= SLEEP_MAX ->
  time_sleep d w
  = (Returned tt,
     {| REFERRERS := REFERRERS w; entropy := entropy w; drawn := drawn w;
        slept := slept w ++ [d]; wire := wire w |}).
Proof.
  intros H. unfold time_sleep.
  replace ((d <? - SLEEP_MAX) || (SLEEP_MAX <? d)) with false.
  - replace (d <? 0) with false by (symmetry; apply Z.ltb_ge; lia). reflexivity.
  - symmetry. apply orb_false_iff. unfold SLEEP_MAX in *.
    split; apply Z.ltb_ge; lia.
Qed.

(** What the handler of a failed attempt does to the world: it sleeps once,
    for the header's value or for the current delay, or it raises. *)
Lemma failure_sleep_inv (o : outcome) (current_delay : Z) w res w' :
  (match o with
   | Answered r => on_status_error r current_delay
   | _ => time_sleep current_delay
   end) w = (res, w') ->
  wire w' = wire w /\ REFERRERS w' = REFERRERS w /\
  ((exists d, res = Returned tt /\ slept w' = slept w ++ [d] /\
              match retry_after o with
              | Some v => int_of_str v = Some d
              | None => d = current_delay
              end) \/
   (exists e, res = Raised e /\ slept w' = slept w)).
Proof.
  intros H.
  assert (Hs : forall d, time_sleep d w = (res, w') ->
             wire w' = wire w /\ REFERRERS w' = REFERRERS w /\
             ((res = Returned tt /\ slept w' = slept w ++ [d]) \/
              (exists e, res = Raised e /\ slept w' = slept w))).
  { intros d Hd. apply time_sleep_inv in Hd.
    destruct Hd as [(-> & _ & S & W & R)|(e & -> & _ & ->)]; eauto 8. }
  destruct o as [r| | |]; cbn [retry_after];
    try (apply Hs in H; destruct H as (W & R & [[-> S]|E]); eauto 10).
  unfold on_status_error in H.
  destruct (status_code r =? 429).
  - destruct (headers_get "Retry-After" (resp_headers r)) as [v|].
    + destruct (int_of_str v) as [d|].
      * apply Hs in H. destruct H as (W & R & [[-> S]|E]); eauto 10.
      * unfold raise in H. inversion H; subst. eauto 10.
    + apply Hs in H. destruct H as (W & R & [[-> S]|E]); eauto 10.
  - apply Hs in H. destruct H as (W & R & [[-> S]|E]); eauto 10.
Qed.

(** The trace of the loop: the requests it sends and the sleeps it takes. *)
Lemma attempts_trace net url params mh timeout :
  forall todo st w res w',
    attempts net url params mh timeout todo st w = (res, w') ->
    exists sl reqs,
      slept w' = slept w ++ sl /\ wire w' = wire w ++ reqs /\
      REFERRERS w' = REFERRERS w /\
      (length sl <= length reqs)%nat /\ (length reqs <= length todo)%nat /\
      (forall j d, sl !! j = Some d ->
         exists a, todo !! j = Some a /\
           match retry_after (net a) with
           | Some v => int_of_str v = Some d
           | None => d = l_current_delay st * 2 ^ Z.of_nat j
           end) /\
      (l_success st = false ->
       forall st', res = Returned st' -> l_success st' = true ->
         (length sl + 1 = length reqs)%nat /\
         exists r, l_response st' = Some r /\ is_success r = true).
Proof.
  induction todo as [|a rest IH]; intros st w res w' H.
  - cbn in H. unfold ret in H. inversion H; subst.
    exists [], []. rewrite !app_nil_r.
    split; [reflexivity|]. split; [reflexivity|]. split; [reflexivity|].
    split; [cbn; lia|]. split; [cbn; lia|].
    split; [intros j d Hj; destruct j; discriminate|].
    intros Hf st' E Ht. inversion E; subst. congruence.
  - cbn [attempts] in H.
    apply bind_inv in H. destruct H as [(rm & w1 & Hrot & H)|(e & Hrot & ->)].
    2:{ destruct (0 <? a).
        - apply rotate_identity_frame in Hrot. destruct Hrot as (S1 & W1 & R1).
          exists [], []. rewrite !app_nil_r.
          split; [exact S1|]. split; [exact W1|]. split; [exact R1|].
          split; [cbn; lia|]. split; [cbn; lia|].
          split; [intros j d Hj; destruct j; discriminate|].
          intros _ st' E. discriminate.
        - unfold ret in Hrot. discriminate. }
    assert (F1 : slept w1 = slept w /\ wire w1 = wire w /\ REFERRERS w1 = REFERRERS w).
    { destruct (0 <? a).
      - eapply rotate_identity_frame; eauto.
      - unfold ret in Hrot. inversion Hrot; subst. auto. }
    destruct F1 as (S1 & W1 & R1).
    apply bind_inv in H. destruct H as [([] & w2 & Hsend & H)|(e & Hsend & _)];
      [|unfold send in Hsend; discriminate].
    unfold send in Hsend. inversion Hsend as [Hw2]. clear Hsend.
    set (rq := {| req_url := url; req_params := params;
                  req_headers := httpx_merge_headers (session_headers rm) mh;
                  req_timeout := timeout |}) in *.
    assert (S2 : slept w2 = slept w) by (subst w2; cbn; congruence).
    assert (W2 : wire w2 = wire w ++ [rq]) by (subst w2; cbn; congruence).
    assert (R2 : REFERRERS w2 = REFERRERS w) by (subst w2; cbn; congruence).
    clear Hw2.
    assert (Hfail :
      forall resp,
        (match net a with
         | Answered r => on_status_error r (l_current_delay st)
         | _ => time_sleep (l_current_delay st)
         end ;;; attempts net url params mh timeout rest
                   {| l_rm := rm; l_success := l_success st;
                      l_current_delay := l_current_delay st * 2;
                      l_response := resp |})%py w2 = (res, w') ->
        exists sl reqs,
          slept w' = slept w ++ sl /\ wire w' = wire w ++ reqs /\
          REFERRERS w' = REFERRERS w /\
          (length sl <= length reqs)%nat /\ (length reqs <= length (a :: rest))%nat /\
          (forall j d, sl !! j = Some d ->
             exists a0, (a :: rest) !! j = Some a0 /\
               match retry_after (net a0) with
               | Some v => int_of_str v = Some d
               | None => d = l_current_delay st * 2 ^ Z.of_nat j
               end) /\
          (l_success st = false ->
           forall st', res = Returned st' -> l_success st' = true ->
             (length sl + 1 = length reqs)%nat /\
             exists r, l_response st' = Some r /\ is_success r = true)).
    { intros resp Hb. apply bind_inv in Hb.
      destruct Hb as [([] & w3 & Hsl & Hrest)|(e & Hsl & ->)].
      - apply failure_sleep_inv in Hsl.
        destruct Hsl as (W3 & R3 & [(d & _ & S3 & Hd)|(e & E & _)]); [|discriminate].
        apply IH in Hrest.
        destruct Hrest as (sl & reqs & S4 & W4 & R4 & L1 & L2 & Hs & Hsucc).
        exists (d :: sl), (rq :: reqs).
        split; [rewrite S4, S3, S2, <- app_assoc; reflexivity|].
        split; [rewrite W4, W3, W2, <- app_assoc; reflexivity|].
        split; [congruence|].
        split; [cbn; lia|]. split; [cbn; lia|].
        split.
        + intros j d' Hj. destruct j as [|j].
          * cbn in Hj. inversion Hj; subst d'. exists a. split; [reflexivity|].
            destruct (retry_after (net a)); [exact Hd|].
            rewrite Hd. cbn. lia.
          * cbn in Hj. apply Hs in Hj. destruct Hj as (a0 & Ha0 & Hm).
            exists a0. split; [exact Ha0|].
            destruct (retry_after (net a0)); [exact Hm|].
            rewrite Hm. cbn [l_current_delay].
            rewrite Nat2Z.inj_succ, Z.pow_succ_r by lia. lia.
        + intros Hf st' E Ht. cbn [l_success] in Hsucc.
          destruct (Hsucc Hf st' E Ht) as (Hl & r & Hr & Hok).
          split; [cbn; lia|eauto].
      - apply failure_sleep_inv in Hsl.
        destruct Hsl as (W3 & R3 & [(d & E & _)|(e' & _ & S3)]); [discriminate|].
        exists [], [rq]. rewrite app_nil_r.
        split; [congruence|]. split; [congruence|]. split; [congruence|].
        split; [cbn; lia|]. split; [cbn; lia|].
        split; [intros j d Hj; destruct j; discriminate|].
        intros _ st' E. discriminate. }
    destruct (net a) as [r| | |] eqn:En; try (apply (Hfail _ H)).
    destruct (is_success r) eqn:Eok.
    + unfold ret in H. inversion H; subst.
      exists [], [rq]. rewrite app_nil_r.
      split; [congruence|]. split; [congruence|]. split; [congruence|].
      split; [cbn; lia|]. split; [cbn; lia|].
      split; [intros j d Hj; destruct j; discriminate|].
      intros _ st' E _. inversion E; subst. cbn. split; [reflexivity|eauto].
    + apply (Hfail _ H).
Qed.

Lemma range_lookup n j a : range n !! j = Some a -> a = Z.of_nat j.
Proof.
  unfold range. rewrite list_lookup_fmap.
  destruct (seq 0 (Z.to_nat n) !! j) as [x|] eqn:E; [|discriminate].
  apply lookup_seq in E. destruct E as [-> _]. cbn. intros H. inversion H. lia.
Qed.

Lemma range_length n : Z.of_nat (length (range n)) = Z.max 0 n.
Proof. unfold range. rewrite length_map, length_seq. lia. Qed.

(** C2, as amended. In every call the sleep taken after the k-th failed
    attempt is [retry_delay * 2^(k-1)], unless that attempt was answered 429
    with a [Retry-After] header: then the header's integer value is slept.
    A 2xx answer ends the call with no sleep after it, and at most
    [retry_count + 1] requests are sent. *)
Theorem backoff_schedule net rm url params extra timeout w :
  exists sl reqs,
    slept (snd (make_request net rm url params extra timeout w)) = slept w ++ sl /\
    wire (snd (make_request net rm url params extra timeout w)) = wire w ++ reqs /\
    Z.of_nat (length reqs) <= Z.max 0 (retry_count rm + 1) /\
    (length sl <= length reqs)%nat /\
    (forall k d, (1 <= k)%nat -> sl !! (k - 1)%nat = Some d ->
       match retry_after (net (Z.of_nat k - 1)) with
       | Some v => int_of_str v = Some d
       | None => d = retry_delay rm * 2 ^ (Z.of_nat k - 1)
       end) /\
    (forall r rm',
       fst (make_request net rm url params extra timeout w) = Returned (r, true, rm') ->
       (length sl + 1 = length reqs)%nat /\ is_success r = true).
Proof.
  unfold make_request.
  destruct (attempts net url params (merged_headers_of rm extra) timeout
              (range (retry_count rm + 1))
              {| l_rm := rm; l_success := false;
                 l_current_delay := retry_delay rm; l_response := None |} w)
    as [res w1] eqn:E.
  destruct (attempts_trace _ _ _ _ _ _ _ _ _ _ E)
    as (sl & reqs & S & W & _ & L1 & L2 & Hs & Hsucc).
  assert (Hw : snd (bind (attempts net url params (merged_headers_of rm extra)
                      timeout (range (retry_count rm + 1))
                      {| l_rm := rm; l_success := false;
                         l_current_delay := retry_delay rm; l_response := None |})
                   (fun st => match l_response st with
                              | Some r => ret (r, l_success st, l_rm st)
                              | None => ret (fake_response, l_success st, l_rm st)
                              end) w) = w1).
  { unfold bind. rewrite E. destruct res as [st|e]; [|reflexivity].
    destruct (l_response st); reflexivity. }
  rewrite Hw. exists sl, reqs.
  split; [exact S|]. split; [exact W|].
  split; [rewrite <- range_length; lia|]. split; [exact L1|].
  split.
  - intros k d Hk Hd. apply Hs in Hd. destruct Hd as (a & Ha & Hm).
    apply range_lookup in Ha. subst a. cbn [l_current_delay] in Hm.
    replace (Z.of_nat k - 1) with (Z.of_nat (k - 1)) by lia. exact Hm.
  - intros r rm' Hr. unfold bind in Hr. rewrite E in Hr.
    destruct res as [st|e]; [|discriminate].
    destruct (Hsucc eq_refl st eq_refl) as (Hl & r0 & Hr0 & Hok).
    + destruct (l_response st); unfold ret in Hr; cbn in Hr; congruence.
    + split; [exact Hl|]. rewrite Hr0 in Hr. unfold ret in Hr. cbn in Hr.
      congruence.
Qed.

(** C2 as stated fails: a 429 answer with [Retry-After: 7] makes the first
    sleep last 7 seconds when [retry_delay] is 5. *)
Lemma fixed_backoff_fails_with_retry_after :
  ~ (forall net rm url params extra timeout e k d,
       (1 <= k)%nat ->
       slept (snd (make_request net rm url params extra timeout (fresh_world e)))
         !! (k - 1)%nat = Some d ->
       d = retry_delay rm * 2 ^ (Z.of_nat k - 1)).
Proof.
  intros H.
  specialize (H rate_limiting (manager 3 5) "https://pk.sapphireonline.pk/search"
                [] None 30 (fun n => n) 1%nat 7 (le_n 1)).
  assert (E : 7 = retry_delay (manager 3 5) * 2 ^ (Z.of_nat 1 - 1))
    by (apply H; vm_compute; reflexivity).
  vm_compute in E. discriminate.
Qed.

(** C1, where the code breaks it. When the first answer is a 429 whose
    [Retry-After] value is not an integer (the date form of the header),
    [int()] raises inside the handler and [make_request] raises
    [ValueError] instead of returning a pair. *)
Theorem make_request_raises_on_unreadable_retry_after
  net rm url params extra timeout w r v :
  0 <= retry_count rm ->
  net 0 = Answered r ->
  status_code r = 429 ->
  headers_get "Retry-After" (resp_headers r) = Some v ->
  int_of_str v = None ->
  fst (make_request net rm url params extra timeout w) = Raised ValueError.
Proof.
  intros Hc Hn Hs Hh Hi.
  unfold make_request.
  assert (Hr : range (retry_count rm + 1) = 0 :: map Z.of_nat (seq 1 (Z.to_nat (retry_count rm)))).
  { unfold range. replace (Z.to_nat (retry_count rm + 1)) with (S (Z.to_nat (retry_count rm))) by lia.
    reflexivity. }
  rewrite Hr. cbn [attempts].
  replace (0 <? 0) with false by reflexivity.
  rewrite Hn.
  assert (Hok : is_success r = false).
  { unfold is_success. rewrite Hs. reflexivity. }
  rewrite Hok.
  unfold on_status_error. rewrite Hs, Hh, Hi.
  reflexivity.
Qed.

Lemma make_request_raises_on_unreadable_retry_after_witness :
  fst (make_request rate_limiting_until_date (manager 3 5)
         "https://pk.sapphireonline.pk/search" [] None 30 (fresh_world (fun n => n)))
  = Raised ValueError.
Proof.
  apply (make_request_raises_on_unreadable_retry_after rate_limiting_until_date
           (manager 3 5) _ _ _ _ _
           {| status_code := 429;
              resp_headers := [("Retry-After", "Wed, 21 Oct 2015 07:28:00 GMT")];
              content := "" |}
           "Wed, 21 Oct 2015 07:28:00 GMT").
  - cbn. lia.
  - reflexivity.
  - reflexivity.
  - vm_compute. reflexivity.
  - vm_compute. reflexivity.
Defined.

(** *** The headers on the wire *)

Lemma headers_has_dict_set k k' v (d : pydict) :
  headers_has k d = true -> headers_has k (dict_set k' v d) = true.
Proof.
  induction d as [|[k1 v1] d IH]; [discriminate|].
  cbn [dict_set]. destruct (String.eqb k' k1) eqn:E.
  - apply String.eqb_eq in E. subst k1. unfold headers_has. cbn. auto.
  - unfold headers_has in *. cbn in *. intros H.
    apply orb_true_iff in H. destruct H as [H|H]; [rewrite H; reflexivity|].
    rewrite (IH H). apply orb_true_r.
Qed.

Lemma headers_has_dict_update k (e d : pydict) :
  headers_has k d = true -> headers_has k (dict_update d e) = true.
Proof.
  unfold dict_update. revert d.
  induction e as [|[k1 v1] e IH]; intros d H; [exact H|].
  cbn [fold_left]. apply IH. apply headers_has_dict_set. exact H.
Qed.

(** The snapshot taken before the loop has every key of a session that
    presents an identity. *)
Lemma merged_headers_cover rm extra k :
  has_identity rm ->
  In k ["Accept"; "Accept-Encoding"; "Connection"; "User-Agent"; "Referer"] ->
  headers_has k (merged_headers_of rm extra) = true.
Proof.
  intros (ua & rf & Hh) Hk. unfold merged_headers_of. rewrite Hh.
  assert (H0 : headers_has k (dict_of_headers (identity_headers ua rf)) = true).
  { cbn in Hk. destruct Hk as [<-|[<-|[<-|[<-|[<-|[]]]]]]; reflexivity. }
  destruct extra as [[|kv h]|]; try exact H0.
  apply headers_has_dict_update. exact H0.
Qed.

(** Request headers win over the client's: once the snapshot is passed as
    request headers, whatever identity the session holds is dropped. *)
Lemma snapshot_overrides_session rm extra ua rf :
  has_identity rm ->
  httpx_merge_headers (identity_headers ua rf) (merged_headers_of rm extra)
  = merged_headers_of rm extra.
Proof.
  intros Hid. unfold httpx_merge_headers, headers_update, identity_headers.
  repeat (rewrite filter_cons; cbn [fst];
          rewrite merged_headers_cover by (auto; cbn; auto 10);
          rewrite decide_False by discriminate).
  rewrite filter_nil. reflexivity.
Qed.

Lemma rotate_identity_keeps_identity rm w rm' w' :
  has_identity rm ->
  rotate_identity rm w = (Returned rm', w') ->
  has_identity rm'.
Proof.
  intros (ua & rf & Hh) H.
  unfold rotate_identity, bind, get_REFERRERS, ret in H.
  destruct (random_choice USER_AGENTS w) as [[ua'|e] w1]; [|discriminate].
  destruct (random_choice (REFERRERS w1) w1) as [[rf'|e] w2]; [|discriminate].
  inversion H; subst. exists ua', rf'. cbn. rewrite Hh. reflexivity.
Qed.

Lemma attempts_send_the_snapshot net url params timeout rm0 extra :
  has_identity rm0 ->
  forall todo st w res w',
    has_identity (l_rm st) ->
    attempts net url params (merged_headers_of rm0 extra) timeout todo st w
      = (res, w') ->
    exists reqs,
      wire w' = wire w ++ reqs /\
      Forall (fun rq => req_headers rq = merged_headers_of rm0 extra) reqs.
Proof.
  intros Hid0.
  induction todo as [|a rest IH]; intros st w res w' Hid H.
  - cbn in H. unfold ret in H. inversion H; subst.
    exists []. rewrite app_nil_r. auto.
  - cbn [attempts] in H.
    apply bind_inv in H. destruct H as [(rm & w1 & Hrot & H)|(e & Hrot & ->)].
    2:{ destruct (0 <? a).
        - apply rotate_identity_frame in Hrot. destruct Hrot as (_ & W1 & _).
          exists []. rewrite app_nil_r. auto.
        - unfold ret in Hrot. discriminate. }
    assert (F1 : wire w1 = wire w /\ has_identity rm).
    { destruct (0 <? a).
      - split; [eapply rotate_identity_frame; eauto|].
        eapply rotate_identity_keeps_identity; eauto.
      - unfold ret in Hrot. inversion Hrot; subst. auto. }
    destruct F1 as (W1 & Hid1).
    apply bind_inv in H. destruct H as [([] & w2 & Hsend & H)|(e & Hsend & _)];
      [|unfold send in Hsend; discriminate].
    unfold send in Hsend. inversion Hsend as [Hw2]. clear Hsend.
    destruct Hid1 as (ua & rf & Hh). rewrite Hh in Hw2.
    rewrite (snapshot_overrides_session rm0 extra ua rf Hid0) in Hw2.
    set (rq := {| req_url := url; req_params := params;
                  req_headers := merged_headers_of rm0 extra;
                  req_timeout := timeout |}) in *.
    assert (W2 : wire w2 = wire w ++ [rq]) by (subst w2; cbn; congruence).
    clear Hw2.
    assert (Hfail :
      forall resp,
        (match net a with
         | Answered r => on_status_error r (l_current_delay st)
         | _ => time_sleep (l_current_delay st)
         end ;;; attempts net url params (merged_headers_of rm0 extra) timeout rest
                   {| l_rm := rm; l_success := l_success st;
                      l_current_delay := l_current_delay st * 2;
                      l_response := resp |})%py w2 = (res, w') ->
        exists reqs,
          wire w' = wire w ++ reqs /\
          Forall (fun rq => req_headers rq = merged_headers_of rm0 extra) reqs).
    { intros resp Hb. apply bind_inv in Hb.
      destruct Hb as [([] & w3 & Hsl & Hrest)|(e & Hsl & ->)].
      - apply failure_sleep_inv in Hsl. destruct Hsl as (W3 & _ & _).
        apply IH in Hrest; [|cbn; exists ua, rf; exact Hh].
        destruct Hrest as (reqs & W4 & HF).
        exists (rq :: reqs). split; [rewrite W4, W3, W2, <- app_assoc; reflexivity|].
        constructor; [reflexivity|exact HF].
      - apply failure_sleep_inv in Hsl. destruct Hsl as (W3 & _ & _).
        exists [rq]. split; [congruence|]. constructor; [reflexivity|constructor]. }
    destruct (net a) as [r| | |] eqn:En; try (apply (Hfail _ H)).
    destruct (is_success r) eqn:Eok.
    + unfold ret in H. inversion H; subst.
      exists [rq]. split; [congruence|]. constructor; [reflexivity|constructor].
    + apply (Hfail _ H).
Qed.

(** C3, where the code breaks it. [merged_headers] is a snapshot of the
    session's headers taken before the loop and it is passed as the headers
    of every request, where it wins over the session's own headers: all the
    attempts of one call, the retries included, go out with exactly the
    headers of attempt 0, whatever [rotate_identity] has drawn meanwhile. *)
Theorem retries_resend_the_first_identity net rm url params extra timeout w :
  has_identity rm ->
  exists reqs,
    wire (snd (make_request net rm url params extra timeout w)) = wire w ++ reqs /\
    Forall (fun rq => req_headers rq = merged_headers_of rm extra) reqs.
Proof.
  intros Hid. unfold make_request.
  destruct (attempts net url params (merged_headers_of rm extra) timeout
              (range (retry_count rm + 1))
              {| l_rm := rm; l_success := false;
                 l_current_delay := retry_delay rm; l_response := None |} w)
    as [res w1] eqn:E.
  destruct (attempts_send_the_snapshot net url params timeout rm extra Hid
              _ {| l_rm := rm; l_success := false;
                   l_current_delay := retry_delay rm; l_response := None |}
              _ _ _ Hid E) as (reqs & W & HF).
  exists reqs. split; [|exact HF].
  unfold bind. rewrite E. destruct res as [st|e]; [|exact W].
  destruct (l_response st); exact W.
Qed.

(** One retry after a connection error: the rotation has given the session
    another user agent, and both requests carried the old one. *)
Lemma retries_resend_the_first_identity_witness :
  has_identity (manager 3 5) /\
  (exists reqs,
     wire (snd (make_request flaky (manager 3 5) "https://pk.sapphireonline.pk/search"
                  [] None 30 (fresh_world (fun n => S n)))) = reqs /\
     length reqs = 2%nat /\
     Forall (fun rq => headers_get "User-Agent" (req_headers rq)
                       = headers_get "User-Agent" (session_headers (manager 3 5))) reqs) /\
  (exists r rm',
     fst (make_request flaky (manager 3 5) "https://pk.sapphireonline.pk/search"
            [] None 30 (fresh_world (fun n => S n))) = Returned (r, true, rm') /\
     headers_get "User-Agent" (session_headers rm')
     <> headers_get "User-Agent" (session_headers (manager 3 5))).
Proof.
  assert (Hid : has_identity (manager 3 5)) by (eexists _, _; reflexivity).
  split; [exact Hid|]. split.
  - destruct (retries_resend_the_first_identity flaky (manager 3 5)
                "https://pk.sapphireonline.pk/search" [] None 30
                (fresh_world (fun n => S n)) Hid) as (reqs & W & HF).
    exists reqs. cbn [fresh_world wire app] in W. split; [exact W|].
    split.
    + rewrite <- W. vm_compute. reflexivity.
    + eapply Forall_impl; [exact HF|]. intros rq Hrq. cbn beta in Hrq. rewrite Hrq.
      vm_compute. reflexivity.
  - eexists _, _. split; [vm_compute; reflexivity|]. vm_compute. discriminate.
Defined.

(** *** What of C1 does hold *)

Lemma in_range a n : In a (range n) <-> 0 <= a < n.
Proof.
  unfold range. rewrite in_map_iff. split.
  - intros (x & <- & Hx). apply in_seq in Hx. lia.
  - intros H. exists (Z.to_nat a). split; [lia|]. apply in_seq. lia.
Qed.

Lemma attempts_return net url params mh timeout :
  forall todo st w,
    REFERRERS w <> [] ->
    0 <= l_current_delay st ->
    (forall j, (j < length todo)%nat ->
       l_current_delay st * 2 ^ Z.of_nat j <= SLEEP_MAX) ->
    (forall a v, In a todo -> retry_after (net a) = Some v ->
       exists d, int_of_str v = Some d /\ 0 <= d <= SLEEP_MAX) ->
    exists st' w',
      attempts net url params mh timeout todo st w = (Returned st', w') /\
      (l_success st' = true <->
         l_success st = true \/
         exists a r, In a todo /\ net a = Answered r /\ is_success r = true) /\
      (l_response st = None ->
       (forall a r, In a todo -> net a <> Answered r) ->
       l_response st' = None).
Proof.
  induction todo as [|a rest IH]; intros st w HR Hd Hmax Hra.
  - exists st, w. split; [reflexivity|]. split; [|auto].
    split; [auto|]. intros [H|(a & r & Hin & _)]; [exact H|destruct Hin].
  - cbn [attempts].
    assert (Hd1 : 0 <= l_current_delay st <= SLEEP_MAX).
    { split; [exact Hd|]. specialize (Hmax 0%nat). cbn [length] in Hmax.
      rewrite Z.pow_0_r, Z.mul_1_r in Hmax. apply Hmax. lia. }
    assert (Hrot : exists rm w1,
               (if 0 <? a then rotate_identity (l_rm st) else ret (l_rm st)) w
               = (Returned rm, w1) /\ REFERRERS w1 = REFERRERS w).
    { destruct (0 <? a).
      - destruct (rotate_identity_returns (l_rm st) w HR)
          as (ua & rf & w1 & E & _ & _ & R & _). eauto.
      - unfold ret. eauto. }
    destruct Hrot as (rm & w1 & Erot & R1).
    unfold bind at 1. rewrite Erot. unfold bind at 1. unfold send at 1.
    set (w2 := {| REFERRERS := REFERRERS w1; entropy := entropy w1;
                  drawn := drawn w1; slept := slept w1;
                  wire := wire w1 ++ _ |}).
    assert (R2 : REFERRERS w2 <> []) by (subst w2; cbn; congruence).
    assert (Hfail :
      forall resp,
        (forall r, net a = Answered r -> is_success r = false /\ resp = Some r) ->
        ((exists r, net a = Answered r) \/ resp = l_response st) ->
        exists st' w',
          (match net a with
           | Answered r => on_status_error r (l_current_delay st)
           | _ => time_sleep (l_current_delay st)
           end ;;; attempts net url params mh timeout rest
                     {| l_rm := rm; l_success := l_success st;
                        l_current_delay := l_current_delay st * 2;
                        l_response := resp |})%py w2 = (Returned st', w') /\
          (l_success st' = true <->
             l_success st = true \/
             exists a0 r, In a0 (a :: rest) /\ net a0 = Answered r /\ is_success r = true) /\
          (l_response st = None ->
           (forall a0 r, In a0 (a :: rest) -> net a0 <> Answered r) ->
           l_response st' = None)).
    { intros resp Hresp Hkeep.
      assert (Hsl : exists w3,
                 (match net a with
                  | Answered r => on_status_error r (l_current_delay st)
                  | _ => time_sleep (l_current_delay st)
                  end) w2 = (Returned tt, w3) /\ REFERRERS w3 = REFERRERS w2).
      { assert (Hts : forall d, 0 <= d <= SLEEP_MAX ->
                  exists w3, time_sleep d w2 = (Returned tt, w3) /\
                             REFERRERS w3 = REFERRERS w2).
        { intros d H0. rewrite (time_sleep_returns d w2 H0). eauto. }
        specialize (Hra a).
        destruct (net a) as [r| | |]; try (apply Hts; exact Hd1).
        unfold on_status_error. cbn [retry_after] in Hra.
        destruct (status_code r =? 429); [|apply Hts; exact Hd1].
        destruct (headers_get "Retry-After" (resp_headers r)) as [v|];
          [|apply Hts; exact Hd1].
        destruct (Hra v (or_introl eq_refl) eq_refl) as (d & -> & H0).
        apply Hts; exact H0. }
      destruct Hsl as (w3 & Esl & R3).
      unfold bind at 1. rewrite Esl.
      destruct (IH {| l_rm := rm; l_success := l_success st;
                      l_current_delay := l_current_delay st * 2;
                      l_response := resp |} w3)
        as (st' & w' & E & Hiff & Hnone).
      { congruence. }
      { cbn. lia. }
      { intros j Hj. cbn [l_current_delay].
        specialize (Hmax (S j)). cbn [length] in Hmax.
        rewrite Nat2Z.inj_succ, Z.pow_succ_r in Hmax by lia.
        rewrite <- Z.mul_assoc. apply Hmax. lia. }
      { intros a0 v Hin. apply Hra. right. exact Hin. }
      exists st', w'. split; [exact E|]. cbn [l_success l_response] in *.
      split.
      - rewrite Hiff. split.
        + intros [H|(a0 & r & Hin & Hn & Hok)]; [auto|].
          right. exists a0, r. split; [right; exact Hin|auto].
        + intros [H|(a0 & r & [<-|Hin] & Hn & Hok)]; [auto| |eauto 6].
          destruct (Hresp r Hn) as [Hf _]. congruence.
      - intros Hn0 Hna. apply Hnone.
        + destruct Hkeep as [(r & Hn)| ->]; [|exact Hn0].
          exfalso. exact (Hna a r (or_introl eq_refl) Hn).
        + intros a0 r Hin. apply Hna. right. exact Hin. }
    destruct (net a) as [r| | |] eqn:En.
    + destruct (is_success r) eqn:Eok.
      * eexists _, _. split; [reflexivity|]. cbn [l_success l_response].
        split.
        -- split; [intros _|reflexivity]. right. exists a, r. auto using in_eq.
        -- intros _ Hna. exfalso. exact (Hna a r (or_introl eq_refl) En).
      * apply Hfail; [|eauto]. intros r0 Hr0. inversion Hr0; subst. auto.
    + apply Hfail; [discriminate|auto].
    + apply Hfail; [discriminate|auto].
    + apply Hfail; [discriminate|auto].
Qed.

Lemma backoff_within (delay count : Z) (n j : nat) :
  0 <= delay -> delay * 2 ^ count <= SLEEP_MAX ->
  Z.of_nat n <= Z.max 0 (count + 1) -> (j < n)%nat ->
  delay * 2 ^ Z.of_nat j <= SLEEP_MAX.
Proof.
  intros Hd Hmax Hn Hj.
  apply Z.le_trans with (delay * 2 ^ count); [|exact Hmax].
  apply Z.mul_le_mono_nonneg_l; [exact Hd|].
  apply Z.pow_le_mono_r; lia.
Qed.

(** The part of C1 that the code keeps: when every [Retry-After] that a 429
    carries reads as a number of seconds that [time.sleep] takes, and the
    longest backoff delay is one too, [make_request] returns a pair;
    [success] is true exactly when some attempt was answered 2xx, and the
    response has status 0 when no attempt was answered at all. *)
Lemma make_request_absorbs_failures net rm url params extra timeout w :
  REFERRERS w <> [] ->
  0 <= retry_delay rm ->
  retry_delay rm * 2 ^ retry_count rm <= SLEEP_MAX ->
  (forall a v, 0 <= a <= retry_count rm -> retry_after (net a) = Some v ->
     exists d, int_of_str v = Some d /\ 0 <= d <= SLEEP_MAX) ->
  exists r b rm' w',
    make_request net rm url params extra timeout w = (Returned (r, b, rm'), w') /\
    (b = true <->
       exists a r', 0 <= a <= retry_count rm /\ net a = Answered r' /\
                    is_success r' = true) /\
    ((forall a r', 0 <= a <= retry_count rm -> net a <> Answered r') ->
     status_code r = 0).
Proof.
  intros HR Hd Hmax Hra. unfold make_request.
  destruct (attempts_return net url params (merged_headers_of rm extra) timeout
              (range (retry_count rm + 1))
              {| l_rm := rm; l_success := false;
                 l_current_delay := retry_delay rm; l_response := None |} w HR Hd)
    as (st' & w' & E & Hiff & Hnone).
  { intros j Hj. cbn [l_current_delay].
    apply (backoff_within _ (retry_count rm) (length (range (retry_count rm + 1))) j);
      [exact Hd|exact Hmax|rewrite range_length; lia|exact Hj]. }
  { intros a v Hin. apply Hra. apply in_range in Hin. lia. }
  unfold bind. rewrite E. cbn [l_success l_response] in *.
  assert (Hb : l_success st' = true <->
               exists a r', 0 <= a <= retry_count rm /\ net a = Answered r' /\
                            is_success r' = true).
  { rewrite Hiff. split.
    - intros [H|(a & r & Hin & Hn & Hok)]; [discriminate|].
      exists a, r. apply in_range in Hin. split; [lia|auto].
    - intros (a & r & Ha & Hn & Hok). right. exists a, r.
      split; [apply in_range; lia|auto]. }
  assert (Hz : (forall a r', 0 <= a <= retry_count rm -> net a <> Answered r') ->
               l_response st' = None).
  { intros Hna. apply Hnone; [reflexivity|].
    intros a r' Hin. apply Hna. apply in_range in Hin. lia. }
  destruct (l_response st') as [r|] eqn:Er.
  - exists r, (l_success st'), (l_rm st'), w'. split; [reflexivity|].
    split; [exact Hb|]. intros Hna. specialize (Hz Hna). discriminate.
  - exists fake_response, (l_success st'), (l_rm st'), w'. split; [reflexivity|].
    split; [exact Hb|]. reflexivity.
Qed.

End Requests.

(** ** The category loop *)

Section Pagination.
Import Py Paginator.

Local Open Scope list_scope.
Local Open Scope Z_scope.

Context {product : Type}.

Implicit Types (s : site product) (st : cstate product) (acc ps : list product).

Lemma slice_to_firstn {A} (n : Z) (l : list A) :
  0 <= n -> slice_to n l = firstn (Z.to_nat n) l.
Proof.
  intros Hn. unfold slice_to, slice, clamp_index.
  replace (0 <? 0) with false by reflexivity.
  replace (n <? 0) with false by (symmetry; apply Z.ltb_ge; exact Hn).
  cbn [Z.to_nat]. rewrite Nat.min_0_r, Nat.sub_0_r. cbn [skipn].
  destruct (Nat.le_ge_cases (length l) (Z.to_nat n)) as [H|H].
  - rewrite Nat.min_l by exact H. rewrite !firstn_all2; auto.
  - rewrite Nat.min_r by exact H. reflexivity.
Qed.

Lemma len_slice_to (n : Z) (l : list product) :
  0 <= n -> len (slice_to n l) <= n.
Proof.
  intros Hn. rewrite slice_to_firstn by exact Hn. unfold len.
  rewrite length_firstn. lia.
Qed.




(** One turn, case by case, when the limit check lets it through. *)
Lemma iteration_cases page_size product_limit category_id s st :
  ~ limit_reached product_limit st ->
  let acc := category_products st in
  let log := issued st ++ [request_at page_size category_id st] in
  match s (length (issued st)) (fst (request_at page_size category_id st)) with
  | RequestFailed | Unexpected | Page true _ =>
      iteration page_size product_limit category_id s st = Done acc log
  | Page false ps =>
      if bool_decide (ps = [])
      then iteration page_size product_limit category_id s st = Done acc log
      else if bool_decide (0 < product_limit /\ product_limit - len acc < len ps)
           then iteration page_size product_limit category_id s st
                = Done (acc ++ slice_to (product_limit - len acc) ps) log
           else if bool_decide (len ps < page_size)
                then iteration page_size product_limit category_id s st
                     = Done (acc ++ ps) log
                else iteration page_size product_limit category_id s st
                     = Next {| category_products := acc ++ ps;
                               c_start := c_start st + page_size;
                               c_page := c_page st + 1;
                               issued := log |}
  end.
Proof.
  intros Hl acc log. unfold iteration, request_at. cbn [fst].
  assert (Htop : (0 <? product_limit) && (product_limit <=? len (category_products st)) = false).
  { apply not_true_is_false. intros H. apply andb_true_iff in H. destruct H as [H1 H2].
    apply Hl. split; [apply Z.ltb_lt|apply Z.leb_le]; assumption. }
  rewrite Htop.
  destruct (s (length (issued st)) _) as [| |[|] ps]; try reflexivity.
  destruct ps as [|p ps]; [reflexivity|].
  rewrite bool_decide_eq_false_2 by discriminate.
  fold acc.
  destruct (bool_decide (0 < product_limit /\ product_limit - len acc < len (p :: ps))) eqn:E1.
  - apply bool_decide_eq_true in E1. destruct E1 as [H1 H2].
    replace (0 <? product_limit) with true by (symmetry; apply Z.ltb_lt; exact H1).
    replace (product_limit - len acc <? len (p :: ps)) with true
      by (symmetry; apply Z.ltb_lt; exact H2).
    reflexivity.
  - apply bool_decide_eq_false in E1.
    assert (H3 : (0 <? product_limit) && (product_limit - len acc <? len (p :: ps)) = false).
    { apply not_true_is_false. intros H. apply andb_true_iff in H. destruct H as [H1 H2].
      apply E1. split; [apply Z.ltb_lt|apply Z.ltb_lt]; assumption. }
    rewrite H3.
    destruct (bool_decide (len (p :: ps) < page_size)) eqn:E2.
    + apply bool_decide_eq_true in E2.
      replace (len (p :: ps) <? page_size) with true by (symmetry; apply Z.ltb_lt; exact E2).
      reflexivity.
    + apply bool_decide_eq_false in E2.
      replace (len (p :: ps) <? page_size) with false by (symmetry; apply Z.ltb_ge; lia).
      reflexivity.
Qed.



(** *** The product limit *)


Lemma sequential_within_limit fuel (cfg : config) (sites : nat -> site product) :
  0 < product_limit cfg ->
  forall cats i all_products l,
    len all_products <= product_limit cfg ->
    sequential fuel cfg sites i cats all_products = Some l ->
    len l <= product_limit cfg.
Proof.
  intros Hq. induction cats as [|[cname cid] cats IH]; intros i all l Hall H.
  - cbn in H. inversion H; subst. exact Hall.
  - cbn [sequential] in H.
    destruct (_scrape_category fuel (page_size cfg) cid (sites i) (product_limit cfg))
      as [cp|]; [|discriminate].
    destruct ((0 <? product_limit cfg) && (product_limit cfg <=? len (all ++ cp))) eqn:E.
    + inversion H; subst. apply len_slice_to. lia.
    + apply IH in H; [exact H|].
      apply andb_false_iff in E. destruct E as [E|E].
      * apply Z.ltb_ge in E. lia.
      * apply Z.leb_gt in E. lia.
Qed.




(** *** What a task and the merge return *)

Lemma firstn_plus {A} (a b : nat) (l : list A) :
  firstn (a + b) l = firstn a l ++ firstn b (skipn a l).
Proof.
  revert l. induction a as [|a IH]; intros l; [reflexivity|].
  destruct l as [|x l]; [cbn; rewrite firstn_nil; reflexivity|].
  cbn. rewrite IH. reflexivity.
Qed.

Lemma slice_window {A} (a n : Z) (l : list A) :
  0 <= a -> 0 <= n ->
  slice a (a + n) l = firstn (Z.to_nat n) (skipn (Z.to_nat a) l).
Proof.
  intros Ha Hn. unfold slice, clamp_index.
  replace (a <? 0) with false by (symmetry; apply Z.ltb_ge; lia).
  replace (a + n <? 0) with false by (symmetry; apply Z.ltb_ge; lia).
  destruct (Nat.le_ge_cases (length l) (Z.to_nat a)) as [H|H].
  - rewrite (Nat.min_l _ _ H). rewrite !skipn_all2 by lia.
    rewrite !firstn_nil. reflexivity.
  - rewrite (Nat.min_r _ _ H).
    destruct (Nat.le_ge_cases (length l) (Z.to_nat (a + n))) as [H2|H2].
    + rewrite (Nat.min_l _ _ H2).
      rewrite !firstn_all2; [reflexivity| |]; rewrite length_skipn; lia.
    + rewrite (Nat.min_r _ _ H2). f_equal. lia.
Qed.



Lemma submit_nth fuel (cfg : config) (sites : nat -> site product) (share : Z) :
  forall cats i0 j cat,
    nth_error cats j = Some cat ->
    nth_error (submit fuel cfg sites share i0 cats) j
    = Some (_scrape_category fuel (page_size cfg) (snd cat) (sites (i0 + j)%nat) share).
Proof.
  induction cats as [|[name cid] cats IH]; intros i0 j cat Hj.
  - destruct j; discriminate.
  - destruct j as [|j]; cbn [submit nth_error] in *.
    + inversion Hj; subst. rewrite Nat.add_0_r. reflexivity.
    + rewrite (IH (S i0) j cat Hj).
      replace (S i0 + j)%nat with (i0 + S j)%nat by lia. reflexivity.
Qed.

Lemma collect_flat_map (futures : list (option (list product)))
  (res : nat -> list product) :
  forall completion all_products,
    (forall i, In i completion -> nth_error futures i = Some (Some (res i))) ->
    collect futures completion all_products
    = Some (all_products ++ flat_map res completion).
Proof.
  induction completion as [|i rest IH]; intros all_products H.
  - cbn. rewrite app_nil_r. reflexivity.
  - cbn [collect flat_map]. rewrite (H i (or_introl eq_refl)).
    rewrite IH by (intros j Hj; apply H; right; exact Hj).
    rewrite <- app_assoc. reflexivity.
Qed.

(** With two categories or more and a pool that has workers, [scrape] cuts
    the concatenation of the tasks' lists, taken in the order in which the
    tasks complete. *)
Lemma scrape_merges (fuel : nat) (cfg : config) (sites : nat -> site product)
  (completion : list nat) (res : nat -> list product) :
  2 <= Z.of_nat (length (categories cfg)) ->
  0 < max_workers cfg ->
  (forall i, In i completion -> (i < length (categories cfg))%nat) ->
  (forall i cat, nth_error (categories cfg) i = Some cat ->
     _scrape_category fuel (page_size cfg) (snd cat) (sites i)
       (if 0 <? product_limit cfg
        then product_limit cfg / Z.of_nat (length (categories cfg)) else 0)
     = Some (res i)) ->
  scrape fuel cfg sites completion
  = Some (Returned
            (if (0 <? product_limit cfg)
                && (product_limit cfg <? len (flat_map res completion))
             then slice_to (product_limit cfg) (flat_map res completion)
             else flat_map res completion)).
Proof.
  intros Hn Hw Hc Hres. unfold scrape.
  replace (Z.of_nat (length (categories cfg)) <=? 1) with false
    by (symmetry; apply Z.leb_gt; lia).
  replace (Z.min (max_workers cfg) (Z.of_nat (length (categories cfg))) <=? 0)
    with false by (symmetry; apply Z.leb_gt; lia).
  rewrite (collect_flat_map _ res).
  - cbn [app]. destruct ((0 <? product_limit cfg) && _); reflexivity.
  - intros i Hi. specialize (Hc i Hi).
    destruct (nth_error (categories cfg) i) as [cat|] eqn:E.
    + rewrite (submit_nth _ _ _ _ _ 0%nat i cat E). cbn [Nat.add].
      rewrite (Hres i cat E). reflexivity.
    + apply nth_error_None in E. lia.
Qed.




(** *** Three categories and a limit of ten *)



End Pagination.

Section PaginationExamples.
Import Py Paginator Scenario Cases.

Local Open Scope list_scope.
Local Open Scope Z_scope.



(** Two pages of twelve and a third of five: three requests, 29 records. *)
Example three_pages_29_records :
  run 10 12 0 "women" (catalogue (seq 0 29)) initial
  = (Some (seq 0 29),
     [({| cgid := "women"; start := 0; sz := 12 |}, 1);
      ({| cgid := "women"; start := 12; sz := 12 |}, 2);
      ({| cgid := "women"; start := 24; sz := 12 |}, 3)]).
Proof. vm_compute. reflexivity. Qed.





End PaginationExamples.

(** ** Product names *)

Section Names.
Import Py.

Local Open Scope string_scope.
Local Open Scope list_scope.
Local Open Scope Z_scope.

Lemma word_last (init : list string) (w : string) :
  Sapphire.word (-1) (init ++ [w]) = w.
Proof.
  unfold Sapphire.word, index. cbn [Z.ltb Z.compare].
  rewrite length_app. cbn [length].
  replace (Z.of_nat (length init + 1) + -1 <? 0) with false
    by (symmetry; apply Z.ltb_ge; lia).
  replace (Z.to_nat (Z.of_nat (length init + 1) + -1)) with (length init + 0)%nat by lia.
  rewrite nth_error_app2 by lia.
  replace (length init + 0 - length init)%nat with 0%nat by lia. reflexivity.
Qed.

Lemma word_last_but_one (init : list string) (a b : string) :
  Sapphire.word (-2) (init ++ [a; b]) = a.
Proof.
  unfold Sapphire.word, index. cbn [Z.ltb Z.compare].
  rewrite length_app. cbn [length].
  replace (Z.of_nat (length init + 2) + -2 <? 0) with false
    by (symmetry; apply Z.ltb_ge; lia).
  replace (Z.to_nat (Z.of_nat (length init + 2) + -2)) with (length init + 0)%nat by lia.
  rewrite nth_error_app2 by lia.
  replace (length init + 0 - length init)%nat with 0%nat by lia. reflexivity.
Qed.

Lemma words_shape (l : list string) :
  l = [] \/ (exists w, l = [w]) \/ (exists init a b, l = init ++ [a; b]).
Proof.
  destruct l as [|x l] using rev_ind; [auto|].
  right. clear IHl.
  destruct l as [|y l] using rev_ind; [left; eauto|].
  right. exists l, y, x. rewrite <- app_assoc. reflexivity.
Qed.

(** Without a dash, Sapphire's and Khaadi's rules give the same type. *)
Lemma same_type_without_dash (name : string) :
  contains "-" name = false ->
  fst (fst (Sapphire.parse_name name)) = fst (Khaadi.name_rule name).
Proof.
  intros Hd. unfold Sapphire.parse_name, Khaadi.name_rule, Sapphire.PIECES.
  rewrite Hd. generalize (split_ws name) as words. intros words.
  cbv zeta.
  repeat match goal with
         | |- context [if ?c then _ else _] => destruct c
         end; reflexivity.
Qed.

(** C8. For a name without a dash: when its last two words joined are
    "3 Piece" or "2 Piece", [product_type] is that suffix; otherwise it is
    the last word. Sapphire's and Khaadi's extractors agree on it, the
    two-word rule being tried first in both. *)
Theorem product_type_of_plain_name (name : string) :
  contains "-" name = false ->
  let words := split_ws name in
  let sapphire_type := fst (fst (Sapphire.parse_name name)) in
  let khaadi_type := fst (Khaadi.name_rule name) in
  sapphire_type = khaadi_type /\
  (forall init a b,
     words = init ++ [a; b] ->
     Sapphire.mem (Sapphire.suffix2 a b) ["3 Piece"; "2 Piece"] = true ->
     sapphire_type = Sapphire.suffix2 a b) /\
  (forall init w,
     words = init ++ [w] ->
     (forall init' a, init = init' ++ [a] ->
        Sapphire.mem (Sapphire.suffix2 a w) ["3 Piece"; "2 Piece"] = false) ->
     sapphire_type = w).
Proof.
  intros Hd words sapphire_type khaadi_type.
  assert (Hsame : sapphire_type = khaadi_type) by (apply same_type_without_dash; exact Hd).
  split; [exact Hsame|].
  rewrite Hsame. subst khaadi_type. unfold Khaadi.name_rule. fold words.
  unfold Sapphire.suffix2. split.
  - intros init a b Hw Hm. rewrite Hw.
    rewrite word_last_but_one.
    change (init ++ [a; b]) with (init ++ [a] ++ [b]). rewrite app_assoc.
    rewrite word_last. rewrite Hm.
    unfold Sapphire.count. rewrite !length_app. cbn [length].
    replace (2 <=? Z.of_nat (length init + 1 + 1)) with true
      by (symmetry; apply Z.leb_le; lia).
    reflexivity.
  - intros init w Hw Hnot. rewrite Hw.
    destruct (words_shape init) as [->|[(a & ->)|(init' & a0 & a & ->)]].
    + reflexivity.
    + cbn [app]. change [a; w] with ([] ++ [a; w]).
      rewrite word_last_but_one. change ([] ++ [a; w]) with ([a] ++ [w]).
      rewrite word_last. rewrite (Hnot [] a eq_refl). reflexivity.
    + rewrite word_last.
      replace ((init' ++ [a0; a]) ++ [w]) with ((init' ++ [a0]) ++ [a; w])
        by (rewrite <- !app_assoc; reflexivity).
      rewrite word_last_but_one.
      rewrite (Hnot (init' ++ [a0]) a) by (rewrite <- app_assoc; reflexivity).
      rewrite andb_false_r.
      unfold Sapphire.count. rewrite !length_app. cbn [length].
      replace (0 <? Z.of_nat (length init' + 1 + 2)) with true
        by (symmetry; apply Z.ltb_lt; lia).
      reflexivity.
Qed.

Lemma product_type_of_plain_name_witness :
  fst (fst (Sapphire.parse_name "Printed Lawn 3 Piece")) = "3 Piece" /\
  fst (Khaadi.name_rule "Printed Lawn 3 Piece") = "3 Piece" /\
  fst (fst (Sapphire.parse_name "Embroidered Shirt")) = "Shirt".
Proof.
  destruct (product_type_of_plain_name "Printed Lawn 3 Piece") as (H1 & H2 & _);
    [vm_compute; reflexivity|].
  destruct (product_type_of_plain_name "Embroidered Shirt") as (_ & _ & H3);
    [vm_compute; reflexivity|].
  cbv zeta in *.
  split; [|split].
  - apply (H2 ["Printed"; "Lawn"] "3" "Piece"); vm_compute; reflexivity.
  - rewrite <- H1. apply (H2 ["Printed"; "Lawn"] "3" "Piece"); vm_compute; reflexivity.
  - apply (H3 ["Embroidered"] "Shirt"); [vm_compute; reflexivity|].
    intros init' a E.
    assert (a = "Embroidered").
    { destruct init' as [|x [|y init']]; inversion E; reflexivity. }
    subst a. vm_compute. reflexivity.
Defined.

End Names.

(** ** Sapphire's discount *)

Section Discount.
Import Py Sapphire.

Local Open Scope string_scope.
Local Open Scope list_scope.
Local Open Scope Z_scope.

(** Python's [float(str)], with the one fact about it that the extractor
    relies on: the placeholder of a missing price is no number. *)
Variable py_float : string -> option float.
Hypothesis py_float_NA : py_float "N/A" = None.

Lemma clean_NA : clean "N/A" = "N/A".
Proof. vm_compute. reflexivity. Qed.

Lemma discount_of_spec (price original_price : string) (discount : option Z) :
  discount_of py_float price original_price = Returned discount ->
  (original_price = price -> discount = None) /\
  (original_price <> price ->
   forall o c z,
     py_float (clean original_price) = Some o ->
     py_float (clean price) = Some c ->
     PrimFloat.ltb 0 o = true ->
     py_round (PrimFloat.mul (PrimFloat.div (PrimFloat.sub o c) o) 100) = RoundInt z ->
     discount = Some z).
Proof.
  unfold discount_of. intros H. split.
  - intros ->. rewrite String.eqb_refl in H. cbn in H. congruence.
  - intros Hne o c z Ho Hc Hpos Hr.
    assert (E1 : String.eqb original_price price = false)
      by (apply String.eqb_neq; exact Hne).
    assert (E2 : String.eqb original_price "N/A" = false).
    { apply String.eqb_neq. intros ->. rewrite clean_NA in Ho. congruence. }
    assert (E3 : String.eqb price "N/A" = false).
    { apply String.eqb_neq. intros ->. rewrite clean_NA in Hc. congruence. }
    rewrite E1, E2, E3 in H. cbn [negb andb] in H.
    rewrite Ho, Hc, Hpos, Hr in H. congruence.
Qed.

(** C7. For every product that Sapphire's extractor yields:
    [discount_percentage] is [None] whenever [original_price] equals
    [price]; otherwise, when both prices read as numbers, the original one
    is positive and the rounding is defined, it is
    [round((original - current) / original * 100)]; and [on_sale] is true
    exactly when the discount is a number greater than 0. *)
Theorem sapphire_discount_rule (base_url brand_id : string) (t : tile) (p : product) :
  extract_tile py_float base_url brand_id t = Extracted p ->
  (original_price p = price p -> discount_percentage p = None) /\
  (original_price p <> price p ->
   forall o c z,
     py_float (clean (original_price p)) = Some o ->
     py_float (clean (price p)) = Some c ->
     PrimFloat.ltb 0 o = true ->
     py_round (PrimFloat.mul (PrimFloat.div (PrimFloat.sub o c) o) 100) = RoundInt z ->
     discount_percentage p = Some z) /\
  (on_sale p = true <-> exists d, discount_percentage p = Some d /\ 0 < d).
Proof.
  unfold extract_tile. intros H.
  destruct (name_link t) as [[text href]|]; [|discriminate].
  destruct (parse_name (strip text)) as [[product_type fabric_type] fabric_style].
  destruct (category_of_url _ _) as [[category collection] piece_info].
  destruct (original_price_of (del_value t) _) as [original|] eqn:Eo; [|discriminate].
  destruct (discount_of py_float _ original) as [discount|e] eqn:Ed; [|discriminate].
  inversion H; subst p; clear H. cbn [original_price price discount_percentage on_sale].
  destruct (discount_of_spec _ _ _ Ed) as [H1 H2].
  split; [exact H1|]. split; [exact H2|].
  destruct discount as [d|].
  - rewrite Z.ltb_lt. split.
    + intros Hd. exists d. auto.
    + intros (d' & Hd' & Hpos). congruence.
  - split; [discriminate|]. intros (d & Hd & _). discriminate.
Qed.

End Discount.

Lemma sapphire_discount_rule_witness :
  exists p q,
    Sapphire.extract_tile Scenario.float_of_plain_decimal
      "https://pk.sapphireonline.pk" "1" Scenario.tile_on_sale = Sapphire.Extracted p /\
    Sapphire.discount_percentage p = Some 25 /\ Sapphire.on_sale p = true /\
    Sapphire.extract_tile Scenario.float_of_plain_decimal
      "https://pk.sapphireonline.pk" "1" Scenario.tile_full_price = Sapphire.Extracted q /\
    Sapphire.discount_percentage q = None.
Proof.
  eexists _, _.
  split; [vm_compute; reflexivity|].
  match goal with
  | |- Sapphire.discount_percentage ?p = _ /\ _ =>
      destruct (sapphire_discount_rule Scenario.float_of_plain_decimal eq_refl
                  "https://pk.sapphireonline.pk" "1" Scenario.tile_on_sale p)
        as (_ & Hd & Hs); [vm_compute; reflexivity|]
  end.
  assert (H25 : Sapphire.discount_percentage
                  {| Sapphire.brand := "Sapphire"; Sapphire.brand_id := "1";
                     Sapphire.sku := "0U3PDY24V46";
                     Sapphire.name := "Printed Lawn 3 Piece";
                     Sapphire.slug := "printed-lawn-3-piece";
                     Sapphire.fabric_style := "Printed";
                     Sapphire.fabric_type := "Lawn";
                     Sapphire.product_type := "3 Piece";
                     Sapphire.category := "Summer Unstitched";
                     Sapphire.collection := "Summer";
                     Sapphire.piece_info := "";
                     Sapphire.url := "https://pk.sapphireonline.pk/products/0U3PDY24V46.html";
                     Sapphire.img_url := [];
                     Sapphire.price := "Rs.1,500";
                     Sapphire.original_price := "Rs.2,000";
                     Sapphire.discount_percentage := Some 25;
                     Sapphire.on_sale := true;
                     Sapphire.in_stock := true |} = Some 25).
  { apply (Hd ltac:(vm_compute; discriminate) 2000%float 1500%float 25);
      vm_compute; reflexivity. }
  split; [exact H25|].
  split; [apply Hs; exists 25; split; [exact H25|lia]|].
  split; [vm_compute; reflexivity|].
  match goal with
  | |- Sapphire.discount_percentage ?q = _ =>
      destruct (sapphire_discount_rule Scenario.float_of_plain_decimal eq_refl
                  "https://pk.sapphireonline.pk" "1" Scenario.tile_full_price q)
        as (Hn & _ & _); [vm_compute; reflexivity|]
  end.
  apply Hn. reflexivity.
Defined.

(** ** Khaadi's enrichment pass *)

Section Enrichment.
Import Py Khaadi.

Local Open Scope string_scope.
Local Open Scope list_scope.
Local Open Scope Z_scope.

Variable detail_fields : details -> listing -> result (gmap string pyval).

Lemma nth_error_lookup {A} (l : list A) (i : nat) : nth_error l i = l !! i.
Proof. revert i. induction l as [|x l IH]; intros [|i]; cbn; auto. Qed.

Lemma product_requests_app (l1 l2 : list listing) :
  product_requests (l1 ++ l2) = product_requests l1 ++ product_requests l2.
Proof. unfold product_requests. apply omap_app. Qed.

Lemma request_place_lookup (products : list listing) (i : nat) p r :
  products !! i = Some p ->
  request_of p = Some r ->
  product_requests products !! request_place products i = Some r.
Proof.
  intros Hp Hr. unfold request_place.
  remember (length (product_requests (take i products))) as k eqn:Hk.
  rewrite <- (take_drop_middle products i p Hp).
  rewrite product_requests_app.
  rewrite lookup_app_r by lia.
  rewrite Hk, Nat.sub_diag. unfold product_requests at 1. cbn [omap list_omap].
  rewrite Hr. reflexivity.
Qed.

(** With one request per SKU, the details map holds under each SKU what the
    fetch of its own request returned, once that fetch has completed. *)
Lemma gather_lookup (requests : list detail_request) (fetch : nat -> details)
  (j : nat) (r : detail_request) :
  NoDup (map dr_id requests) ->
  requests !! j = Some r ->
  forall completion results,
    gather requests fetch completion results !! dr_id r
    = if bool_decide (j ∈ completion) then Some (fetch j) else results !! dr_id r.
Proof.
  intros Hnd Hj. induction completion as [|i rest IH]; intros results.
  - cbn. rewrite bool_decide_eq_false_2 by (apply not_elem_of_nil). reflexivity.
  - cbn [gather].
    destruct (nth_error requests i) as [r'|] eqn:Ei.
    + rewrite IH.
      destruct (bool_decide (j ∈ rest)) eqn:Er.
      * apply bool_decide_eq_true in Er.
        rewrite bool_decide_eq_true_2 by (right; exact Er). reflexivity.
      * apply bool_decide_eq_false in Er.
        destruct (decide (i = j)) as [->|Hij].
        -- rewrite bool_decide_eq_true_2 by left.
           assert (r' = r).
           { rewrite <- nth_error_lookup in Hj. congruence. }
           subst r'. apply lookup_insert_eq.
        -- rewrite bool_decide_eq_false_2
             by (intros Hin; apply elem_of_cons in Hin; destruct Hin; congruence).
           apply lookup_insert_ne. intros Heq. apply Hij.
           apply (NoDup_lookup _ i j (dr_id r) Hnd).
           ++ rewrite list_lookup_fmap. rewrite <- nth_error_lookup, Ei. cbn. f_equal. exact Heq.
           ++ rewrite list_lookup_fmap, Hj. reflexivity.
    + rewrite IH.
      assert (Hij : i <> j).
      { intros ->. rewrite <- nth_error_lookup in Hj. congruence. }
      destruct (bool_decide (j ∈ rest)) eqn:Er.
      * apply bool_decide_eq_true in Er.
        rewrite bool_decide_eq_true_2 by (right; exact Er). reflexivity.
      * apply bool_decide_eq_false in Er.
        rewrite bool_decide_eq_false_2
          by (intros Hin; apply elem_of_cons in Hin; destruct Hin; congruence).
        reflexivity.
Qed.

Lemma fix_category_keeps_flag (p : listing) :
  fix_category p !! "has_detailed_info" = p !! "has_detailed_info".
Proof.
  unfold fix_category.
  set (o := if py_truthy _ then _ else Some p).
  assert (Ho : forall q, o = Some q ->
                 q !! "has_detailed_info" = p !! "has_detailed_info").
  { subst o. intros q.
    generalize (default (PStr "") (p !! "name")). intros product_name.
    destruct (py_truthy product_name); [|intros [= <-]; reflexivity].
    destruct (name_has "Fabrics" product_name) as [[|]|];
      [intros [= <-]; apply lookup_insert_ne; discriminate| |discriminate].
    destruct (name_has "Ready" product_name) as [a|],
             (name_has "RTW" product_name) as [b|];
      try discriminate.
    destruct (a || b); intros [= <-];
      [apply lookup_insert_ne; discriminate|reflexivity]. }
  destruct o as [q|]; [|reflexivity].
  specialize (Ho q eq_refl).
  destruct (_ || _); [rewrite lookup_insert_ne by discriminate|]; exact Ho.
Qed.

(** A listing leaves the second loop as it came, or with the flag. *)
Lemma enhance_one_cases (details_map : gmap string details) (p : listing) :
  enhance_one detail_fields details_map p = p \/
  enhance_one detail_fields details_map p !! "has_detailed_info" = Some (PBool true).
Proof.
  unfold enhance_one.
  destruct (details_map !! get_str "sku" p) as [d|]; [|auto].
  case_bool_decide; [auto|].
  destruct (detail_fields d p) as [fields|e]; [|auto].
  right. rewrite fix_category_keeps_flag.
  rewrite lookup_insert_ne by discriminate. apply lookup_insert_eq.
Qed.

Lemma gather_app (requests : list detail_request) (fetch : nat -> details)
  (c1 c2 : list nat) :
  forall results,
    gather requests fetch (c1 ++ c2) results
    = gather requests fetch c2 (gather requests fetch c1 results).
Proof.
  induction c1 as [|i c1 IH]; intros results; cbn [app gather]; [reflexivity|].
  destruct (nth_error requests i); apply IH.
Qed.

(** Fetches for other SKUs leave the entry of an SKU as it is. *)
Lemma gather_other (requests : list detail_request) (fetch : nat -> details)
  (sku : string) :
  forall completion results,
    (forall k r, k ∈ completion -> requests !! k = Some r -> dr_id r <> sku) ->
    gather requests fetch completion results !! sku = results !! sku.
Proof.
  induction completion as [|i rest IH]; intros results H; cbn [gather];
    [reflexivity|].
  destruct (nth_error requests i) as [r|] eqn:E.
  - rewrite IH by (intros k r' Hk; apply H; right; exact Hk).
    apply lookup_insert_ne. apply (H i r); [left|].
    rewrite <- nth_error_lookup. exact E.
  - apply IH. intros k r' Hk. apply H. right. exact Hk.
Qed.

(** The details map holds under an SKU what the fetch returned that
    completed last among the requests with that SKU. *)
Lemma gather_last (requests : list detail_request) (fetch : nat -> details)
  (pre post : list nat) (j : nat) (r : detail_request) results :
  requests !! j = Some r ->
  (forall k r', k ∈ post -> requests !! k = Some r' -> dr_id r' <> dr_id r) ->
  gather requests fetch (pre ++ j :: post) results !! dr_id r = Some (fetch j).
Proof.
  intros Hj Hpost. rewrite gather_app. cbn [gather].
  rewrite nth_error_lookup, Hj. rewrite gather_other by exact Hpost.
  apply lookup_insert_eq.
Qed.

(** Among the fetches that complete, one is the last for a given SKU. *)
Lemma last_with_sku (requests : list detail_request) (sku : string) :
  forall completion j0 r0,
    j0 ∈ completion -> requests !! j0 = Some r0 -> dr_id r0 = sku ->
    exists pre j post r,
      completion = pre ++ j :: post /\
      requests !! j = Some r /\ dr_id r = sku /\
      forall k r', k ∈ post -> requests !! k = Some r' -> dr_id r' <> sku.
Proof.
  induction completion as [|i rest IH]; intros j0 r0 Hin Hj0 Hsku.
  - inversion Hin.
  - set (has := fun k => match requests !! k with
                         | Some r => bool_decide (dr_id r = sku)
                         | None => false
                         end).
    destruct (existsb has rest) eqn:E.
    + apply existsb_exists in E. destruct E as (k & Hk & Hhas). unfold has in Hhas.
      destruct (requests !! k) as [rk|] eqn:Erk; [|discriminate].
      apply bool_decide_eq_true in Hhas.
      destruct (IH k rk) as (pre & j & post & r & -> & Hj & Hr & Hpost);
        [apply list_elem_of_In; exact Hk|exact Erk|exact Hhas|].
      exists (i :: pre), j, post, r. auto.
    + assert (Hnone : forall k r', k ∈ rest -> requests !! k = Some r' ->
                dr_id r' <> sku).
      { intros k r' Hk Hr' Heq.
        assert (Ht : existsb has rest = true).
        { apply existsb_exists. exists k. split; [apply list_elem_of_In; exact Hk|].
          unfold has. rewrite Hr'. apply bool_decide_eq_true. exact Heq. }
        congruence. }
      apply elem_of_cons in Hin. destruct Hin as [->|Hin].
      * exists [], i, rest, r0. auto.
      * exfalso. exact (Hnone j0 r0 Hin Hj0 Hsku).
Qed.

(** C9, as amended. With at least one listing that yields a detail request,
    and whatever [max_workers] is (the batch never sees it),
    [enhance_products_with_details] returns the listings of its input, in
    input order, each one either as it came or with [has_detailed_info] set
    to true. Details are looked up by SKU: a
    listing with a detail request is treated according to the fetch that
    completed last among the requests with its SKU. When that fetch returned
    nothing, the listing is returned with all its fields unchanged and no
    flag added; when it returned a record that the enrichment accepts, the
    listing carries the flag. When no two requests share an SKU, that fetch
    is the listing's own. *)
Theorem enhance_keeps_failed_listings
  (products : list listing) (max_workers : Z) (fetch : nat -> details)
  (completion : list nat) :
  product_requests products <> [] ->
  Permutation completion (seq 0 (length (product_requests products))) ->
  Forall well_typed products ->
  exists out,
    enhance_products_with_details detail_fields products max_workers fetch completion
    = Returned out /\
    length out = length products /\
    forall i p,
      products !! i = Some p ->
      exists p',
        out !! i = Some p' /\
        (p' = p \/ p' !! "has_detailed_info" = Some (PBool true)) /\
        (forall r, request_of p = Some r ->
           exists pre j post r',
             completion = pre ++ j :: post /\
             product_requests products !! j = Some r' /\
             dr_id r' = dr_id r /\
             (forall k r'', k ∈ post -> product_requests products !! k = Some r'' ->
                dr_id r'' <> dr_id r) /\
             (NoDup (map dr_id (product_requests products)) ->
              j = request_place products i) /\
             (fetch j = ∅ ->
              p' = p /\ p' !! "has_detailed_info" = p !! "has_detailed_info") /\
             (forall fields,
                fetch j <> ∅ ->
                detail_fields (fetch j) p = Returned fields ->
                p' !! "has_detailed_info" = Some (PBool true))) /\
        (NoDup (map dr_id (product_requests products)) ->
         (forall r, request_of p = Some r ->
            fetch (request_place products i) = ∅ ->
            p' = p /\ p' !! "has_detailed_info" = p !! "has_detailed_info") /\
         (forall r fields, request_of p = Some r ->
            fetch (request_place products i) <> ∅ ->
            detail_fields (fetch (request_place products i)) p = Returned fields ->
            p' !! "has_detailed_info" = Some (PBool true))).
Proof.
  intros Hreq Hperm _.
  unfold enhance_products_with_details, get_product_details,
    _get_product_details_batch.
  assert (Hlen : (0 < length (product_requests products))%nat).
  { destruct (product_requests products); [congruence|cbn; lia]. }
  replace (Z.min 5 (Z.of_nat (length (product_requests products))) <=? 0)
    with false by (symmetry; apply Z.leb_gt; lia).
  eexists. split; [reflexivity|]. split; [apply length_map|].
  intros i p Hp. eexists. split; [rewrite list_lookup_fmap, Hp; reflexivity|].
  split; [apply enhance_one_cases|].
  assert (Hid : forall r, request_of p = Some r -> dr_id r = get_str "sku" p).
  { intros r Hr. unfold request_of in Hr.
    destruct (negb (truthy (get_str "sku" p)) || negb (truthy (first_color p)));
      [discriminate|]. inversion Hr. reflexivity. }
  assert (Hdone : forall r, request_of p = Some r ->
            request_place products i ∈ completion).
  { intros r Hr.
    pose proof (request_place_lookup products i p r Hp Hr) as Hl.
    apply list_elem_of_In. apply (Permutation_in _ (Permutation_sym Hperm)).
    apply in_seq. apply lookup_lt_Some in Hl. lia. }
  split.
  - intros r Hr.
    pose proof (request_place_lookup products i p r Hp Hr) as Hl.
    destruct (last_with_sku (product_requests products) (dr_id r) completion
                (request_place products i) r (Hdone r Hr) Hl eq_refl)
      as (pre & j & post & r' & Hc & Hj & Hr' & Hpost).
    exists pre, j, post, r'.
    split; [exact Hc|]. split; [exact Hj|]. split; [exact Hr'|].
    split; [exact Hpost|].
    assert (Hmap : gather (product_requests products) fetch completion ∅
                     !! get_str "sku" p = Some (fetch j)).
    { rewrite <- (Hid r Hr), <- Hr', Hc. apply gather_last; [exact Hj|].
      intros k r'' Hk Hk'. rewrite Hr'. exact (Hpost k r'' Hk Hk'). }
    split; [|split].
    + intros Hnd.
      apply (NoDup_lookup _ j (request_place products i) (dr_id r) Hnd).
      * rewrite list_lookup_fmap, Hj. cbn. f_equal. exact Hr'.
      * rewrite list_lookup_fmap, Hl. reflexivity.
    + intros Hempty. unfold enhance_one. rewrite Hmap, Hempty.
      rewrite bool_decide_eq_true_2 by reflexivity. auto.
    + intros fields Hfull Hfields. unfold enhance_one. rewrite Hmap.
      rewrite bool_decide_eq_false_2 by exact Hfull. rewrite Hfields.
      rewrite fix_category_keeps_flag.
      rewrite lookup_insert_ne by discriminate. apply lookup_insert_eq.
  - intros Hnd.
    assert (Hmap : forall r, request_of p = Some r ->
              gather (product_requests products) fetch completion ∅ !! get_str "sku" p
              = Some (fetch (request_place products i))).
    { intros r Hr.
      pose proof (request_place_lookup products i p r Hp Hr) as Hl.
      rewrite <- (Hid r Hr).
      rewrite (gather_lookup _ fetch _ r Hnd Hl).
      rewrite bool_decide_eq_true_2; [reflexivity|]. exact (Hdone r Hr). }
    split.
    + intros r Hr Hempty. unfold enhance_one. rewrite (Hmap r Hr), Hempty.
      rewrite bool_decide_eq_true_2 by reflexivity. auto.
    + intros r fields Hr Hfull Hfields. unfold enhance_one. rewrite (Hmap r Hr).
      rewrite bool_decide_eq_false_2 by exact Hfull. rewrite Hfields.
      rewrite fix_category_keeps_flag.
      rewrite lookup_insert_ne by discriminate. apply lookup_insert_eq.
Qed.

End Enrichment.

Section EnrichmentExamples.
Import Py Khaadi Scenario.

Local Open Scope string_scope.
Local Open Scope list_scope.
Local Open Scope Z_scope.

Lemma khaadi_listing_well_typed sku name color :
  well_typed (khaadi_listing sku name color).
Proof.
  unfold well_typed, khaadi_listing. cbn [list_to_map foldr uncurry].
  repeat split; intros v Hv.
  - rewrite lookup_insert_ne, lookup_insert_eq in Hv by discriminate.
    inversion Hv. eauto.
  - rewrite !lookup_insert_ne, lookup_insert_eq in Hv by discriminate.
    inversion Hv. eauto.
  - rewrite !lookup_insert_ne, lookup_insert_eq in Hv by discriminate.
    inversion Hv. exists [color]. reflexivity.
Qed.

Lemma enhance_keeps_failed_listings_witness :
  exists out first second,
    enhance_products_with_details copied_fields two_listings 3 first_fetch_fails
      [1; 0]%nat = Returned out /\
    out = [first; second] /\
    first = khaadi_listing "MT11-VG_NAVY" "Fabrics 3 Piece" "Navy" /\
    second !! "has_detailed_info" = Some (PBool true).
Proof.
  destruct (enhance_keeps_failed_listings copied_fields two_listings 3
              first_fetch_fails [1; 0]%nat)
    as (out & E & Hlen & Hout).
  - vm_compute. discriminate.
  - vm_compute. apply perm_swap.
  - repeat constructor; apply khaadi_listing_well_typed.
  - assert (Hnd : NoDup (map dr_id (product_requests two_listings)))
      by (apply (bool_decide_unpack _); vm_compute; reflexivity).
    destruct out as [|first [|second [|third out]]]; try discriminate Hlen.
    exists [first; second], first, second.
    split; [exact E|]. split; [reflexivity|].
    destruct (Hout 0%nat _ eq_refl) as (p0 & H0 & _ & _ & Hown0).
    destruct (Hout 1%nat _ eq_refl) as (p1 & H1 & _ & _ & Hown1).
    destruct (Hown0 Hnd) as [Hfail _]. destruct (Hown1 Hnd) as [_ Hok].
    cbn in H0, H1. inversion H0; subst p0. inversion H1; subst p1.
    split.
    + eapply Hfail; vm_compute; reflexivity.
    + eapply Hok; [vm_compute; reflexivity| |reflexivity].
      intros Hbad.
      assert (Hn : first_fetch_fails (request_place two_listings 1) !! "name"
                   = Some (PStr "Fabrics 3 Piece")) by (vm_compute; reflexivity).
      rewrite Hbad, lookup_empty in Hn. discriminate.
Defined.

(** C9 as stated fails. Details are kept under the SKU, so of two listings
    with the same SKU the one whose own fetch returned nothing is enriched
    with what the other's fetch returned. *)
Lemma failed_twin_is_enriched :
  ~ (forall (detail_fields : details -> listing -> result (gmap string pyval))
            (products : list listing) (max_workers : Z) (fetch : nat -> details)
            (completion : list nat) (out : list listing) (i : nat) (p : listing)
            (r : detail_request),
       0 < max_workers ->
       Permutation completion (seq 0 (length (product_requests products))) ->
       Forall well_typed products ->
       enhance_products_with_details detail_fields products max_workers fetch
         completion = Returned out ->
       products !! i = Some p ->
       request_of p = Some r ->
       fetch (request_place products i) = ∅ ->
       out !! i = Some p).
Proof.
  intros H.
  specialize (H copied_fields twin_listings 3 first_fetch_fails [0; 1]%nat
                (map (enhance_one copied_fields
                        (gather (product_requests twin_listings) first_fetch_fails
                           [0; 1]%nat ∅)) twin_listings)
                0%nat (khaadi_listing "MT11-VG_NAVY" "Fabrics 3 Piece" "Navy")
                {| dr_id := "MT11-VG_NAVY"; dr_color := "Navy"; dr_size := Some "3PC" |}).
  assert (E : map (enhance_one copied_fields
                     (gather (product_requests twin_listings) first_fetch_fails
                        [0; 1]%nat ∅)) twin_listings !! 0%nat
              = Some (khaadi_listing "MT11-VG_NAVY" "Fabrics 3 Piece" "Navy")).
  { apply H.
    - lia.
    - vm_compute. apply Permutation_refl.
    - repeat constructor; apply khaadi_listing_well_typed.
    - vm_compute. reflexivity.
    - reflexivity.
    - vm_compute. reflexivity.
    - reflexivity. }
  assert (Hflag : match map (enhance_one copied_fields
                               (gather (product_requests twin_listings)
                                  first_fetch_fails [0; 1]%nat ∅))
                        twin_listings !! 0%nat with
                  | Some m => m !! "has_detailed_info"
                  | None => None
                  end = Some (PBool true))
    by (vm_compute; reflexivity).
  rewrite E in Hflag. vm_compute in Hflag. discriminate.
Qed.

(** [max_workers] does not reach the pool: with [max_workers = 0] the call
    returns as with any other value. *)
Example enhance_ignores_max_workers :
  enhance_products_with_details copied_fields two_listings 0 first_fetch_fails
    [1; 0]%nat
  = enhance_products_with_details copied_fields two_listings 3 first_fetch_fails
      [1; 0]%nat.
Proof. reflexivity. Qed.

(** The slip that the amended claim leaves out: when no listing has both an
    SKU and a colour there is no detail request, the pool is created with no
    worker, and the call raises instead of returning the listings. *)
Example enhance_without_requests_raises :
  enhance_products_with_details copied_fields
    [khaadi_listing "MT11" "Fabrics 3 Piece" ""] 3 first_fetch_fails []
  = Raised ValueError.
Proof. vm_compute. reflexivity. Qed.

End EnrichmentExamples.

(** ** [make_request] and [rotate_identity]: what a caller can rely on *)

Section RequestsMore.
Import Py RequestUtils Scenario.

Local Open Scope string_scope.
Local Open Scope list_scope.
Local Open Scope Z_scope.










Lemma key_eqb_trans a b c :
  key_eqb a b = true -> key_eqb b c = true -> key_eqb a c = true.
Proof.
  unfold key_eqb. rewrite !String.eqb_eq. congruence.
Qed.

(** What [Headers.update] does to the lines it is not given. *)
Lemma headers_get_update_other (h other : headers) (k : string) :
  headers_has k other = false ->
  headers_get k (headers_update h other) = headers_get k h.
Proof.
  intros Hk. unfold headers_get, headers_update. rewrite filter_app.
  assert (H1 : filter (fun kv : string * string => key_eqb k (fst kv) = true) other = []).
  { unfold headers_has in Hk. induction other as [|[k' v'] o IH]; [reflexivity|].
    cbn [existsb fst] in Hk. apply orb_false_elim in Hk. destruct Hk as [Hk1 Hk2].
    rewrite filter_cons. case_decide as Hd; [cbn [fst] in Hd; congruence|].
    apply IH. exact Hk2. }
  assert (H2 : filter (fun kv : string * string => key_eqb k (fst kv) = true)
                 (filter (fun kv : string * string => headers_has (fst kv) other = false) h)
               = filter (fun kv : string * string => key_eqb k (fst kv) = true) h).
  { induction h as [|[k' v'] h IH]; [reflexivity|].
    rewrite (filter_cons _ (k', v')). case_decide as Hd.
    - rewrite !filter_cons. case_decide; rewrite IH; reflexivity.
    - rewrite IH. rewrite filter_cons. case_decide as Hm; [|reflexivity].
      exfalso. apply Hd. cbn [fst] in *.
      destruct (headers_has k' other) eqn:Eh; [|reflexivity].
      unfold headers_has in Eh, Hk. apply existsb_exists in Eh.
      destruct Eh as (kv & Hin & Hkv).
      assert (Hc : existsb (fun kv => key_eqb k (fst kv)) other = true).
      { apply existsb_exists. exists kv. split; [exact Hin|].
        eapply key_eqb_trans; eassumption. }
      congruence. }
  rewrite H1, H2, app_nil_r. reflexivity.
Qed.

Lemma user_agent_after_update (h : headers) (ua rf : string) :
  headers_get "User-Agent" (headers_update h [("User-Agent", ua); ("Referer", rf)])
  = Some ua.
Proof.
  unfold headers_update, headers_get.
  rewrite filter_app.
  assert (Hnil :
    filter (fun kv : string * string => key_eqb "User-Agent" (fst kv) = true)
      (filter (fun kv : string * string =>
                 headers_has (fst kv) [("User-Agent", ua); ("Referer", rf)] = false) h)
    = []).
  { induction h as [|[k v] h IH]; [reflexivity|].
    rewrite (filter_cons _ (k, v)). case_decide as Hd.
    - rewrite filter_cons. case_decide as Hk; [|exact IH].
      exfalso. simpl in Hd, Hk. unfold headers_has in Hd. simpl in Hd.
      rewrite (key_eqb_sym k "User-Agent") in Hd. rewrite Hk in Hd.
      simpl in Hd. discriminate.
    - exact IH. }
  rewrite Hnil. reflexivity.
Qed.

(** X3. [rotate_identity] takes exactly two draws from the random source;
    afterwards the session's [User-Agent] is an entry of [USER_AGENTS] and
    its [Referer] an entry of the list [REFERRERS] as it is at that moment;
    every other header of the session, the retry settings, the list itself,
    the clock and the wire are left as they were. *)
Theorem rotate_identity_draws_from_the_pools rm w :
  REFERRERS w <> [] ->
  exists rm' w',
    rotate_identity rm w = (Returned rm', w') /\
    (exists ua, headers_get "User-Agent" (session_headers rm') = Some ua /\
                In ua USER_AGENTS) /\
    (exists rf, headers_get "Referer" (session_headers rm') = Some rf /\
                In rf (REFERRERS w)) /\
    (forall k, key_eqb k "User-Agent" = false -> key_eqb k "Referer" = false ->
       headers_get k (session_headers rm') = headers_get k (session_headers rm)) /\
    base_url rm' = base_url rm /\ retry_count rm' = retry_count rm /\
    retry_delay rm' = retry_delay rm /\
    drawn w' = (drawn w + 2)%nat /\
    REFERRERS w' = REFERRERS w /\ slept w' = slept w /\ wire w' = wire w.
Proof.
  intros Hw.
  destruct (rotate_identity_returns rm w Hw)
    as (ua & rf & w' & E & Hua & Hrf & HR & HS & HW).
  exists (set_session_headers rm
            (headers_update (session_headers rm)
               [("User-Agent", ua); ("Referer", rf)])), w'.
  split; [exact E|]. cbn [session_headers set_session_headers base_url retry_count retry_delay].
  split; [exists ua; split; [apply user_agent_after_update|exact Hua]|].
  split; [exists rf; split; [apply referer_after_update|exact Hrf]|].
  split.
  { intros k Hk1 Hk2. apply headers_get_update_other.
    unfold headers_has. cbn [existsb fst]. rewrite Hk1, Hk2. reflexivity. }
  split; [reflexivity|]. split; [reflexivity|]. split; [reflexivity|].
  split; [|auto].
  unfold rotate_identity, bind, get_REFERRERS, ret in E.
  unfold random_choice at 1 in E. cbn [USER_AGENTS] in E.
  match type of E with
  | context [random_choice ?l ?w1] =>
      assert (Hd : drawn (snd (random_choice l w1)) = S (drawn w1));
      [ unfold random_choice; cbn [REFERRERS];
        destruct (REFERRERS w); [congruence|reflexivity]
      | destruct (random_choice l w1) as [[x|e] w2]; cbn [snd] in Hd;
        inversion E; subst; rewrite Hd; cbn [drawn]; lia ]
  end.
Qed.

Lemma rotate_identity_draws_from_the_pools_witness :
  exists rm' w',
    rotate_identity (manager 3 5) (fresh_world (fun n => n)) = (Returned rm', w') /\
    drawn w' = 2%nat /\ retry_count rm' = 3.
Proof.
  destruct (rotate_identity_draws_from_the_pools (manager 3 5)
              (fresh_world (fun n => n)))
    as (rm' & w' & E & _ & _ & _ & _ & Hc & _ & Hd & _).
  - discriminate.
  - exists rm', w'. split; [exact E|]. split; [exact Hd|exact Hc].
Defined.

End RequestsMore.

(** ** The category loop and [scrape]: requests, merging and the edges of
    the limit *)

Section PaginationMore.
Import Py Paginator.

Local Open Scope list_scope.
Local Open Scope Z_scope.

Context {product : Type}.

Implicit Types (s : site product) (st : cstate product) (acc ps : list product).

(** The request of the [k]-th turn of a category loop. *)
Lemma iteration_log page_size product_limit category_id s st :
  match iteration page_size product_limit category_id s st with
  | Done _ log =>
      log = issued st \/ log = issued st ++ [request_at page_size category_id st]
  | Next st' =>
      issued st' = issued st ++ [request_at page_size category_id st] /\
      c_start st' = c_start st + page_size /\
      c_page st' = c_page st + 1
  end.
Proof.
  unfold iteration, request_at.
  destruct ((0 <? product_limit) && (product_limit <=? len (category_products st)));
    [left; reflexivity|].
  destruct (s _ _) as [| |[|] [|p ps]]; try (right; reflexivity).
  destruct ((0 <? product_limit) && _); [right; reflexivity|].
  destruct (len (p :: ps) <? page_size); [right; reflexivity|].
  cbn. auto.
Qed.

Lemma run_log_shape page_size product_limit category_id s :
  forall fuel st,
    c_start st = Z.of_nat (length (issued st)) * page_size ->
    c_page st = Z.of_nat (length (issued st)) + 1 ->
    issued st =
      map (fun k => ({| cgid := category_id; start := Z.of_nat k * page_size;
                        sz := page_size |}, Z.of_nat k + 1))
          (seq 0 (length (issued st))) ->
    let log := snd (run fuel page_size product_limit category_id s st) in
    log =
      map (fun k => ({| cgid := category_id; start := Z.of_nat k * page_size;
                        sz := page_size |}, Z.of_nat k + 1))
          (seq 0 (length log)).
Proof.
  induction fuel as [|fuel IH]; intros st Hs Hp Hi; cbn [run].
  - cbn [snd]. exact Hi.
  - pose proof (iteration_log page_size product_limit category_id s st) as Hlog.
    assert (Hext :
      issued st ++ [request_at page_size category_id st] =
      map (fun k => ({| cgid := category_id; start := Z.of_nat k * page_size;
                        sz := page_size |}, Z.of_nat k + 1))
          (seq 0 (length (issued st ++ [request_at page_size category_id st])))).
    { rewrite length_app. cbn [length]. rewrite Nat.add_1_r, seq_S, map_app.
      rewrite <- Hi. cbn [map Nat.add]. unfold request_at. rewrite Hs, Hp.
      reflexivity. }
    destruct (iteration page_size product_limit category_id s st) as [l log|st'].
    + cbn [snd]. destruct Hlog as [-> | ->]; [exact Hi|exact Hext].
    + destruct Hlog as (Hi' & Hs' & Hp').
      apply IH.
      * rewrite Hs', Hi', length_app, Hs. cbn [length]. lia.
      * rewrite Hp', Hi', length_app, Hp. cbn [length]. lia.
      * rewrite Hi'. exact Hext.
Qed.

(** X4. The requests of one category walk the pages in order: the [k]-th
    request (counting from 0) of [_scrape_category] asks for the window that
    starts at [k * page_size], has size [page_size] and is page [k + 1],
    whatever the site answers and whatever the limit is. *)
Theorem category_requests_walk_the_pages
  (fuel : nat) (page_size product_limit : Z) (category_id : string) s :
  let log := snd (run fuel page_size product_limit category_id s initial) in
  log =
    map (fun k => ({| cgid := category_id; start := Z.of_nat k * page_size;
                      sz := page_size |}, Z.of_nat k + 1))
        (seq 0 (length log)).
Proof.
  apply run_log_shape; reflexivity.
Qed.

Lemma run_catalogue_unlimited (page_size product_limit : Z) (category_id : string)
  (items : list product) :
  0 < page_size -> product_limit <= 0 ->
  forall fuel st,
    category_products st = firstn (Z.to_nat (c_start st)) items ->
    0 <= c_start st <= len items ->
    (Z.to_nat ((len items - c_start st) / page_size) < fuel)%nat ->
    exists log,
      run fuel page_size product_limit category_id (catalogue items) st
      = (Some items, log) /\
      Z.of_nat (length log)
      = Z.of_nat (length (issued st)) + (len items - c_start st) / page_size + 1.
Proof.
  intros Hps Hq.
  induction fuel as [|fuel IH]; intros st Hacc Hstart Hfuel; [lia|].
  assert (Hlen : len (category_products st) = c_start st).
  { unfold len in *. rewrite Hacc, length_firstn. lia. }
  cbn [run].
  assert (Hl : ~ limit_reached product_limit st) by (unfold limit_reached; lia).
  pose proof (iteration_cases page_size product_limit category_id (catalogue items) st Hl)
    as Hc.
  cbn zeta in Hc. unfold catalogue at 1 in Hc. cbn [request_at fst start sz] in Hc.
  rewrite slice_window in Hc by lia.
  set (page := firstn (Z.to_nat page_size) (skipn (Z.to_nat (c_start st)) items)) in *.
  assert (Hpage : len page = Z.min page_size (len items - c_start st)).
  { unfold page, len in *. rewrite length_firstn, length_skipn. lia. }
  assert (Hall : category_products st ++ page
                 = firstn (Z.to_nat (c_start st) + Z.to_nat page_size) items).
  { unfold page. rewrite Hacc, firstn_plus. reflexivity. }
  case_bool_decide as E0.
  { rewrite Hc. eexists. split.
    - f_equal. f_equal. rewrite Hacc. apply firstn_all2.
      rewrite E0 in Hpage. unfold len in *. cbn [length] in Hpage. lia.
    - rewrite length_app. cbn [length].
      rewrite E0 in Hpage. unfold len in *. cbn [length] in Hpage.
      replace (Z.of_nat (length items) - c_start st) with 0 by lia.
      rewrite Z.div_0_l by lia. lia. }
  rewrite bool_decide_eq_false_2 in Hc by lia.
  case_bool_decide as E2.
  { rewrite Hc. eexists. split.
    - f_equal. f_equal. rewrite Hall. apply firstn_all2. unfold len in *. lia.
    - rewrite length_app. cbn [length].
      rewrite (Z.div_small (len items - c_start st)) by lia. lia. }
  rewrite Hc.
  assert (Hdiv : (len items - c_start st) / page_size
                 = (len items - (c_start st + page_size)) / page_size + 1).
  { replace (len items - c_start st)
      with ((len items - (c_start st + page_size)) + 1 * page_size) by ring.
    rewrite Z.div_add by lia. reflexivity. }
  assert (Hnn : 0 <= (len items - (c_start st + page_size)) / page_size).
  { apply Z.div_pos; lia. }
  destruct (IH {| category_products := category_products st ++ page;
                  c_start := c_start st + page_size;
                  c_page := c_page st + 1;
                  issued := issued st ++ [request_at page_size category_id st] |})
    as (log & Er & Hn); cbn [category_products c_start issued].
  - rewrite Hall. f_equal. lia.
  - lia.
  - lia.
  - exists log. unfold request_at in Er. split; [exact Er|].
    cbn [issued c_start] in Hn. rewrite Hn, length_app. cbn [length]. lia.
Qed.

(** X5. Without a limit ([product_limit] 0 or less), a category whose site
    serves a catalogue of [n] items honestly is returned whole, in order,
    after exactly [n / page_size + 1] requests: when [n] is a multiple of
    the page size, one more request is made and finds an empty page. *)
Theorem unlimited_category_returns_the_catalogue
  (fuel : nat) (page_size product_limit : Z) (category_id : string)
  (items : list product) :
  0 < page_size -> product_limit <= 0 ->
  (Z.to_nat (len items / page_size) < fuel)%nat ->
  _scrape_category fuel page_size category_id (catalogue items) product_limit
  = Some items /\
  Z.of_nat (length (snd (run fuel page_size product_limit category_id
                           (catalogue items) initial)))
  = len items / page_size + 1.
Proof.
  intros Hps Hq Hfuel. unfold _scrape_category.
  destruct (run_catalogue_unlimited page_size product_limit category_id items Hps Hq
              fuel initial) as (log & Er & Hn);
    cbn [initial category_products c_start issued].
  - reflexivity.
  - unfold len. lia.
  - rewrite Z.sub_0_r. exact Hfuel.
  - rewrite Er. cbn [fst snd]. split; [reflexivity|].
    cbn [initial issued c_start length] in Hn. rewrite Z.sub_0_r in Hn.
    rewrite Hn. lia.
Qed.

(** X6. With two categories or more, a pool that has workers and no
    limit, [SapphireScraper.scrape] returns the lists of its category tasks
    glued together in the order in which the tasks complete, not in the
    order of the configuration: the result is a rearrangement of the
    categories' products, with nothing lost and nothing added. *)
Theorem parallel_scrape_merges_in_completion_order
  (fuel : nat) (cfg : config) (sites : nat -> site product)
  (completion : list nat) (res : nat -> list product) :
  2 <= Z.of_nat (length (categories cfg)) ->
  0 < max_workers cfg ->
  product_limit cfg <= 0 ->
  Permutation completion (seq 0 (length (categories cfg))) ->
  (forall i cat, nth_error (categories cfg) i = Some cat ->
     _scrape_category fuel (page_size cfg) (snd cat) (sites i) 0 = Some (res i)) ->
  scrape fuel cfg sites completion = Some (Returned (flat_map res completion)) /\
  Permutation (flat_map res completion)
    (flat_map res (seq 0 (length (categories cfg)))).
Proof.
  intros Hn Hw Hl Hp Hres. split.
  - rewrite (scrape_merges fuel cfg sites completion res Hn Hw).
    + replace (0 <? product_limit cfg) with false
        by (symmetry; apply Z.ltb_ge; lia).
      reflexivity.
    + intros i Hi. apply (Permutation_in _ Hp) in Hi. apply in_seq in Hi. lia.
    + intros i cat E.
      replace (0 <? product_limit cfg) with false
        by (symmetry; apply Z.ltb_ge; lia).
      apply Hres. exact E.
  - apply Permutation_flat_map. exact Hp.
Qed.

(** X7. In [SapphireScraper.scrape] with two categories or more and a pool
    that has workers, a positive limit that is smaller than the number of
    categories gives every task the quota [limit // n = 0], and 0 means no
    limit: each category is scraped as if there were no limit at all, and
    only the merged list is cut to the limit. *)
Theorem limit_below_category_count_is_not_shared
  (fuel : nat) (cfg : config) (sites : nat -> site product)
  (completion : list nat) (res : nat -> list product) :
  2 <= Z.of_nat (length (categories cfg)) ->
  0 < max_workers cfg ->
  0 < product_limit cfg < Z.of_nat (length (categories cfg)) ->
  (forall i, In i completion -> (i < length (categories cfg))%nat) ->
  (forall i cat, nth_error (categories cfg) i = Some cat ->
     _scrape_category fuel (page_size cfg) (snd cat) (sites i) 0 = Some (res i)) ->
  submit fuel cfg sites
    (product_limit cfg / Z.of_nat (length (categories cfg))) 0 (categories cfg)
  = submit fuel cfg sites 0 0 (categories cfg) /\
  scrape fuel cfg sites completion
  = Some (Returned (firstn (Z.to_nat (product_limit cfg))
                      (flat_map res completion))).
Proof.
  intros Hn Hw Hl Hc Hres.
  assert (Hshare : product_limit cfg / Z.of_nat (length (categories cfg)) = 0)
    by (apply Z.div_small; lia).
  split; [rewrite Hshare; reflexivity|].
  rewrite (scrape_merges fuel cfg sites completion res Hn Hw Hc).
  - replace (0 <? product_limit cfg) with true by (symmetry; apply Z.ltb_lt; lia).
    cbn [andb]. f_equal. f_equal.
    destruct (product_limit cfg <? len (flat_map res completion)) eqn:E.
    + apply slice_to_firstn. lia.
    + apply Z.ltb_ge in E. symmetry. apply firstn_all2. unfold len in E. lia.
  - intros i cat E.
    replace (0 <? product_limit cfg) with true by (symmetry; apply Z.ltb_lt; lia).
    rewrite Hshare. apply Hres. exact E.
Qed.

End PaginationMore.

Section PaginationMoreExamples.
Import Py Paginator Scenario Cases.

Local Open Scope list_scope.
Local Open Scope Z_scope.

Lemma unlimited_category_returns_the_catalogue_witness :
  _scrape_category 5 12 "women" (catalogue (seq 0 24)) 0 = Some (seq 0 24) /\
  Z.of_nat (length (snd (run 5 12 0 "women" (catalogue (seq 0 24)) initial)))
  = len (seq 0 24) / 12 + 1.
Proof.
  apply (unlimited_category_returns_the_catalogue 5 12 0 "women" (seq 0 24)).
  - lia.
  - lia.
  - vm_compute. lia.
Defined.

Lemma parallel_scrape_merges_in_completion_order_witness :
  scrape 5 two_categories_unlimited (fun i => catalogue (shelf i)) [1; 0]%nat
  = Some (Returned (flat_map shelf [1; 0]%nat)) /\
  Permutation (flat_map shelf [1; 0]%nat) (flat_map shelf (seq 0 2)).
Proof.
  apply (parallel_scrape_merges_in_completion_order 5 two_categories_unlimited
           (fun i => catalogue (shelf i)) [1; 0]%nat shelf).
  - simpl. lia.
  - simpl. lia.
  - simpl. lia.
  - simpl. apply perm_swap.
  - intros i cat Hi. destruct i as [|[|i]]; simpl in Hi.
    + inversion Hi. reflexivity.
    + inversion Hi. reflexivity.
    + destruct i; discriminate.
Defined.

Lemma limit_below_category_count_is_not_shared_witness :
  submit 5 three_categories_limit_two (fun i => catalogue (shelf i)) (2 / 3) 0
    (categories three_categories_limit_two)
  = submit 5 three_categories_limit_two (fun i => catalogue (shelf i)) 0 0
      (categories three_categories_limit_two) /\
  scrape 5 three_categories_limit_two (fun i => catalogue (shelf i)) [2; 0; 1]%nat
  = Some (Returned [200; 201]%nat).
Proof.
  apply (limit_below_category_count_is_not_shared 5 three_categories_limit_two
           (fun i => catalogue (shelf i)) [2; 0; 1]%nat shelf).
  - simpl. lia.
  - simpl. lia.
  - simpl. lia.
  - intros i Hi. simpl in Hi. simpl. lia.
  - intros i cat Hi. destruct i as [|[|[|i]]]; simpl in Hi.
    + inversion Hi. reflexivity.
    + inversion Hi. reflexivity.
    + inversion Hi. reflexivity.
    + destruct i; discriminate.
Defined.

End PaginationMoreExamples.

(** ** Strings and numbers *)

Section Text.
Import Py PyMore.

Local Open Scope string_scope.
Local Open Scope list_scope.
Local Open Scope Z_scope.

Lemma chars_str (l : list ascii) : chars (str l) = l.
Proof. apply list_ascii_of_string_of_list_ascii. Qed.

Lemma str_chars (s : string) : str (chars s) = s.
Proof. apply string_of_list_ascii_of_string. Qed.

Lemma chars_append (a b : string) : chars (String.append a b) = chars a ++ chars b.
Proof.
  unfold chars. induction a as [|c a IH]; [reflexivity|].
  change (c :: list_ascii_of_string (String.append a b)
          = c :: (list_ascii_of_string a ++ list_ascii_of_string b)).
  f_equal. exact IH.
Qed.

Lemma truthy_chars (s : string) : truthy s = true <-> chars s <> [].
Proof. destruct s; cbn; split; congruence. Qed.

(** The value that the digits of [l] spell after [acc]. *)
Lemma digits_value_digits (l : list ascii) :
  forall acc after_digit,
    forallb is_digit l = true ->
    (l <> [] \/ after_digit = true) ->
    digits_value acc after_digit l
    = Some (fold_left (fun a c => 10 * a + Z.of_nat (nat_of_ascii c - 48)) l acc).
Proof.
  induction l as [|c l IH]; intros acc b Hd Hne.
  - destruct Hne as [Hne| ->]; [congruence|reflexivity].
  - cbn [forallb] in Hd. apply andb_prop in Hd. destruct Hd as [Hc Hl].
    cbn [digits_value fold_left]. rewrite Hc. apply IH; [exact Hl|right; reflexivity].
Qed.

Lemma lstrip_chars_no_space (l : list ascii) :
  match l with [] => True | c :: _ => is_space c = false end ->
  lstrip_chars l = l.
Proof. destruct l as [|c l]; [reflexivity|]. cbn. intros ->. reflexivity. Qed.

Lemma digit_not_space (c : ascii) : is_digit c = true -> is_space c = false.
Proof.
  unfold is_digit, is_space. intros H. apply andb_prop in H. destruct H as [H1 H2].
  apply Nat.leb_le in H1. apply Nat.leb_le in H2.
  apply orb_false_intro; apply andb_false_intro2; apply Nat.leb_gt; lia.
Qed.

Lemma strip_digits (l : list ascii) :
  forallb is_digit l = true -> strip (str l) = str l.
Proof.
  intros Hd. unfold strip. rewrite chars_str. f_equal.
  rewrite (lstrip_chars_no_space l).
  - rewrite (lstrip_chars_no_space (rev l)); [apply rev_involutive|].
    destruct (rev l) as [|c r] eqn:E; [exact I|].
    apply digit_not_space. rewrite forallb_forall in Hd. apply Hd.
    apply in_rev. rewrite E. left. reflexivity.
  - destruct l as [|c l]; [exact I|]. cbn in Hd. apply andb_prop in Hd.
    apply digit_not_space. tauto.
Qed.

Lemma count_digits_all (l : list ascii) :
  forallb is_digit l = true -> count_digits l = Z.of_nat (length l).
Proof.
  induction l as [|c l IH]; [reflexivity|].
  cbn [forallb count_digits length]. intros H. apply andb_prop in H.
  destruct H as [Hc Hl]. rewrite Hc, (IH Hl). lia.
Qed.

(** [int] on a string of digits: the number they spell, unless there are
    more than [MAX_STR_DIGITS] of them. *)
Lemma int_of_str_digits_limit (l : list ascii) :
  forallb is_digit l = true -> l <> [] ->
  int_of_str (str l)
  = if MAX_STR_DIGITS <? Z.of_nat (length l) then None
    else Some (fold_left (fun a c => 10 * a + Z.of_nat (nat_of_ascii c - 48)) l 0).
Proof.
  intros Hd Hne. unfold int_of_str. rewrite strip_digits by exact Hd.
  rewrite chars_str.
  pose proof (count_digits_all l Hd) as Hcount.
  pose proof (digits_value_digits l 0 false Hd (or_introl Hne)) as Hval.
  destruct l as [|c l]; [congruence|].
  assert (Hc : is_digit c = true) by (cbn in Hd; apply andb_prop in Hd; tauto).
  destruct c as [[] [] [] [] [] [] [] []];
    first [ discriminate Hc
          | cbv beta iota; unfold int_digits; rewrite Hcount;
            destruct (MAX_STR_DIGITS <? _); [reflexivity|exact Hval] ].
Qed.

Lemma int_of_str_digits (l : list ascii) :
  forallb is_digit l = true -> l <> [] ->
  Z.of_nat (length l) <= MAX_STR_DIGITS ->
  int_of_str (str l)
  = Some (fold_left (fun a c => 10 * a + Z.of_nat (nat_of_ascii c - 48)) l 0).
Proof.
  intros Hd Hne Hlen. rewrite (int_of_str_digits_limit l Hd Hne).
  replace (MAX_STR_DIGITS <? Z.of_nat (length l)) with false
    by (symmetry; apply Z.ltb_ge; exact Hlen).
  reflexivity.
Qed.

Lemma digit_value_le (c : ascii) :
  is_digit c = true -> 0 <= Z.of_nat (nat_of_ascii c - 48) <= 9.
Proof.
  unfold is_digit. intros H. apply andb_prop in H. destruct H as [H1 H2].
  apply Nat.leb_le in H1. apply Nat.leb_le in H2. lia.
Qed.

(** The number that [k] digits spell is below [10^k]. *)
Lemma digits_fold_bound (l : list ascii) :
  forallb is_digit l = true ->
  forall acc, 0 <= acc ->
    0 <= fold_left (fun a c => 10 * a + Z.of_nat (nat_of_ascii c - 48)) l acc
    /\ fold_left (fun a c => 10 * a + Z.of_nat (nat_of_ascii c - 48)) l acc + 1
       <= (acc + 1) * 10 ^ Z.of_nat (length l).
Proof.
  induction l as [|c l IH]; intros Hd acc Hacc.
  - cbn. lia.
  - cbn [forallb] in Hd. apply andb_prop in Hd. destruct Hd as [Hc Hl].
    pose proof (digit_value_le c Hc) as Hv.
    cbn [fold_left length]. rewrite Nat2Z.inj_succ, Z.pow_succ_r by lia.
    destruct (IH Hl (10 * acc + Z.of_nat (nat_of_ascii c - 48))) as [H1 H2]; [lia|].
    split; [exact H1|].
    assert (Hp : 0 < 10 ^ Z.of_nat (length l)) by (apply Z.pow_pos_nonneg; lia).
    nia.
Qed.

Lemma length_str (l : list ascii) : String.length (str l) = length l.
Proof.
  unfold str. induction l as [|c l IH]; [reflexivity|].
  cbn [string_of_list_ascii String.length length]. f_equal. exact IH.
Qed.

Lemma length_append (a b : string) :
  String.length (String.append a b) = (String.length a + String.length b)%nat.
Proof.
  induction a as [|c a IH]; [reflexivity|].
  change (S (String.length (String.append a b))
          = S (String.length a + String.length b)).
  f_equal. exact IH.
Qed.

Lemma digit_char_spec (d : Z) :
  0 <= d < 10 ->
  is_digit (digit_char d) = true /\
  Z.of_nat (nat_of_ascii (digit_char d) - 48) = d.
Proof.
  intros H. unfold digit_char, is_digit.
  rewrite nat_ascii_embedding by lia. split.
  - apply andb_true_intro. split; apply Nat.leb_le; lia.
  - lia.
Qed.

Lemma digits_of_spec :
  forall fuel n,
    (0 < fuel)%nat -> 0 <= n < 2 ^ Z.of_nat fuel ->
    forallb is_digit (digits_of fuel n) = true /\
    digits_of fuel n <> [] /\
    fold_left (fun a c => 10 * a + Z.of_nat (nat_of_ascii c - 48)) (digits_of fuel n) 0
    = n /\
    (n <> 0 -> hd "0"%char (digits_of fuel n) <> "0"%char).
Proof.
  induction fuel as [|fuel IH]; intros n Hf Hn; [lia|].
  cbn [digits_of]. destruct (n <? 10) eqn:E.
  - apply Z.ltb_lt in E. destruct (digit_char_spec n) as [H1 H2]; [lia|].
    cbn [forallb fold_left hd]. rewrite H1, H2. split; [reflexivity|].
    split; [discriminate|]. split; [lia|].
    intros Hn0 Heq. rewrite Heq in H2. change (0 = n) in H2. lia.
  - apply Z.ltb_ge in E.
    assert (Hq : 1 <= n / 10) by (apply Z.div_le_lower_bound; lia).
    assert (Hq2 : n / 10 < 2 ^ Z.of_nat fuel).
    { rewrite Nat2Z.inj_succ, Z.pow_succ_r in Hn by lia.
      apply Z.div_lt_upper_bound; lia. }
    assert (Hfuel : (0 < fuel)%nat).
    { destruct fuel; [cbn in Hq2; lia|lia]. }
    destruct (IH (n / 10) Hfuel) as (H1 & H2 & H3 & H4); [lia|].
    destruct (digit_char_spec (n mod 10)) as [H5 H6];
      [apply Z.mod_pos_bound; lia|].
    rewrite forallb_app, fold_left_app. cbn [forallb fold_left].
    rewrite H1, H5, H3, H6. split; [reflexivity|].
    split; [destruct (digits_of fuel (n / 10)); discriminate|].
    split; [pose proof (Z.div_mod n 10); lia|].
    intros _. destruct (digits_of fuel (n / 10)) as [|c r]; [congruence|].
    cbn [app hd]. apply H4. lia.
Qed.

Lemma digits_of_length_le :
  forall (k fuel : nat) (n : Z),
    0 <= n < 10 ^ Z.of_nat (S k) -> (length (digits_of fuel n) <= S k)%nat.
Proof.
  induction k as [|k IH]; intros [|fuel] n Hn; cbn [digits_of length]; try lia.
  - change (10 ^ Z.of_nat 1) with 10 in Hn.
    replace (n <? 10) with true by (symmetry; apply Z.ltb_lt; lia). cbn. lia.
  - destruct (n <? 10) eqn:E; [cbn; lia|]. apply Z.ltb_ge in E.
    rewrite length_app. cbn [length].
    assert (Hq : 0 <= n / 10 < 10 ^ Z.of_nat (S k)).
    { rewrite (Nat2Z.inj_succ (S k)), Z.pow_succ_r in Hn by lia. split.
      - apply Z.div_pos; lia.
      - apply Z.div_lt_upper_bound; lia. }
    pose proof (IH fuel (n / 10) Hq). lia.
Qed.

Lemma log2_fuel (n : Z) : 0 <= n -> 0 <= n < 2 ^ Z.of_nat (S (Z.to_nat (Z.log2 n))).
Proof.
  intros H. split; [exact H|].
  rewrite Nat2Z.inj_succ, Z2Nat.id by apply Z.log2_nonneg.
  destruct (Z.eq_dec n 0) as [->|Hn]; [reflexivity|].
  apply Z.log2_spec. lia.
Qed.

(** The writing of a natural number: digits only, and they spell the
    number. *)
Lemma str_of_int_digits (n : Z) :
  0 <= n ->
  exists l, str_of_int n = str l /\ forallb is_digit l = true /\ l <> [] /\
            fold_left (fun a c => 10 * a + Z.of_nat (nat_of_ascii c - 48)) l 0 = n.
Proof.
  intros Hn. unfold str_of_int.
  replace (n <? 0) with false by (symmetry; apply Z.ltb_ge; lia).
  destruct (digits_of_spec (S (Z.to_nat (Z.log2 n))) n) as (H1 & H2 & H3 & H4);
    [lia|apply log2_fuel; exact Hn|].
  eexists. split; [reflexivity|]. split; [exact H1|]. split; [exact H2|exact H3].
Qed.

(** [str(n)] of a natural number that [str] takes: digits only, no more
    than [MAX_STR_DIGITS], and [int] reads the number back. *)
Lemma str_of_int_nonneg (n : Z) :
  0 <= n < 10 ^ MAX_STR_DIGITS ->
  exists l, str_of_int n = str l /\ forallb is_digit l = true /\ l <> [] /\
            Z.of_nat (length l) <= MAX_STR_DIGITS /\
            int_of_str (str l) = Some n.
Proof.
  intros Hn. unfold str_of_int.
  replace (n <? 0) with false by (symmetry; apply Z.ltb_ge; lia).
  destruct (digits_of_spec (S (Z.to_nat (Z.log2 n))) n) as (H1 & H2 & H3 & H4);
    [lia|apply log2_fuel; lia|].
  assert (Hlen : Z.of_nat (length (digits_of (S (Z.to_nat (Z.log2 n))) n))
                 <= MAX_STR_DIGITS).
  { pose proof (digits_of_length_le 4299 (S (Z.to_nat (Z.log2 n))) n) as Hl.
    change (Z.of_nat 4300) with MAX_STR_DIGITS in Hl. specialize (Hl Hn).
    unfold MAX_STR_DIGITS. lia. }
  eexists. split; [reflexivity|]. split; [exact H1|]. split; [exact H2|].
  split; [exact Hlen|].
  rewrite int_of_str_digits by assumption. f_equal. exact H3.
Qed.

Lemma isdigit_str (l : list ascii) :
  isdigit (str l) = match l with [] => false | _ => forallb is_digit l end.
Proof. unfold isdigit. rewrite chars_str. destruct l; reflexivity. Qed.

Lemma str_app (a b : list ascii) : String.append (str a) (str b) = str (a ++ b).
Proof.
  rewrite <- (str_chars (String.append (str a) (str b))).
  rewrite chars_append, !chars_str. reflexivity.
Qed.

Lemma lstrip_chars_head (l : list ascii) :
  match lstrip_chars l with [] => True | c :: _ => is_space c = false end.
Proof.
  induction l as [|c l IH]; [exact I|].
  cbn [lstrip_chars]. destruct (is_space c) eqn:E; [exact IH|exact E].
Qed.

Lemma lstrip_chars_snoc (l : list ascii) (c : ascii) :
  is_space c = false -> lstrip_chars (l ++ [c]) = lstrip_chars l ++ [c].
Proof.
  intros Hc. induction l as [|x l IH]; cbn [app lstrip_chars].
  - rewrite Hc. reflexivity.
  - destruct (is_space x); [exact IH|reflexivity].
Qed.

(** Stripping on the right keeps a first character that is no blank. *)
Lemma rstrip_chars_head (l : list ascii) :
  match l with [] => True | c :: _ => is_space c = false end ->
  match rev (lstrip_chars (rev l)) with
  | [] => True
  | c :: _ => is_space c = false
  end.
Proof.
  destruct l as [|c t]; [intros _; exact I|]. intros Hc.
  cbn [rev]. rewrite lstrip_chars_snoc by exact Hc.
  rewrite rev_app_distr. cbn [rev app]. exact Hc.
Qed.

(** [strip] on a stripped string changes nothing. *)
Lemma strip_strip (s : string) : strip (strip s) = strip s.
Proof.
  unfold strip. rewrite chars_str. f_equal.
  rewrite (lstrip_chars_no_space (rev (lstrip_chars (rev (lstrip_chars (chars s)))))).
  - rewrite rev_involutive.
    rewrite (lstrip_chars_no_space (lstrip_chars _)); [reflexivity|].
    apply lstrip_chars_head.
  - apply rstrip_chars_head. apply lstrip_chars_head.
Qed.

Lemma int_of_str_strip (s : string) : int_of_str (strip s) = int_of_str s.
Proof. unfold int_of_str. rewrite strip_strip. reflexivity. Qed.

Lemma strip_empty_chars (s : string) : strip s = "" <-> chars (strip s) = [].
Proof.
  split; [intros ->; reflexivity|].
  intros H. rewrite <- (str_chars (strip s)), H. reflexivity.
Qed.

(** *** One character as the separator *)

Lemma is_prefix_one (c x : ascii) (l : list ascii) :
  is_prefix [c] (x :: l) = Ascii.eqb c x.
Proof. cbn. destruct (Ascii.eqb c x); reflexivity. Qed.

Lemma contains_one (c : ascii) (l : list ascii) :
  contains_chars [c] l = existsb (Ascii.eqb c) l.
Proof.
  induction l as [|x l IH]; [reflexivity|].
  cbn [contains_chars existsb]. rewrite is_prefix_one, IH. reflexivity.
Qed.

Lemma contains_one_app (c : string) (a b : string) :
  length (chars c) = 1%nat ->
  contains c (String.append a b) = contains c a || contains c b.
Proof.
  unfold contains. destruct (chars c) as [|x [|y r]]; try discriminate. intros _.
  rewrite chars_append, !contains_one. apply existsb_app.
Qed.

Lemma split_one_without (c : ascii) (l : list ascii) :
  forall cur, existsb (Ascii.eqb c) l = false ->
              split_sep_aux [c] 0 cur l = [str (rev cur ++ l)].
Proof.
  induction l as [|x l IH]; intros cur H.
  - cbn. rewrite app_nil_r. reflexivity.
  - cbn [existsb] in H. apply orb_false_elim in H. destruct H as [Hx Hl].
    cbn [split_sep_aux]. rewrite is_prefix_one, Hx, (IH (x :: cur) Hl).
    cbn [rev]. rewrite <- app_assoc. reflexivity.
Qed.

Lemma split_one_at (c : ascii) (a b : list ascii) :
  forall cur, existsb (Ascii.eqb c) a = false ->
              split_sep_aux [c] 0 cur (a ++ c :: b)
              = str (rev cur ++ a) :: split_sep_aux [c] 0 [] b.
Proof.
  induction a as [|x a IH]; intros cur H.
  - cbn [app split_sep_aux]. rewrite is_prefix_one, Ascii.eqb_refl.
    rewrite app_nil_r. reflexivity.
  - cbn [existsb] in H. apply orb_false_elim in H. destruct H as [Hx Ha].
    cbn [app split_sep_aux]. rewrite is_prefix_one, Hx, (IH (x :: cur) Ha).
    cbn [rev]. rewrite <- app_assoc. reflexivity.
Qed.

Lemma split_sep_aux_length (sep : list ascii) (l : list ascii) :
  forall skip cur, (1 <= length (split_sep_aux sep skip cur l))%nat.
Proof.
  induction l as [|x l IH]; intros skip cur; cbn [split_sep_aux].
  - cbn. lia.
  - destruct skip; [|apply IH].
    destruct (is_prefix sep (x :: l)); [cbn [length]; lia|apply IH].
Qed.

(** [(a + c + b).split(c)] when [c] is one character that [a] does not
    hold: [a], then the parts of [b]. *)
Lemma split_sep_at (c : ascii) (a b : string) :
  contains (String c "") a = false ->
  split_sep (String.append a (String c b)) (String c "")
  = a :: split_sep b (String c "").
Proof.
  unfold contains, split_sep. rewrite chars_append.
  change (chars (String c "")) with [c]. change (chars (String c b)) with (c :: chars b).
  rewrite contains_one. intros H. rewrite (split_one_at c _ _ [] H).
  cbn [rev app]. rewrite str_chars. reflexivity.
Qed.

Lemma split_sep_without (c : ascii) (a : string) :
  contains (String c "") a = false -> split_sep a (String c "") = [a].
Proof.
  unfold contains, split_sep. change (chars (String c "")) with [c].
  rewrite contains_one. intros H. rewrite (split_one_without c _ [] H).
  cbn [rev app]. rewrite str_chars. reflexivity.
Qed.

End Text.

(** ** Khaadi: the helpers of the detail record *)

Section DetailHelpers.
Import Py PyMore Khaadi KhaadiDetails.

Local Open Scope string_scope.
Local Open Scope list_scope.
Local Open Scope Z_scope.

Lemma isdigit_chars (s : string) :
  isdigit s = true -> forallb is_digit (chars s) = true /\ chars s <> [].
Proof.
  unfold isdigit. destruct (chars s) as [|c l]; [discriminate|].
  intros H. split; [exact H|discriminate].
Qed.

Lemma py_str_small (n : Z) :
  0 <= n < 10 ^ MAX_STR_DIGITS -> py_str n = Some (str_of_int n).
Proof.
  intros H. unfold py_str.
  replace (10 ^ MAX_STR_DIGITS <=? Z.abs n) with false; [reflexivity|].
  symmetry. apply Z.leb_gt. rewrite Z.abs_eq; lia.
Qed.

(** A size made of digits, no more than [int] takes, is replaced by the
    usual writing of its number; a longer one is left as it is. *)
Lemma format_size_value_digits (s : string) :
  isdigit s = true ->
  (Z.of_nat (length (chars s)) <= MAX_STR_DIGITS /\
   exists n, 0 <= n < 10 ^ MAX_STR_DIGITS /\ int_of_str s = Some n /\
             _format_size_value s = str_of_int n) \/
  (MAX_STR_DIGITS < Z.of_nat (length (chars s)) /\
   int_of_str s = None /\ _format_size_value s = s).
Proof.
  intros Hd. destruct (isdigit_chars s Hd) as [Hall Hne].
  pose proof (int_of_str_digits_limit (chars s) Hall Hne) as Hi.
  rewrite str_chars in Hi.
  destruct (MAX_STR_DIGITS <? Z.of_nat (length (chars s))) eqn:E.
  - right. apply Z.ltb_lt in E. split; [exact E|]. split; [exact Hi|].
    unfold _format_size_value. rewrite Hd, Hi. reflexivity.
  - left. apply Z.ltb_ge in E. split; [exact E|].
    destruct (digits_fold_bound (chars s) Hall 0 (Z.le_refl 0)) as [H0 H1].
    assert (Hn : 0 <= fold_left (fun a c => 10 * a + Z.of_nat (nat_of_ascii c - 48))
                        (chars s) 0 < 10 ^ MAX_STR_DIGITS).
    { split; [exact H0|].
      assert (10 ^ Z.of_nat (length (chars s)) <= 10 ^ MAX_STR_DIGITS)
        by (apply Z.pow_le_mono_r; lia).
      lia. }
    eexists. split; [exact Hn|]. split; [exact Hi|].
    unfold _format_size_value. rewrite Hd, Hi, (py_str_small _ Hn). reflexivity.
Qed.

Lemma isdigit_str_of_int (n : Z) : 0 <= n -> isdigit (str_of_int n) = true.
Proof.
  intros Hn. destruct (str_of_int_digits n Hn) as (l & -> & Hall & Hne & _).
  rewrite isdigit_str. destruct l; [congruence|exact Hall].
Qed.

Lemma int_of_str_str_of_int (n : Z) :
  0 <= n < 10 ^ MAX_STR_DIGITS -> int_of_str (str_of_int n) = Some n.
Proof.
  intros Hn. destruct (str_of_int_nonneg n Hn) as (l & -> & _ & _ & _ & Hi).
  exact Hi.
Qed.

(** X8. [_format_size_value] changes the writing of a size, never its
    number: [int] reads the same from the result as from the argument (or
    fails on both); and formatting a formatted size changes nothing. *)
Theorem format_size_value_is_idempotent (size_value : string) :
  _format_size_value (_format_size_value size_value) = _format_size_value size_value /\
  int_of_str (_format_size_value size_value) = int_of_str size_value.
Proof.
  destruct (isdigit size_value) eqn:Hd.
  - destruct (format_size_value_digits size_value Hd)
      as [(_ & n & Hn & Hi & ->)|(_ & _ & Hs)];
      [|rewrite !Hs; split; reflexivity].
    split.
    + unfold _format_size_value.
      rewrite isdigit_str_of_int by lia.
      rewrite int_of_str_str_of_int, py_str_small by exact Hn. reflexivity.
    + rewrite int_of_str_str_of_int by exact Hn. symmetry. exact Hi.
  - unfold _format_size_value. rewrite Hd. rewrite Hd. auto.
Qed.

Lemma zeros_fold (k : nat) :
  fold_left (fun a c => 10 * a + Z.of_nat (nat_of_ascii c - 48))
    (repeat "0"%char k) 0 = 0.
Proof. induction k as [|k IH]; [reflexivity|]. cbn [repeat fold_left]. exact IH. Qed.

Lemma zeros_digits (k : nat) : forallb is_digit (repeat "0"%char k) = true.
Proof. induction k as [|k IH]; [reflexivity|]. cbn [repeat forallb]. exact IH. Qed.

(** X9. Zeros in front of a size number are dropped: a size written as any
    number of zeros followed by the usual writing of [n], no more than
    [MAX_STR_DIGITS] digits in all, becomes the usual writing of [n]
    (["008"] becomes ["8"], ["000"] becomes ["0"]). *)
Theorem format_size_value_drops_leading_zeros (k : nat) (n : Z) :
  0 <= n ->
  Z.of_nat k + Z.of_nat (String.length (str_of_int n)) <= MAX_STR_DIGITS ->
  _format_size_value (String.append (str (repeat "0"%char k)) (str_of_int n))
  = str_of_int n.
Proof.
  intros Hn Hlen.
  destruct (str_of_int_digits n Hn) as (l & El & Hall & Hne & Hv).
  rewrite El in Hlen. rewrite length_str in Hlen.
  rewrite El at 1. rewrite str_app.
  assert (Hall' : forallb is_digit (repeat "0"%char k ++ l) = true)
    by (rewrite forallb_app, zeros_digits, Hall; reflexivity).
  assert (Hne' : repeat "0"%char k ++ l <> [])
    by (destruct (repeat "0"%char k); [exact Hne|discriminate]).
  assert (Hlen' : Z.of_nat (length (repeat "0"%char k ++ l)) <= MAX_STR_DIGITS)
    by (rewrite length_app, repeat_length; lia).
  assert (Hbound : 0 <= n < 10 ^ MAX_STR_DIGITS).
  { split; [exact Hn|].
    destruct (digits_fold_bound l Hall 0 (Z.le_refl 0)) as [_ H1]. rewrite Hv in H1.
    assert (10 ^ Z.of_nat (length l) <= 10 ^ MAX_STR_DIGITS)
      by (apply Z.pow_le_mono_r; lia).
    lia. }
  unfold _format_size_value. rewrite isdigit_str.
  rewrite (int_of_str_digits _ Hall' Hne' Hlen').
  rewrite fold_left_app, zeros_fold, Hv, (py_str_small n Hbound).
  destruct (repeat "0"%char k ++ l); [congruence|]. rewrite Hall'. reflexivity.
Qed.

(** *** The month of a launch date *)

Lemma contains_one_head (c : ascii) (b : string) :
  contains (String c "") (String c b) = true.
Proof.
  unfold contains. change (chars (String c "")) with [c].
  change (chars (String c b)) with (c :: chars b).
  rewrite contains_one. cbn [existsb]. rewrite Ascii.eqb_refl. reflexivity.
Qed.

Lemma contains_one_skip (c d : ascii) (b : string) :
  Ascii.eqb c d = false ->
  contains (String c "") (String d b) = contains (String c "") b.
Proof.
  intros H. unfold contains. change (chars (String c "")) with [c].
  change (chars (String d b)) with (d :: chars b).
  rewrite !contains_one. cbn [existsb]. rewrite H. reflexivity.
Qed.

Lemma truthy_append_one (a : string) (c : ascii) (b : string) :
  truthy (String.append a (String c b)) = true.
Proof. destruct a; reflexivity. Qed.

Lemma digits_without (c : ascii) (l : list ascii) :
  is_digit c = false -> forallb is_digit l = true ->
  existsb (Ascii.eqb c) l = false.
Proof.
  intros Hc. induction l as [|x l IH]; [reflexivity|].
  cbn [forallb existsb]. intros H. apply andb_prop in H. destruct H as [Hx Hl].
  rewrite (IH Hl), orb_false_r.
  destruct (Ascii.eqb c x) eqn:E; [|reflexivity].
  apply Ascii.eqb_eq in E. congruence.
Qed.

Lemma contains_one_digits (c : ascii) (l : list ascii) :
  is_digit c = false -> forallb is_digit l = true ->
  contains (String c "") (str l) = false.
Proof.
  intros Hc Hl. unfold contains. change (chars (String c "")) with [c].
  rewrite chars_str, contains_one. apply digits_without; assumption.
Qed.

Lemma more_than_one_part (a : string) (rest : list string) :
  (1 <=? 0)%nat = false -> (1 <= length rest)%nat ->
  (1 <? Z.of_nat (length (a :: rest))) = true.
Proof. intros _ H. apply Z.ltb_lt. cbn [length]. lia. Qed.


(** The path of a string with a dash and no dot: what stands between the
    first dash and the next one is handed to [int]. *)
Lemma process_launch_date_dash (a b : string) :
  contains "." a = false -> contains "." b = false ->
  contains "-" a = false ->
  _process_launch_date (String.append a (String.append "-" b))
  = int_of_str (Sapphire.word 0 (split_sep b "-")).
Proof.
  intros Ha Hb Hd. change (String.append "-" b) with (String "-"%char b).
  unfold _process_launch_date.
  rewrite truthy_append_one. cbn [negb].
  rewrite (contains_one_app "." a (String "-"%char b) eq_refl).
  rewrite (contains_one_skip "."%char "-"%char b eq_refl), Ha, Hb.
  cbn [orb andb].
  rewrite (contains_one_app "-" a (String "-"%char b) eq_refl).
  rewrite contains_one_head, orb_true_r.
  rewrite (split_sep_at "-"%char a b Hd).
  rewrite more_than_one_part;
    [|reflexivity|apply split_sep_aux_length].
  cbn [andb].
  assert (Hw : Sapphire.word 1 (a :: split_sep b "-")
               = Sapphire.word 0 (split_sep b "-")).
  { pose proof (split_sep_aux_length (chars "-") (chars b) 0 []) as Hl.
    unfold split_sep. destruct (split_sep_aux (chars "-") 0 [] (chars b));
      [cbn in Hl; lia|reflexivity]. }
  rewrite Hw. apply int_of_str_strip.
Qed.



(** X12. The month that [_process_launch_date] returns is not checked
    against 1..12: the usual writing of any natural number [n] that [int]
    takes gives [n]. And a minus sign is taken for the dash of a date: the
    writing of [-n] gives [n], not [-n]. *)
Theorem launch_date_month_is_not_range_checked (n : Z) :
  0 <= n < 10 ^ MAX_STR_DIGITS ->
  _process_launch_date (str_of_int n) = Some n /\
  _process_launch_date (String.append "-" (str_of_int n)) = Some n.
Proof.
  intros Hn.
  destruct (str_of_int_nonneg n Hn) as (l & El & Hall & Hne & _ & Hi).
  assert (Hdot : contains "." (str_of_int n) = false)
    by (rewrite El; apply contains_one_digits; [reflexivity|exact Hall]).
  assert (Hdash : contains "-" (str_of_int n) = false)
    by (rewrite El; apply contains_one_digits; [reflexivity|exact Hall]).
  split.
  - unfold _process_launch_date. rewrite Hdot, Hdash. cbn [andb].
    replace (truthy (str_of_int n)) with true.
    + cbn [negb]. rewrite El. exact Hi.
    + rewrite El. destruct l; [congruence|reflexivity].
  - change (String.append "-" (str_of_int n))
      with (String.append "" (String.append "-" (str_of_int n))).
    rewrite (process_launch_date_dash "" (str_of_int n) eq_refl Hdot eq_refl).
    rewrite (split_sep_without "-"%char _ Hdash).
    change (Sapphire.word 0 [str_of_int n]) with (str_of_int n).
    rewrite El. exact Hi.
Qed.

End DetailHelpers.

Section DetailHelpersExamples.
Import Py PyMore Khaadi KhaadiDetails.

Local Open Scope string_scope.
Local Open Scope list_scope.
Local Open Scope Z_scope.

Lemma format_size_value_drops_leading_zeros_witness :
  _format_size_value "008" = "8".
Proof.
  apply (format_size_value_drops_leading_zeros 2 8).
  - lia.
  - vm_compute. discriminate.
Defined.



Lemma launch_date_month_is_not_range_checked_witness :
  _process_launch_date "13" = Some 13 /\ _process_launch_date "-13" = Some 13.
Proof.
  apply (launch_date_month_is_not_range_checked 13).
  split; [lia|vm_compute; reflexivity].
Defined.

End DetailHelpersExamples.

(** ** Khaadi: the collection and the launch time *)

Section Seasons.
Import Py PyMore Khaadi KhaadiDetails.

Local Open Scope string_scope.
Local Open Scope list_scope.
Local Open Scope Z_scope.

Lemma truthy_false (s : string) : truthy s = false <-> s = "".
Proof. destruct s; cbn; split; congruence. Qed.

Lemma title_chars_nil (l : list ascii) :
  forall b, Sapphire.title_chars b l = [] <-> l = [].
Proof.
  destruct l as [|c l]; intros b; [tauto|].
  cbn [Sapphire.title_chars]. destruct (is_upper c || is_lower c); split; discriminate.
Qed.

Lemma title_empty (s : string) : Sapphire.title s = "" <-> s = "".
Proof.
  unfold Sapphire.title. split.
  - intros H. apply (f_equal chars) in H. rewrite chars_str in H.
    change (chars "") with (@nil ascii) in H. apply title_chars_nil in H.
    rewrite <- (str_chars s), H. reflexivity.
  - intros ->. reflexivity.
Qed.

(** What [title] does to a letter is not undone by [lower] and done again
    by [title]. *)
Lemma title_char_again (c : ascii) (b : bool) :
  (is_upper c || is_lower c) = true ->
  (is_upper (lower_char (if b then lower_char c else upper_char c))
   || is_lower (lower_char (if b then lower_char c else upper_char c))) = true /\
  (if b
   then lower_char (lower_char (if b then lower_char c else upper_char c))
   else upper_char (lower_char (if b then lower_char c else upper_char c)))
  = (if b then lower_char c else upper_char c).
Proof.
  destruct c as [[] [] [] [] [] [] [] []]; destruct b; vm_compute;
    solve [discriminate | intros _; split; reflexivity].
Qed.

Lemma lower_char_other (c : ascii) :
  (is_upper c || is_lower c) = false -> lower_char c = c.
Proof.
  intros H. apply orb_false_elim in H. destruct H as [H _].
  unfold lower_char. rewrite H. reflexivity.
Qed.

Lemma title_chars_again (l : list ascii) :
  forall b,
    Sapphire.title_chars b (map lower_char (Sapphire.title_chars b l))
    = Sapphire.title_chars b l.
Proof.
  induction l as [|c l IH]; intros b; [reflexivity|].
  cbn [Sapphire.title_chars].
  destruct (is_upper c || is_lower c) eqn:E.
  - cbn [map Sapphire.title_chars].
    destruct (title_char_again c b E) as [H1 H2]. rewrite H1, H2, IH. reflexivity.
  - cbn [map Sapphire.title_chars].
    rewrite (lower_char_other c E), E, IH. reflexivity.
Qed.

(** A title-cased text is fixed by its lower-case form. *)
Lemma title_of_lower (y w : string) :
  lower (Sapphire.title y) = w -> Sapphire.title y = Sapphire.title w.
Proof.
  intros <-. unfold Sapphire.title, lower. rewrite !chars_str.
  rewrite title_chars_again. reflexivity.
Qed.

Lemma with_year_is_not_the_default (d y : string) :
  String.append d (String.append " " y) <> "Collection".
Proof.
  intros H. apply (f_equal chars) in H. rewrite chars_append in H.
  change (chars (String.append " " y)) with (" "%char :: chars y) in H.
  assert (Hin : In " "%char (chars "Collection")).
  { rewrite <- H. apply in_or_app. right. left. reflexivity. }
  vm_compute in Hin. repeat (destruct Hin as [Hin|Hin]; [discriminate|]).
  exact Hin.
Qed.

Lemma month_to_season_valid (m : Z) :
  1 <= m <= 12 ->
  In (month_to_season m) ["Winter"; "Spring"; "Summer"; "Fall"].
Proof.
  intros H.
  assert (Hm : m = 1 \/ m = 2 \/ m = 3 \/ m = 4 \/ m = 5 \/ m = 6 \/ m = 7 \/
               m = 8 \/ m = 9 \/ m = 10 \/ m = 11 \/ m = 12) by lia.
  repeat (destruct Hm as [->|Hm]); try subst m; cbn; tauto.
Qed.

Lemma month_to_season_other (m : Z) :
  m < 1 \/ 12 < m -> month_to_season m = "".
Proof.
  intros H. unfold month_to_season.
  repeat (match goal with
          | |- context [?a =? ?b] =>
              replace (a =? b) with false by (symmetry; apply Z.eqb_neq; lia)
          end).
  reflexivity.
Qed.

(** The season that the month gives: empty without a month in 1..12. *)
Lemma natural_season_empty (month : option Z) :
  match month with
  | Some m => if month_truthy month then month_to_season m else ""
  | None => ""
  end = "" <->
  match month with Some m => m < 1 \/ 12 < m | None => True end.
Proof.
  destruct month as [m|]; [|tauto]. cbn [month_truthy].
  destruct (Z.eq_dec m 0) as [->|H0]; [cbn; split; [lia|reflexivity]|].
  replace (m =? 0) with false by (symmetry; apply Z.eqb_neq; exact H0).
  cbn [negb]. split.
  - intros H. destruct (Z_lt_le_dec m 1) as [|H1]; [auto|].
    destruct (Z_lt_le_dec 12 m) as [|H2]; [auto|].
    pose proof (month_to_season_valid m (conj H1 H2)) as Hin. rewrite H in Hin.
    cbn in Hin. repeat (destruct Hin as [Hin|Hin]; [discriminate|]). destruct Hin.
  - apply month_to_season_other.
Qed.

Lemma formatted_season_empty (season : string) :
  (if truthy season then Sapphire.title (strip season) else "") = ""
  <-> strip season = "".
Proof.
  destruct (truthy season) eqn:E.
  - apply title_empty.
  - apply truthy_false in E. subst season. split; reflexivity.
Qed.

(** X13. In any year of the calendar, [_combine_season_info] falls back to
    ["Collection"] exactly when it has nothing to go by: the season text is
    blank and the month is missing or outside 1..12. *)
Theorem collection_is_the_default_without_information
  (current_year : Z) (month : option Z) (season : string) :
  1 <= current_year <= 9999 ->
  _combine_season_info current_year month season = "Collection" <->
  strip season = "" /\
  match month with Some m => m < 1 \/ 12 < m | None => True end.
Proof.
  intros _.
  rewrite <- (formatted_season_empty season), <- (natural_season_empty month).
  unfold _combine_season_info.
  set (natural := match month with
                  | Some m => if month_truthy month then month_to_season m else ""
                  | None => ""
                  end).
  set (formatted := if truthy season then Sapphire.title (strip season) else "").
  destruct (truthy formatted) eqn:Ef; destruct (truthy natural) eqn:En; cbn [andb].
  - split.
    + destruct (Sapphire.mem _ _); intros H; apply with_year_is_not_the_default in H;
        destruct H.
    + intros [H _]. rewrite H in Ef. discriminate.
  - split.
    + intros H. apply with_year_is_not_the_default in H. destruct H.
    + intros [H _]. rewrite H in Ef. discriminate.
  - split.
    + intros H. apply with_year_is_not_the_default in H. destruct H.
    + intros [_ H]. rewrite H in En. discriminate.
  - apply truthy_false in Ef, En. tauto.
Qed.

Lemma season_names (f : string) (y : string) :
  f = Sapphire.title y ->
  Sapphire.mem (lower f) ["summer"; "winter"; "spring"; "fall"; "autumn"] = true ->
  In (if String.eqb (lower f) "autumn" then "Fall" else f)
     ["Winter"; "Spring"; "Summer"; "Fall"].
Proof.
  intros -> Hm. unfold Sapphire.mem in Hm. cbn [existsb] in Hm.
  repeat (apply orb_prop in Hm; destruct Hm as [Hm|Hm]); try discriminate;
    apply String.eqb_eq in Hm; rewrite Hm;
    apply title_of_lower in Hm; rewrite Hm; vm_compute; tauto.
Qed.

(** X14. In any year of the calendar and with a month in 1..12, the
    collection is always one of the four season names followed by the
    current year, whatever the season text says: a text that is no season
    name is dropped for the month's season, and [Autumn] is written
    [Fall]. *)
Theorem valid_month_gives_one_of_four_seasons
  (current_year m : Z) (season : string) :
  1 <= current_year <= 9999 ->
  1 <= m <= 12 ->
  exists name,
    In name ["Winter"; "Spring"; "Summer"; "Fall"] /\
    _combine_season_info current_year (Some m) season
    = String.append name (String.append " " (str_of_int current_year)).
Proof.
  intros _ Hm. unfold _combine_season_info. cbn [month_truthy].
  replace (m =? 0) with false by (symmetry; apply Z.eqb_neq; lia). cbn [negb].
  pose proof (month_to_season_valid m Hm) as Hn.
  set (natural := month_to_season m) in *.
  assert (Hnat : truthy natural = true /\ String.eqb (lower natural) "autumn" = false).
  { cbn in Hn. repeat (destruct Hn as [<-|Hn]; [split; reflexivity|]). destruct Hn. }
  destruct Hnat as [Hnt Hna]. rewrite Hnt.
  set (formatted := if truthy season then Sapphire.title (strip season) else "").
  destruct (truthy formatted) eqn:Ef; cbn [andb].
  - destruct (Sapphire.mem (lower formatted) _) eqn:Em.
    + eexists. split; [|reflexivity].
      apply (season_names formatted (strip season)); [|exact Em].
      unfold formatted in *. destruct (truthy season); [reflexivity|discriminate].
    + exists natural. rewrite Hna. split; [exact Hn|reflexivity].
  - exists natural. rewrite Hna. split; [exact Hn|reflexivity].
Qed.

End Seasons.

Section SeasonsExamples.
Import Py PyMore Khaadi KhaadiDetails.

Local Open Scope string_scope.
Local Open Scope list_scope.
Local Open Scope Z_scope.

Lemma valid_month_gives_one_of_four_seasons_witness :
  exists name,
    In name ["Winter"; "Spring"; "Summer"; "Fall"] /\
    _combine_season_info 2024 (Some 9) " autumn "
    = String.append name " 2024".
Proof.
  apply (valid_month_gives_one_of_four_seasons 2024 9 " autumn "); lia.
Defined.

Lemma collection_is_the_default_without_information_witness :
  _combine_season_info 2024 (Some 13) "  " = "Collection".
Proof.
  apply (proj2 (collection_is_the_default_without_information 2024 (Some 13) "  "
                  ltac:(lia))).
  split; [reflexivity|right; lia].
Defined.

End SeasonsExamples.

(** ** Khaadi: the launch time and the word lists *)

Section LaunchTime.
Import Py PyMore Khaadi KhaadiDetails.

Local Open Scope string_scope.
Local Open Scope list_scope.
Local Open Scope Z_scope.

Lemma py_str_within (n : Z) :
  Z.abs n < 10 ^ MAX_STR_DIGITS -> py_str n = Some (str_of_int n).
Proof.
  intros H. unfold py_str.
  replace (10 ^ MAX_STR_DIGITS <=? Z.abs n) with false; [reflexivity|].
  symmetry. apply Z.leb_gt. exact H.
Qed.

Lemma small_within (n : Z) : Z.abs n < 10000 -> Z.abs n < 10 ^ MAX_STR_DIGITS.
Proof.
  intros H. apply Z.lt_le_trans with (10 ^ 4); [exact H|].
  apply Z.pow_le_mono_r; unfold MAX_STR_DIGITS; lia.
Qed.

Lemma format_02d_within (n : Z) :
  Z.abs n < 10 ^ MAX_STR_DIGITS -> format_02d n = Some (pad2 (str_of_int n)).
Proof. intros H. unfold format_02d. rewrite (py_str_within n H). reflexivity. Qed.

Lemma year_rule_first_test (current_year current_month m : Z) :
  (if m <? current_month then current_year
   else if (current_month <=? 3) && (10 <=? m) then current_year - 1
        else current_year)
  = if (current_month <=? 3) && (10 <=? m) then current_year - 1 else current_year.
Proof.
  destruct (m <? current_month) eqn:E; [|reflexivity].
  apply Z.ltb_lt in E.
  replace ((current_month <=? 3) && (10 <=? m)) with false; [reflexivity|].
  symmetry. apply andb_false_iff.
  destruct (Z_le_gt_dec current_month 3);
    [right; apply Z.leb_gt; lia|left; apply Z.leb_gt; lia].
Qed.

(** X15. The year of a launch time, at any date of the calendar. For a
    month that the caller gives (not 0, and one that can be written) the
    date string is not looked at, and the year is the previous one exactly
    when the current month is one of the first three and the launch month
    is 10 or more; in every other case, months still to come included, it
    is the current year. A month too long to be written, or no month and
    a date string that gives none, give the current year and month. *)
Theorem launch_time_year_rule (current_year current_month : Z) :
  1 <= current_year <= 9999 ->
  1 <= current_month <= 12 ->
  (forall launch_date_str m,
     m <> 0 -> Z.abs m < 10 ^ MAX_STR_DIGITS ->
     _create_launch_time current_year current_month launch_date_str (Some m)
     = String.append
         (str_of_int (if (current_month <=? 3) && (10 <=? m)
                      then current_year - 1 else current_year))
         (String.append "-" (pad2 (str_of_int m)))) /\
  (forall launch_date_str m,
     10 ^ MAX_STR_DIGITS <= Z.abs m ->
     _create_launch_time current_year current_month launch_date_str (Some m)
     = String.append (str_of_int current_year)
         (String.append "-" (pad2 (str_of_int current_month)))) /\
  (forall launch_date_str,
     _process_launch_date launch_date_str = None ->
     _create_launch_time current_year current_month launch_date_str None
     = String.append (str_of_int current_year)
         (String.append "-" (pad2 (str_of_int current_month)))).
Proof.
  intros _ Hcm. split; [|split].
  - intros s m Hm Hw. apply Z.eqb_neq in Hm.
    unfold _create_launch_time, month_truthy. cbv zeta.
    rewrite Hm. cbn [negb andb]. rewrite Hm. cbn [negb].
    rewrite (format_02d_within m Hw), year_rule_first_test. reflexivity.
  - intros s m Hw.
    assert (Hm : (m =? 0) = false).
    { apply Z.eqb_neq. intros ->.
      assert (0 < 10 ^ MAX_STR_DIGITS) by (apply Z.pow_pos_nonneg; unfold MAX_STR_DIGITS; lia).
      cbn [Z.abs] in Hw. lia. }
    unfold _create_launch_time, month_truthy. cbv zeta.
    rewrite Hm. cbn [negb andb]. rewrite Hm. cbn [negb].
    unfold format_02d, py_str.
    replace (10 ^ MAX_STR_DIGITS <=? Z.abs m) with true
      by (symmetry; apply Z.leb_le; exact Hw).
    reflexivity.
  - intros s Hs. unfold _create_launch_time, month_truthy. cbv zeta.
    cbn [negb andb].
    assert (Hf : format_02d current_month = Some (pad2 (str_of_int current_month)))
      by (apply format_02d_within, small_within; lia).
    destruct (truthy s); rewrite ?Hs; rewrite Hf, year_rule_first_test;
      (replace ((current_month <=? 3) && (10 <=? current_month)) with false;
       [reflexivity|]);
      symmetry; apply andb_false_iff;
      (destruct (Z_le_gt_dec current_month 3);
       [right; apply Z.leb_gt; lia|left; apply Z.leb_gt; lia]).
Qed.

Lemma digits_of_length :
  forall (k fuel : nat) (n : Z),
    (k < fuel)%nat -> 10 ^ Z.of_nat k <= n < 10 ^ Z.of_nat (S k) ->
    length (digits_of fuel n) = S k.
Proof.
  induction k as [|k IH]; intros [|fuel] n Hf Hn; try lia; cbn [digits_of].
  - change (10 ^ Z.of_nat 1) with 10 in Hn.
    replace (n <? 10) with true by (symmetry; apply Z.ltb_lt; lia). reflexivity.
  - rewrite !Nat2Z.inj_succ, !Z.pow_succ_r in Hn by lia.
    assert (Hp : 0 < 10 ^ Z.of_nat k) by (apply Z.pow_pos_nonneg; lia).
    replace (n <? 10) with false by (symmetry; apply Z.ltb_ge; lia).
    rewrite length_app. cbn [length].
    rewrite (IH fuel (n / 10)); [lia|lia|].
    rewrite Nat2Z.inj_succ, Z.pow_succ_r by lia. split.
    + apply Z.div_le_lower_bound; lia.
    + apply Z.div_lt_upper_bound; lia.
Qed.

Lemma four_digit_year (y : Z) :
  1000 <= y <= 9999 -> String.length (str_of_int y) = 4%nat.
Proof.
  intros H. unfold str_of_int.
  replace (y <? 0) with false by (symmetry; apply Z.ltb_ge; lia).
  rewrite length_str. apply (digits_of_length 3).
  - pose proof (Z.log2_le_mono 1000 y (proj1 H)) as Hl.
    change (Z.log2 1000) with 9 in Hl. lia.
  - change (10 ^ Z.of_nat 3) with 1000. change (10 ^ Z.of_nat 4) with 10000. lia.
Qed.

Lemma two_digit_month (m : Z) :
  1 <= m <= 12 -> String.length (pad2 (str_of_int m)) = 2%nat.
Proof.
  intros H.
  assert (Hm : m = 1 \/ m = 2 \/ m = 3 \/ m = 4 \/ m = 5 \/ m = 6 \/ m = 7 \/
               m = 8 \/ m = 9 \/ m = 10 \/ m = 11 \/ m = 12) by lia.
  repeat (destruct Hm as [->|Hm]); try subst m; reflexivity.
Qed.

(** X16. For a month in 1..12 and a four-digit year the launch time has
    the fixed width of [YYYY-MM], seven characters with the month padded
    to two digits, so that launch times sort as text. *)
Theorem launch_time_has_the_width_of_a_year_and_month
  (current_year current_month m : Z) (launch_date_str : string) :
  1000 < current_year <= 9999 ->
  1 <= m <= 12 ->
  String.length
    (_create_launch_time current_year current_month launch_date_str (Some m))
  = 7%nat /\
  String.get 4 (_create_launch_time current_year current_month launch_date_str (Some m))
  = Some "-"%char.
Proof.
  intros Hy Hm.
  assert (Hm0 : (m =? 0) = false) by (apply Z.eqb_neq; lia).
  unfold _create_launch_time, month_truthy. cbv zeta.
  rewrite Hm0. cbn [negb andb]. rewrite Hm0. cbn [negb].
  rewrite (format_02d_within m) by (apply small_within; lia).
  set (year_to_use := if m <? current_month then current_year
                      else if (current_month <=? 3) && (10 <=? m)
                           then current_year - 1 else current_year).
  assert (Hyear : 1000 <= year_to_use <= 9999).
  { unfold year_to_use. destruct (m <? current_month); [lia|].
    destruct ((current_month <=? 3) && (10 <=? m)); lia. }
  pose proof (four_digit_year year_to_use Hyear) as H4.
  pose proof (two_digit_month m Hm) as H2.
  split.
  - rewrite !length_append, H4, H2. reflexivity.
  - destruct (str_of_int year_to_use) as [|c0 [|c1 [|c2 [|c3 [|c4 r]]]]];
      try discriminate H4. reflexivity.
Qed.

(** *** [_convert_to_array] *)

Lemma strip_no_space (l : list ascii) :
  Forall (fun c => is_space c = false) l -> strip (str l) = str l.
Proof.
  intros H. unfold strip. rewrite chars_str. f_equal.
  rewrite (lstrip_chars_no_space l).
  - rewrite (lstrip_chars_no_space (rev l)); [apply rev_involutive|].
    destruct (rev l) as [|c r] eqn:E; [exact I|].
    rewrite Forall_forall in H. apply H. apply list_elem_of_In.
    apply in_rev. rewrite E. left. reflexivity.
  - destruct l as [|c l]; [exact I|]. inversion H; assumption.
Qed.

(** The words of [split]: none is empty, none holds a blank, and their
    characters are characters of the string. *)
Lemma split_ws_aux_words (P : ascii -> Prop) (l : list ascii) :
  forall cur,
    Forall (fun c => is_space c = false /\ P c) cur ->
    Forall P l ->
    Forall (fun w => chars w <> [] /\
                     Forall (fun c => is_space c = false /\ P c) (chars w))
      (split_ws_aux cur l).
Proof.
  assert (Hword : forall cur,
            cur <> [] -> Forall (fun c => is_space c = false /\ P c) cur ->
            chars (str (rev cur)) <> [] /\
            Forall (fun c => is_space c = false /\ P c) (chars (str (rev cur)))).
  { intros cur Hne Hc. rewrite chars_str. split.
    - intros E. apply (f_equal (@rev ascii)) in E. rewrite rev_involutive in E.
      exact (Hne E).
    - apply Forall_rev. exact Hc. }
  induction l as [|c l IH]; intros cur Hcur Hl; cbn [split_ws_aux].
  - destruct cur as [|x cur]; [constructor|].
    constructor; [apply Hword; [discriminate|exact Hcur]|constructor].
  - inversion Hl as [|? ? Hc Hl']; subst.
    destruct (is_space c) eqn:E.
    + destruct cur as [|x cur]; [apply IH; [constructor|exact Hl']|].
      constructor; [apply Hword; [discriminate|exact Hcur]|].
      apply IH; [constructor|exact Hl'].
    + apply IH; [constructor; [split; [exact E|exact Hc]|exact Hcur]|exact Hl'].
Qed.

(** [replace] with one character and the empty string deletes the
    character. *)
Lemma replace_aux_deletes (c : ascii) (l : list ascii) :
  Forall (fun x => x <> c) (replace_aux [c] [] 0 l).
Proof.
  induction l as [|x l IH]; cbn [replace_aux]; [constructor|].
  rewrite is_prefix_one. destruct (Ascii.eqb c x) eqn:E.
  - cbn [app length Nat.sub]. exact IH.
  - constructor; [|exact IH]. intros ->. rewrite Ascii.eqb_refl in E. discriminate.
Qed.

(** X17. For a non-empty string [_convert_to_array] returns the words of
    the string after every pipe character was deleted (a pipe does not
    separate words, it glues its neighbours): the list of [split()] as it
    is, the [strip] and the filter finding nothing to do, since no word is
    empty and none holds a blank or a pipe. *)
Theorem convert_to_array_gives_the_words (s : string) :
  s <> "" ->
  _convert_to_array (PStr s) = PList (map PStr (split_ws (replace s "|" ""))) /\
  Forall (fun w => w <> "" /\
                   Forall (fun c => is_space c = false /\ c <> "|"%char) (chars w))
    (split_ws (replace s "|" "")).
Proof.
  intros Hs.
  assert (Hwords :
    Forall (fun w => chars w <> [] /\
                     Forall (fun c => is_space c = false /\ c <> "|"%char) (chars w))
      (split_ws (replace s "|" ""))).
  { unfold split_ws. apply split_ws_aux_words; [constructor|].
    change (replace s "|" "") with (str (replace_aux ["|"%char] [] 0 (chars s))).
    rewrite chars_str. apply replace_aux_deletes. }
  split.
  - unfold _convert_to_array.
    replace (truthy s) with true by (destruct s; [congruence|reflexivity]).
    f_equal.
    induction Hwords as [|w ws [Hne Hw] _ IH]; [reflexivity|].
    assert (Hstrip : strip w = w).
    { rewrite <- (str_chars w). apply strip_no_space.
      eapply Forall_impl; [exact Hw|]. cbn. tauto. }
    rewrite filter_cons_True.
    + cbn [map]. rewrite Hstrip, IH. reflexivity.
    + rewrite Hstrip. destruct w; [exfalso; apply Hne; reflexivity|reflexivity].
  - eapply Forall_impl; [exact Hwords|]. cbn. intros w [Hne Hw].
    split; [intros ->; apply Hne; reflexivity|exact Hw].
Qed.

End LaunchTime.

Section LaunchTimeExamples.
Import Py PyMore Khaadi KhaadiDetails.

Local Open Scope string_scope.
Local Open Scope list_scope.
Local Open Scope Z_scope.

Lemma launch_time_year_rule_witness :
  _create_launch_time 2025 2 "09. SEPTEMBER" (Some 11) = "2024-11" /\
  _create_launch_time 2025 2 "soon" None = "2025-02".
Proof.
  destruct (launch_time_year_rule 2025 2) as (Hgiven & _ & Hnone); [lia|lia|].
  split.
  - apply (Hgiven "09. SEPTEMBER" 11); [lia|vm_compute; reflexivity].
  - apply (Hnone "soon"). reflexivity.
Defined.

Lemma launch_time_has_the_width_of_a_year_and_month_witness :
  String.length (_create_launch_time 2025 6 "" (Some 9)) = 7%nat /\
  String.get 4 (_create_launch_time 2025 6 "" (Some 9)) = Some "-"%char.
Proof.
  apply (launch_time_has_the_width_of_a_year_and_month 2025 6 9 ""); lia.
Defined.

Lemma convert_to_array_gives_the_words_witness :
  _convert_to_array (PStr "Cotton|Lawn  Silk ")
  = PList [PStr "CottonLawn"; PStr "Silk"].
Proof.
  apply (proj1 (convert_to_array_gives_the_words "Cotton|Lawn  Silk " ltac:(discriminate))).
Defined.

End LaunchTimeExamples.

(** ** Khaadi: [scrape] with the enrichment pass *)

Section KhaadiScrapeFacts.
Import Py Paginator Khaadi.

Local Open Scope string_scope.
Local Open Scope list_scope.
Local Open Scope Z_scope.

Variable detail_fields : details -> listing -> result (gmap string pyval).

(** The cut that [KhaadiScraper.scrape] makes after the sequential path
    finds nothing to cut. *)
Lemma sequential_needs_no_cut fuel (cfg : config) (sites : nat -> site listing)
  (l : list listing) :
  _scrape_sequential fuel cfg sites = Some l ->
  (0 <? product_limit cfg) && (product_limit cfg <? len l) = false.
Proof.
  intros H. destruct (0 <? product_limit cfg) eqn:E; [|reflexivity].
  apply Z.ltb_lt in E. cbn [andb]. apply Z.ltb_ge.
  unfold _scrape_sequential in H.
  eapply sequential_within_limit; [exact E| |exact H]. unfold len. cbn. lia.
Qed.

(** [KhaadiScraper.scrape] is the scrape of Sapphire followed by the
    enrichment pass. *)
Lemma khaadi_scrape_unfold fuel (cfg : config) (sites : nat -> site listing)
  completion (enhance_with_details : bool) detail_workers fetch detail_completion :
  KhaadiScrape.scrape detail_fields fuel cfg sites completion enhance_with_details
    detail_workers fetch detail_completion
  = match Paginator.scrape fuel cfg sites completion with
    | Some (Returned all_products) =>
        if enhance_with_details
           && match all_products with [] => false | _ => true end
        then Some (enhance_products_with_details detail_fields all_products
                     detail_workers fetch detail_completion)
        else Some (Returned all_products)
    | Some (Raised e) => Some (Raised e)
    | None => None
    end.
Proof.
  unfold KhaadiScrape.scrape, Paginator.scrape.
  destruct (Z.of_nat (length (categories cfg)) <=? 1).
  - destruct (_scrape_sequential fuel cfg sites) as [l|] eqn:E; [|reflexivity].
    cbn [option_map]. rewrite (sequential_needs_no_cut _ _ _ _ E). reflexivity.
  - destruct (Z.min (max_workers cfg) _ <=? 0); [reflexivity|].
    destruct (collect _ completion []) as [all|]; [|reflexivity].
    cbn [option_map].
    destruct ((0 <? product_limit cfg) && (product_limit cfg <? len all));
      reflexivity.
Qed.

(** X18. Without [enhance_with_details], [KhaadiScraper.scrape] returns
    what [SapphireScraper.scrape] returns on the same configuration and the
    same sites: the second cut that Khaadi makes after the sequential path
    never removes anything. The same holds when nothing was scraped. *)
Theorem khaadi_scrape_without_enrichment fuel (cfg : config)
  (sites : nat -> site listing) completion (enhance_with_details : bool)
  detail_workers fetch detail_completion :
  enhance_with_details = false \/
  Paginator.scrape fuel cfg sites completion = Some (Returned []) ->
  KhaadiScrape.scrape detail_fields fuel cfg sites completion enhance_with_details
    detail_workers fetch detail_completion
  = Paginator.scrape fuel cfg sites completion.
Proof.
  intros H. rewrite khaadi_scrape_unfold.
  destruct (Paginator.scrape fuel cfg sites completion) as [[all|e]|];
    try reflexivity.
  destruct H as [->|H]; [reflexivity|].
  inversion H; subst. rewrite andb_false_r. reflexivity.
Qed.

(** X19. With [enhance_with_details] set and a scraped list that is not
    empty, [KhaadiScraper.scrape] returns what the enrichment pass makes of
    the scraped list. The scraped listings are lost to a [ValueError] when
    no scraped listing has both an SKU and a colour; otherwise as many
    listings are returned as were scraped. [detail_workers] plays no part
    in this, whatever its value. *)
Theorem khaadi_scrape_with_enrichment fuel (cfg : config)
  (sites : nat -> site listing) completion detail_workers fetch detail_completion
  (all_products : list listing) :
  Paginator.scrape fuel cfg sites completion = Some (Returned all_products) ->
  all_products <> [] ->
  KhaadiScrape.scrape detail_fields fuel cfg sites completion true
    detail_workers fetch detail_completion
  = Some (enhance_products_with_details detail_fields all_products detail_workers
            fetch detail_completion) /\
  (product_requests all_products = [] ->
   KhaadiScrape.scrape detail_fields fuel cfg sites completion true
     detail_workers fetch detail_completion = Some (Raised ValueError)) /\
  (product_requests all_products <> [] ->
   exists out,
     KhaadiScrape.scrape detail_fields fuel cfg sites completion true
       detail_workers fetch detail_completion = Some (Returned out) /\
     length out = length all_products).
Proof.
  intros Hs Hne.
  assert (E : KhaadiScrape.scrape detail_fields fuel cfg sites completion true
                detail_workers fetch detail_completion
              = Some (enhance_products_with_details detail_fields all_products
                        detail_workers fetch detail_completion)).
  { rewrite khaadi_scrape_unfold, Hs. destruct all_products; [congruence|reflexivity]. }
  split; [exact E|]. rewrite E.
  unfold enhance_products_with_details, get_product_details,
    _get_product_details_batch.
  split.
  - intros H. rewrite H. reflexivity.
  - intros Hr.
    replace (Z.min 5 (Z.of_nat (length (product_requests all_products))) <=? 0)
      with false.
    + eexists. split; [reflexivity|]. apply length_map.
    + symmetry. apply Z.leb_gt.
      destruct (product_requests all_products); [congruence|cbn [length]; lia].
Qed.

End KhaadiScrapeFacts.

Section KhaadiScrapeExamples.
Import Py Paginator Khaadi Scenario CasesKhaadi.

Local Open Scope string_scope.
Local Open Scope list_scope.
Local Open Scope Z_scope.

Lemma khaadi_scrape_without_enrichment_witness :
  KhaadiScrape.scrape copied_fields 5 one_category
    (fun _ => catalogue colourless_listings) [] false 3 first_fetch_fails []
  = Paginator.scrape 5 one_category (fun _ => catalogue colourless_listings) [].
Proof.
  apply (khaadi_scrape_without_enrichment copied_fields 5 one_category
           (fun _ => catalogue colourless_listings) [] false 3 first_fetch_fails []).
  left. reflexivity.
Defined.

Lemma khaadi_scrape_with_enrichment_witness :
  KhaadiScrape.scrape copied_fields 5 one_category
    (fun _ => catalogue colourless_listings) [] true 3 first_fetch_fails []
  = Some (Raised ValueError).
Proof.
  destruct (khaadi_scrape_with_enrichment copied_fields 5 one_category
              (fun _ => catalogue colourless_listings) [] 3 first_fetch_fails []
              colourless_listings) as (_ & Hraise & _).
  - vm_compute. reflexivity.
  - discriminate.
  - apply Hraise. vm_compute. reflexivity.
Defined.

End KhaadiScrapeExamples.
